(** * EspoCRM data-sync scripts: a shallow embedding and its properties

    The first half embeds the four Node scripts of [data/scripts]:
    - [export-reports.js]    ([ReportsExport]),
    - [import-reports.js]    ([ReportsImport]),
    - [export-workflows.js]  ([WorkflowsExport]),
    - [import-workflows.js]  ([WorkflowsImport]),
    with the settings that the two workflow scripts read from the command
    line and from [.env] ([Settings]), together with a model of the remote
    application they talk to ([Espo]).

    JSON values are an inductive type whose objects are finite maps from
    property names to values. The effects of the scripts (HTTP requests,
    file reads and writes, console output) are threaded through an
    explicit world in a small state-and-exception monad; the remote
    application is a parameter [serve] of every script, a step function on
    its state. What the platform does for the scripts is a parameter too:
    [new URL] and the base64 encoding of the workflow scripts, the files
    [.env] and the directories with what reading them gives or throws.

    The second half states and proves the properties: what the sanitizers
    remove, how the request primitives read a status, how identity is
    resolved, which failures stop a batch, that importing twice changes
    nothing; then the file names and the settings, what the importers and
    the exporters send, read and write, and how an export feeds an
    import. *)

From Stdlib Require Import Ascii String.
From stdpp Require Import gmap strings list fin_maps pretty.

Set Warnings "-register-all".
Set Default Proof Using "Type".
Local Open Scope Z_scope.

(** ** JavaScript values as the scripts see them *)

Module JS.

(** What [JSON.parse] can produce. A number is given by an integer [n] and
    is the double nearest to [n]: the scripts never compute with a number,
    they only test it for truthiness and splice it into a path or a name.
    A string is given by its bytes in UTF-8; a lone surrogate, which
    [JSON.parse] takes from an escape, has the three bytes that this
    encoding gives a code point from U+D800 to U+DFFF. Object property
    order is not observable by anything modelled here, so an object is a
    finite map. *)
Inductive json :=
| JNull
| JBool (b : bool)
| JNum (n : Z)
| JStr (s : string)
| JArr (l : list json)
| JObj (m : gmap string json).

(** A JavaScript value that may be [undefined]. *)
Abbreviation value := (option json).
Abbreviation undefined := (@None json).
Abbreviation obj := (gmap string json).

(** [ToBoolean]: the test behind [if (x)], [!x], [x || y]. *)
Definition truthy (j : json) : bool :=
  match j with
  | JNull => false
  | JBool b => b
  | JNum n => negb (n =? 0)
  | JStr s => negb (String.eqb s EmptyString)
  | JArr _ | JObj _ => true
  end.

Definition ToBoolean (v : value) : bool :=
  match v with Some j => truthy j | None => false end.

(** [x?.k] for the property names the scripts read ([id], [name], [list],
    [token], [entityType], [type], [isActive]): an own property of an object, and [undefined] on [null] and
    on every array, string, number and boolean (none of these names is
    inherited from a prototype). *)
Definition get (k : string) (x : json) : value :=
  match x with JObj m => m !! k | _ => None end.

(** [v?.k] when [v] itself may be [undefined]. *)
Definition get_opt (k : string) (v : value) : value :=
  match v with Some x => get k x | None => None end.

(** [x?.[0]]: first element of an array, first character of a string,
    property ["0"] of an object. *)
Definition index0 (v : value) : value :=
  match v with
  | Some (JArr l) => head l
  | Some (JStr (String c _)) => Some (JStr (String c EmptyString))
  | Some (JObj m) => m !! "0"
  | _ => None
  end.

(** The number that [JSON.parse] makes of the digits of a positive integer
    [n]: the nearest double, ties to even, as a mantissa of at most 53 bits
    and a binary exponent; [None] stands for [Infinity]. *)
Definition nearest_double (n : Z) : option (Z * Z) :=
  if n <? 2 ^ 53 then Some (n, 0)
  else
    let e := Z.log2 n - 52 in
    let q := n / 2 ^ e in
    let r := n mod 2 ^ e in
    let half := 2 ^ (e - 1) in
    let q := if (half <? r) || ((r =? half) && Z.odd q) then q + 1 else q in
    let '(q, e) := if q =? 2 ^ 53 then (2 ^ 52, e + 1) else (q, e) in
    if 971 <? e then None else Some (q, e).

(** The shortest decimal [s * 10^m] that reads back as the double
    [q * 2^e], and the closest to it when there are several (the even one
    of two that are equally close): the search goes from the highest power
    of ten down. *)
Fixpoint shortest (q e : Z) (m : nat) : Z * nat :=
  let v := q * 2 ^ e in
  let below := if q =? 2 ^ 52 then 2 ^ (e - 1) else 2 ^ e in
  let low := 2 * v - below in
  let high := 2 * v + 2 ^ e in
  let p := 10 ^ Z.of_nat m in
  let down := v / p in
  let up := down + 1 in
  let inside (x : Z) :=
    if Z.even q then (low <=? 2 * x) && (2 * x <=? high)
    else (low <? 2 * x) && (2 * x <? high) in
  let take_down := (0 <? down) && inside (down * p) in
  let take_up := inside (up * p) in
  let rest := match m with O => (v, O) | S m' => shortest q e m' end in
  if take_down && take_up then
    let twice := 2 * (v - down * p) in
    if twice <? p then (down, m)
    else if p <? twice then (up, m)
    else if Z.even down then (down, m) else (up, m)
  else if take_down then (down, m)
  else if take_up then (up, m)
  else rest.

Definition zeros (m : nat) : string := string_of_list_ascii (replicate m "0"%char).

(** [Number.prototype.toString] on a positive double that is an integer:
    all its digits below 2^53, the shortest digits that read back as the
    same double above, followed by zeros up to 21 digits and in exponent
    form from there on. *)
Definition positive_toString (n : Z) : string :=
  match nearest_double n with
  | None => "Infinity"
  | Some (q, e) =>
      if e =? 0 then pretty q
      else
        let '(s, m) := shortest q e (String.length (pretty (q * 2 ^ e))) in
        let digits := pretty s in
        let size := (String.length digits + m)%nat in
        if (size <=? 21)%nat then digits +:+ zeros m
        else
          match digits with
          | String d EmptyString => String d ("e+" +:+ pretty (Z.of_nat size - 1))
          | String d more =>
              String d ("." +:+ more +:+ "e+" +:+ pretty (Z.of_nat size - 1))
          | EmptyString => EmptyString
          end
  end.

(** [String(x)] for the number [x] that [JSON.parse] makes of the integer
    [n]. *)
Definition Number_toString (n : Z) : string :=
  if n =? 0 then "0"
  else if n <? 0 then "-" +:+ positive_toString (- n)
  else positive_toString n.

(** [ToString], as performed by a template literal and by
    [encodeURIComponent] on its argument. *)
Fixpoint ToString (j : json) : string :=
  match j with
  | JNull => "null"
  | JBool true => "true"
  | JBool false => "false"
  | JNum n => Number_toString n
  | JStr s => s
  | JArr l =>
      (fix join (l : list json) : string :=
         match l with
         | [] => EmptyString
         | x :: l' =>
             (match x with JNull => EmptyString | _ => ToString x end)
             +:+ (match l' with [] => EmptyString | _ => "," +:+ join l' end)
         end) l
  | JObj _ => "[object Object]"
  end.

(** [x === null] *)
Definition is_null (j : json) : bool :=
  match j with JNull => true | _ => false end.

(** [`${v}`] *)
Definition template (v : value) : string :=
  match v with Some j => ToString j | None => "undefined" end.

(** The escapes of [encodeURIComponent], over the UTF-8 bytes of the
    string: letters, digits and [- _ . ! ~ * ' ( )] are kept, every other
    byte becomes [%XX] in upper-case hexadecimal. *)
Definition hex_digit (n : N) : ascii :=
  match String.get (N.to_nat n) "0123456789ABCDEF" with
  | Some c => c
  | None => "0"%char
  end.

Definition unreserved (c : ascii) : bool :=
  let n := N_of_ascii c in
  (((65 <=? n) && (n <=? 90)) || ((97 <=? n) && (n <=? 122))
   || ((48 <=? n) && (n <=? 57))
   || bool_decide (c ∈ list_ascii_of_string "-_.!~*'()"))%N.

Definition encode_byte (c : ascii) : string :=
  if unreserved c then String c EmptyString
  else
    let n := N_of_ascii c in
    String "%" (String (hex_digit (n / 16)) (String (hex_digit (n mod 16)) EmptyString)).

Fixpoint percent_encode (s : string) : string :=
  match s with
  | EmptyString => EmptyString
  | String c s' => encode_byte c +:+ percent_encode s'
  end.

(** A lone surrogate in the string: the byte 237 followed by a byte from
    160 to 191. *)
Fixpoint lone_surrogate (s : string) : bool :=
  match s with
  | String a (String b _ as s') =>
      ((N_of_ascii a =? 237) && (160 <=? N_of_ascii b) && (N_of_ascii b <=? 191))%N
      || lone_surrogate s'
  | _ => false
  end.

(** [encodeURIComponent(s)]; [None] stands for the [URIError] that it
    throws on a string with a lone surrogate. *)
Definition encodeURIComponent (s : string) : option string :=
  if lone_surrogate s then None else Some (percent_encode s).

(** [s.startsWith(prefix)] *)
Fixpoint startsWith (pre s : string) : bool :=
  match pre, s with
  | EmptyString, _ => true
  | String a pre', String b s' => bool_decide (a = b) && startsWith pre' s'
  | String _ _, EmptyString => false
  end.

(** [s.endsWith(suffix)]: some tail of [s] is [suffix]. *)
Fixpoint endsWith (suf s : string) : bool :=
  String.eqb s suf
  || match s with
     | EmptyString => false
     | String _ s' => endsWith suf s'
     end.

(** [s.split(sep)] for a separator of one character: always at least one
    piece, the empty string giving one empty piece. *)
Fixpoint split (sep : ascii) (s : string) : list string :=
  match s with
  | EmptyString => [EmptyString]
  | String c s' =>
      if bool_decide (c = sep) then EmptyString :: split sep s'
      else
        match split sep s' with
        | piece :: pieces => String c piece :: pieces
        | [] => [String c EmptyString]
        end
  end.

(** The characters that [trim] strips (WhiteSpace and LineTerminator of the
    language), by their UTF-8 bytes: U+0009 to U+000D and U+0020 in one
    byte; U+00A0 in two; U+1680, U+2000 to U+200A, U+2028, U+2029, U+202F,
    U+205F, U+3000 and U+FEFF in three. *)
Definition white1 (a : ascii) : bool :=
  let a := N_of_ascii a in
  (((9 <=? a) && (a <=? 13)) || (a =? 32))%N.

Definition white2 (a b : ascii) : bool :=
  let a := N_of_ascii a in
  let b := N_of_ascii b in
  ((a =? 194) && (b =? 160))%N.

Definition white3 (a b c : ascii) : bool :=
  let a := N_of_ascii a in
  let b := N_of_ascii b in
  let c := N_of_ascii c in
  (((a =? 225) && (b =? 154) && (c =? 128))
   || ((a =? 226) && (b =? 128)
       && (((128 <=? c) && (c <=? 138)) || (c =? 168) || (c =? 169) || (c =? 175)))
   || ((a =? 226) && (b =? 129) && (c =? 159))
   || ((a =? 227) && (b =? 128) && (c =? 128))
   || ((a =? 239) && (b =? 187) && (c =? 191)))%N.

(** [s.trimStart()] *)
Fixpoint trimStart (s : string) : string :=
  match s with
  | String a s1 =>
      if white1 a then trimStart s1
      else
        match s1 with
        | String b s2 =>
            if white2 a b then trimStart s2
            else
              match s2 with
              | String c s3 => if white3 a b c then trimStart s3 else s
              | EmptyString => s
              end
        | EmptyString => s
        end
  | EmptyString => s
  end.

(** Nothing but white space. *)
Definition blank (s : string) : bool := String.eqb (trimStart s) EmptyString.

(** [s.trimEnd()]: the longest blank tail is dropped. *)
Fixpoint trimEnd (s : string) : string :=
  match s with
  | EmptyString => EmptyString
  | String c s' => if blank s then EmptyString else String c (trimEnd s')
  end.

(** [s.trim()] *)
Definition trim (s : string) : string := trimEnd (trimStart s).

(** Whether [s] holds one of the characters that [.] does not match in a
    regular expression: U+000A, U+000D, U+2028, U+2029. *)
Fixpoint has_line_terminator (s : string) : bool :=
  match s with
  | EmptyString => false
  | String a s' =>
      (N_of_ascii a =? 10)%N || (N_of_ascii a =? 13)%N
      || match s' with
         | String b (String c _) =>
             ((N_of_ascii a =? 226) && (N_of_ascii b =? 128)
              && ((N_of_ascii c =? 168) || (N_of_ascii c =? 169)))%N
         | _ => false
         end
      || has_line_terminator s'
  end.

(** The classes [A-Z], [a-z], [0-9] and [\w] of a regular expression. *)
Definition upper (c : ascii) : bool :=
  ((65 <=? N_of_ascii c) && (N_of_ascii c <=? 90))%N.

Definition lower (c : ascii) : bool :=
  ((97 <=? N_of_ascii c) && (N_of_ascii c <=? 122))%N.

Definition digit (c : ascii) : bool :=
  ((48 <=? N_of_ascii c) && (N_of_ascii c <=? 57))%N.

Definition word (c : ascii) : bool :=
  upper c || lower c || digit c || bool_decide (c = "_"%char).

(** The longest prefix of [s] whose characters are in the class [C], and
    what follows it. *)
Fixpoint span (C : ascii -> bool) (s : string) : string * string :=
  match s with
  | EmptyString => (EmptyString, EmptyString)
  | String c s' =>
      if C c then let '(p, r) := span C s' in (String c p, r)
      else (EmptyString, s)
  end.

End JS.
Export JS.

(** ** Transport, file system and console *)

(** The text of a response body, together with what [JSON.parse] makes of
    it ([None]: a [SyntaxError]). *)
Record text := Text { chars : string; JSON_parse : option json }.

(** A request as a script hands it to [fetch] or to [client.request]:
    [path] is what follows the base URL in the URL given to [fetch], and
    the [path] of the options given to [client.request]. Where the request
    goes is not part of it: the server that the base URL names is the
    remote that answers. *)
Record request := Request {
  method : string;
  path : string;
  headers : list (string * string);
  body : option json  (* the value handed to JSON.stringify, when a body is sent *)
}.

(** What the workflow scripts read of the object that [new URL] makes. *)
Record URL := {
  protocol : string;
  hostname : string;
  port : string;
  pathname : string;
  search : string
}.

Record response := Response { status : Z; data : text }.

(** What comes back for a request: a response, or a failure of the
    connection itself. *)
Inductive reply :=
| Reply (res : response)
| NetworkFailure (message : string).

(** Thrown values: [new Error(message)], the [SyntaxError] of [JSON.parse]
    (carrying the engine's message), the [TypeError] of a property read on
    [null] or of [new URL], the [URIError] of [encodeURIComponent], and
    the error object of a failed connection or of a failed file
    operation. *)
Inductive exn :=
| Error (message : string)
| SyntaxError (message : string)
| TypeError (message : string)
| URIError (message : string)
| NetError (message : string).

(** [error.message] *)
Definition message (e : exn) : string :=
  match e with
  | Error m | SyntaxError m | TypeError m | URIError m | NetError m => m
  end.

(** Lines written by [console.log] / [console.error]; only the lines that
    report an entity's outcome are kept apart, the rest is [Info]. *)
Inductive log_line :=
| Created (name : string)
| Updated (name : string)
| ErrorProcessing (file : string) (e : exn)
| Info (line : string).

Record world (Σ : Type) := World {
  remote : Σ;                (* state of the remote application *)
  sent : list request;       (* requests issued so far, oldest first *)
  reads : list string;       (* files read so far, oldest first *)
  console : list log_line    (* lines logged so far, oldest first *)
}.
Arguments World {Σ}.
Arguments remote {Σ}.
Arguments sent {Σ}.
Arguments reads {Σ}.
Arguments console {Σ}.

(** How a call completes. *)
Inductive completion (A : Type) :=
| Returned (a : A)
| Thrown (e : exn).
Arguments Returned {A}.
Arguments Thrown {A}.

(** Computations of the scripts: a world in, a world and a completion out. *)
Definition M (Σ A : Type) : Type := world Σ -> world Σ * completion A.

Definition ret {Σ A} (a : A) : M Σ A := fun w => (w, Returned a).

Definition throw {Σ A} (e : exn) : M Σ A := fun w => (w, Thrown e).

Definition bind {Σ A B} (m : M Σ A) (k : A -> M Σ B) : M Σ B :=
  fun w =>
    match m w with
    | (w', Returned a) => k a w'
    | (w', Thrown e) => (w', Thrown e)
    end.

(** [try { m } catch (e) { handler e }] *)
Definition try_catch {Σ A} (m : M Σ A) (handler : exn -> M Σ A) : M Σ A :=
  fun w =>
    match m w with
    | (w', Returned a) => (w', Returned a)
    | (w', Thrown e) => handler e w'
    end.

#[export] Instance M_ret {Σ} : MRet (M Σ) := fun A a => ret a.
#[export] Instance M_bind {Σ} : MBind (M Σ) := fun A B k m => bind m k.

Definition log {Σ} (l : log_line) : M Σ unit :=
  fun w => (World (remote w) (sent w) (reads w) (console w ++ [l]), Returned tt).

(** A directory: its entries in [readdirSync] order. The contents of a file
    are represented by what [JSON.parse] makes of them ([None]: not JSON). *)
Abbreviation directory := (list (string * option json)).

(** [fs.readFileSync(path.join(dir, file), 'utf8')] *)
Definition readFileSync {Σ} (dir : directory) (file : string) : M Σ (option json) :=
  fun w =>
    let w' := World (remote w) (sent w) (reads w ++ [file]) (console w) in
    match list_find (fun e => e.1 = file) dir with
    | Some (_, (_, contents)) => (w', Returned contents)
    | None => (w', Thrown (Error ("ENOENT: no such file or directory, open " +:+ file)))
    end.

(** [JSON.parse(contents)], on contents given by their parse. *)
Definition parse {Σ} (contents : option json) : M Σ json :=
  match contents with
  | Some j => ret j
  | None => throw (SyntaxError "Unexpected token in JSON")
  end.

(** One exchange with the remote application [serve]: the request is
    recorded and the remote takes its step. *)
Definition exchange {Σ} (serve : Σ -> request -> Σ * reply) (req : request) : M Σ reply :=
  fun w =>
    let '(σ, r) := serve (remote w) req in
    (World σ (sent w ++ [req]) (reads w) (console w), Returned r).

(** [for (const x of xs) { body x }] *)
Fixpoint for_of {Σ A} (xs : list A) (body : A -> M Σ unit) : M Σ unit :=
  match xs with
  | [] => ret tt
  | x :: xs' => body x ≫= fun _ => for_of xs' body
  end.

(** The line feed of the error message built by [api]. *)
Definition LF : string := String (ascii_of_N 10) EmptyString.

(** [fetch] (import-reports.js) and [client.request] (the workflow scripts):
    the promise is rejected when the connection fails. *)
Definition send {Σ} (serve : Σ -> request -> Σ * reply) (req : request) : M Σ response :=
  r ← exchange serve req;
  match r with
  | Reply res => mret res
  | NetworkFailure m => throw (NetError m)
  end.

(** [body ? JSON.stringify(body) : undefined] and [if (body) req.write(...)] *)
Definition body_of (body : value) : option json :=
  if ToBoolean body then body else None.

(** [x.k] without [?.]: a [TypeError] on [null]. *)
Definition member {Σ} (k : string) (x : json) : M Σ value :=
  match x with
  | JNull => throw (TypeError ("Cannot read properties of null (reading '" +:+ k +:+ "')"))
  | _ => mret (get k x)
  end.

(** The exporters also write files. Their world carries, next to the state
    of the remote application, the files written so far, oldest first, each
    with the value that was handed to [JSON.stringify]. *)
Abbreviation written := (list (string * json)).

(** The remote application, stepping beside the files. *)
Definition beside_files {Σ} (serve : Σ -> request -> Σ * reply)
    (σ : Σ * written) (req : request) : (Σ * written) * reply :=
  let '(σ', r) := serve σ.1 req in ((σ', σ.2), r).

(** [fs.writeFileSync(path.join(dir, file), JSON.stringify(contents, null, 2))];
    [refused] tells the paths that the file system does not let the script
    write. *)
Definition writeFileSync {Σ} (refused : string -> bool) (file : string) (contents : json)
  : M (Σ * written) unit :=
  fun w =>
    if refused file then
      (w, Thrown (Error ("EACCES: permission denied, open " +:+ file)))
    else
      (World ((remote w).1, (remote w).2 ++ [(file, contents)])
         (sent w) (reads w) (console w), Returned tt).

(** What [for (const x of v)] iterates over when [v] is a string: its code
    points, here the groups made of a leading byte and the continuation
    bytes that follow it. *)
Definition continuation (c : ascii) : bool :=
  ((128 <=? N_of_ascii c) && (N_of_ascii c <=? 191))%N.

Fixpoint code_points (s : string) : list string :=
  match s with
  | EmptyString => []
  | String c s' =>
      match s' with
      | String d _ =>
          if continuation d then
            match code_points s' with
            | g :: gs => String c g :: gs
            | [] => [String c EmptyString]
            end
          else String c EmptyString :: code_points s'
      | EmptyString => [String c EmptyString]
      end
  end.

(** [fs.mkdirSync(dir, { recursive: true })], which makes the directory
    unless [failure] tells why it cannot. *)
Definition mkdirSync {Σ} (failure : option exn) : M Σ unit :=
  match failure with
  | Some e => throw e
  | None => mret tt
  end.

(** [for (const x of v)]: the values that the loop goes through; [what]
    is the expression that the error names. *)
Definition iterate (what : string) (v : json) : completion (list json) :=
  match v with
  | JArr l => Returned l
  | JStr s => Returned (JStr <$> code_points s)
  | _ => Thrown (TypeError (what +:+ " is not iterable"))
  end.

(** An object literal whose properties may be [undefined]: these are the
    ones that [JSON.stringify] leaves out. *)
Definition literal (fields : list (string * value)) : obj :=
  foldr (fun f o => match f.2 with Some v => <[f.1 := v]> o | None => o end) ∅ fields.

(** ** Settings of the workflow scripts *)

(** [loadEnv] and [parseArgs], which export-workflows.js and
    import-workflows.js share word for word: first on the text of [.env],
    then with the read of that file. *)
Module Settings.

(** [process.env]: the variables of the environment by name. *)
Abbreviation env := (gmap string string).

(** The names that [process.env] inherits from [Object.prototype]: read on
    [process.env], such a name gives a function when the environment has no
    variable of that name. *)
Definition Object_prototype : list string :=
  ["constructor"; "hasOwnProperty"; "isPrototypeOf"; "propertyIsEnumerable";
   "toLocaleString"; "toString"; "valueOf"; "__proto__";
   "__defineGetter__"; "__defineSetter__"; "__lookupGetter__"; "__lookupSetter__"].

(** Truthiness of [process.env[name]]. *)
Definition is_set (e : env) (name : string) : bool :=
  match e !! name with
  | Some v => negb (String.eqb v EmptyString)
  | None => bool_decide (name ∈ Object_prototype)
  end.

(** [process.env[name] = v]: the variable is set with [setenv], which
    refuses the empty name. *)
Definition assign (name v : string) (e : env) : env :=
  if String.eqb name EmptyString then e else <[name := v]> e.

(** [line.match] in [loadEnv]: the name is one or more characters other
    than [#] and [=] from the start of the line, then [=], then the value,
    any characters that [.] matches up to the end of the line. *)
Definition match_line (line : string) : option (string * string) :=
  let '(name, rest) :=
    span (fun c => negb (bool_decide (c = "#"%char)) && negb (bool_decide (c = "="%char)))
      line in
  match name, rest with
  | String _ _, String "=" v => if has_line_terminator v then None else Some (name, v)
  | _, _ => None
  end.

(** The function given to [forEach] in [loadEnv]. *)
Definition loadEnv_line (e : env) (line : string) : env :=
  match match_line line with
  | Some (name, v) =>
      if is_set e (trim name) then e else assign (trim name) (trim v) e
  | None => e
  end.

(** The lines of [.env] applied to the environment: [dotenv] is the text
    of the file, [None] when there is no such file. *)
Definition loadEnv (dotenv : option string) (e : env) : env :=
  match dotenv with
  | Some content => foldl loadEnv_line e (split (ascii_of_N 10) content)
  | None => e
  end.

(** [arg.match(/^--([a-zA-Z-]+)=(.+)$/)]: the two groups. *)
Definition match_arg (arg : string) : option (string * string) :=
  match arg with
  | String "-" (String "-" s) =>
      let '(key, rest) :=
        span (fun c => upper c || lower c || bool_decide (c = "-"%char)) s in
      match key, rest with
      | String _ _, String "=" (String c v) =>
          if has_line_terminator (String c v) then None else Some (key, String c v)
      | _, _ => None
      end
  | _ => None
  end.

(** [c.toUpperCase()] for a character [c] of [a-z]. *)
Definition toUpperCase (c : ascii) : ascii :=
  if lower c then ascii_of_N (N_of_ascii c - 32) else c.

(** [key.replace(/-([a-z])/g, (_, c) => c.toUpperCase())] *)
Fixpoint camelCase (key : string) : string :=
  match key with
  | EmptyString => EmptyString
  | String a rest =>
      match rest with
      | String c s =>
          if bool_decide (a = "-"%char) && lower c
          then String (toUpperCase c) (camelCase s)
          else String a (camelCase rest)
      | EmptyString => String a EmptyString
      end
  end.

(** The function given to [forEach] in [parseArgs]; the properties of
    [args] that are [null] are the names without a value. *)
Definition parseArg (args : gmap string string) (arg : string) : gmap string string :=
  match match_arg arg with
  | Some (key, v) => <[camelCase key := v]> args
  | None => args
  end.

(** What [parseArgs] returns, less [env]. *)
Record arguments := Args {
  url : string;
  user : option string;
  password : option string
}.

(** Truthiness of a command-line or environment setting. *)
Definition present (v : option string) : bool :=
  match v with Some s => negb (String.eqb s EmptyString) | None => false end.

(** [a || b] *)
Definition or_else (a b : option string) : option string :=
  if present a then a else b.

(** [argv] is [process.argv], [e] is [process.env] when the script starts. *)
Definition parseArgs (dotenv : option string) (argv : list string) (e : env)
  : arguments :=
  let e := loadEnv dotenv e in
  let args := foldl parseArg ∅ (drop 2 argv) in
  let '(url, user, password) :=
    if bool_decide (args !! "env" = Some "prod" \/ args !! "env" = Some "production") then
      (or_else (args !! "url") (e !! "ESPO_PROD_URL"),
       or_else (args !! "user") (e !! "ESPO_PROD_USER"),
       or_else (args !! "password") (e !! "ESPO_PROD_PASSWORD"))
    else if bool_decide (args !! "env" = Some "dev" \/ args !! "env" = Some "development") then
      (or_else (args !! "url") (e !! "ESPO_DEV_URL"),
       or_else (args !! "user") (e !! "ESPO_DEV_USER"),
       or_else (args !! "password") (e !! "ESPO_DEV_PASSWORD"))
    else (args !! "url", args !! "user", args !! "password") in
  (* Fallback to generic env vars *)
  {| url :=
       default "http://localhost:8080"
         (or_else (or_else url (e !! "ESPO_URL")) (Some "http://localhost:8080"));
     user := or_else user (e !! "ESPO_USER");
     password := or_else password (e !! "ESPO_PASSWORD") |}.

(** [parseArgs()] where [main] calls it: [loadEnv] reads the file [.env]
    when [fs.existsSync] finds it. Here [dotenv] is [None] when there is no
    such file, and otherwise what [fs.readFileSync] does: it returns the
    text or throws. *)
Definition read {Σ} (dotenv : option (completion string)) (argv : list string) (e : env)
  : M Σ arguments :=
  match dotenv with
  | None => mret (parseArgs None argv e)
  | Some contents =>
      fun w =>
        (World (remote w) (sent w) (reads w ++ [".env"]) (console w),
         match contents with
         | Returned content => Returned (parseArgs (Some content) argv e)
         | Thrown err => Thrown err
         end)
  end.

End Settings.

(** ** export-reports.js *)

Module ReportsExport.

Definition sanitize (report : obj) : obj :=
  let r := report in  (* structuredClone(report) *)
  let r := delete "id" r in
  let r := delete "createdAt" r in
  let r := delete "modifiedAt" r in
  let r := delete "createdById" r in
  let r := delete "modifiedById" r in
  r.

(** [sanitize] on whatever the remote answered: [structuredClone] copies
    any value; [delete] on [null] is a [TypeError], and on a value that is
    no object it does nothing. *)
Definition sanitize_value (report : json) : completion json :=
  match report with
  | JNull => Thrown (TypeError "Cannot convert undefined or null to object")
  | JObj r => Returned (JObj (sanitize r))
  | _ => Returned report
  end.

(** [REPORT_NAMES], from the environment variable of that name (the empty
    string when it is not set): split at the commas, each piece trimmed,
    the empty pieces dropped. *)
Definition REPORT_NAMES (variable : option string) : list string :=
  filter (fun s => negb (String.eqb s EmptyString))
    (trim <$> split "," (default EmptyString variable)).

(** The characters that [/[^\w\-]+/] leaves alone. *)
Definition kept (c : ascii) : bool := word c || bool_decide (c = "-"%char).

Definition underscore (c : ascii) : bool := bool_decide (c = "_"%char).

(** [s.replace(/C+/g, "_")] for a class [C] of characters: every maximal
    run of them becomes one underscore. [run] tells that the character
    before [s] was in a run. *)
Fixpoint replace_runs (C : ascii -> bool) (run : bool) (s : string) : string :=
  match s with
  | EmptyString => EmptyString
  | String c s' =>
      if C c then
        if run then replace_runs C true s'
        else String "_" (replace_runs C true s')
      else String c (replace_runs C false s')
  end.

(** [s.replace(/^_+|_+$/g, "")], the leading run and the trailing run. *)
Fixpoint strip_start (s : string) : string :=
  match s with
  | String c s' => if underscore c then strip_start s' else s
  | EmptyString => s
  end.

Fixpoint strip_end (s : string) : string :=
  match s with
  | EmptyString => EmptyString
  | String c s' =>
      let t := strip_end s' in
      if underscore c && String.eqb t EmptyString then EmptyString else String c t
  end.

(** The three replacements of [fileNameFor], on the name. *)
Definition safe_name (name : string) : string :=
  let s := replace_runs (fun c => negb (kept c)) false name in
  let s := replace_runs underscore false s in
  strip_end (strip_start s).

(** [report.name.replace] is a function only when the name is a string. *)
Definition fileNameFor (report : json) : completion string :=
  match report with
  | JNull => Thrown (TypeError "Cannot read properties of null (reading 'name')")
  | _ =>
      match get "name" report with
      | Some (JStr name) => Returned (safe_name name)
      | Some JNull =>
          Thrown (TypeError "Cannot read properties of null (reading 'replace')")
      | None =>
          Thrown (TypeError "Cannot read properties of undefined (reading 'replace')")
      | Some _ => Thrown (TypeError "report.name.replace is not a function")
      end
  end.

Section script.
Context {Σ : Type} (serve : Σ -> request -> Σ * reply).
Variable DEV_KEY : string.
(** The paths that cannot be written, and the error of [fs.mkdirSync] when
    the directory cannot be made. *)
Variable refused : string -> bool.
Variable mkdir_error : option exn.

(** [res.ok] *)
Definition ok (res : response) : bool :=
  (200 <=? status res) && (status res <=? 299).

Definition api (method urlPath : string) : M (Σ * written) json :=
  res ← send (beside_files serve)
           {| method := method; path := urlPath;
              headers := [("X-Api-Key", DEV_KEY)]; body := None |};
  if negb (ok res) then
    throw (Error (method +:+ " " +:+ urlPath +:+ " -> " +:+ pretty (status res)
                  +:+ " " +:+ chars (data res)))
  else parse (JSON_parse (data res)).  (* res.json() *)

(** [lift c]: a completion of a function without effects. *)
Definition lift {A} (c : completion A) : M (Σ * written) A :=
  match c with Returned a => mret a | Thrown e => throw e end.

(** [REPORT_NAMES.includes(r.name)] *)
Definition selected (names : list string) (r : json) : completion bool :=
  match r with
  | JNull => Thrown (TypeError "Cannot read properties of null (reading 'name')")
  | _ =>
      Returned (match get "name" r with
                | Some (JStr n) => bool_decide (n ∈ names)
                | _ => false
                end)
  end.

(** [reports.filter(r => REPORT_NAMES.includes(r.name))], on the elements
    of an array. *)
Fixpoint filter_selected (names : list string) (l : list json) : completion (list json) :=
  match l with
  | [] => Returned []
  | r :: l' =>
      match selected names r with
      | Thrown e => Thrown e
      | Returned keep =>
          match filter_selected names l' with
          | Thrown e => Thrown e
          | Returned rest => Returned (if keep then r :: rest else rest)
          end
      end
  end.

(** [reports] and [filtered] of [main]. *)
Definition reports_of (listing : json) : json :=
  if ToBoolean (get "list" listing) then default JNull (get "list" listing)
  else JArr [].

Definition filtered (names : list string) (reports : json) : completion json :=
  match names with
  | _ :: _ =>
      match reports with
      | JArr l =>
          match filter_selected names l with
          | Returned l' => Returned (JArr l')
          | Thrown e => Thrown e
          end
      | _ => Thrown (TypeError "reports.filter is not a function")
      end
  | [] => Returned reports
  end.

(** The body of the loop of [main]. *)
Definition export (r : json) : M (Σ * written) unit :=
  id ← member "id" r;
  full ← api "GET" ("/api/v1/Report/" +:+ template id);
  out ← lift (sanitize_value full);
  name ← lift (fileNameFor out);
  let fn := name +:+ ".json" in
  _ ← writeFileSync refused fn out;
  log (Info ("Exported: " +:+ template (get "name" out) +:+ " -> " +:+ fn)).

Definition main (names : list string) : M (Σ * written) unit :=
  _ ← mkdirSync mkdir_error;
  listing ← api "GET" "/api/v1/Report?maxSize=200";
  _ ← member "list" listing;
  selection ← lift (filtered names (reports_of listing));
  _ ← log (Info "Found reports, exporting...");
  rs ← lift (iterate "filtered" selection);
  for_of rs export.

End script.

(** Truthiness of an environment variable. *)
Definition present (v : option string) : bool :=
  match v with Some s => negb (String.eqb s EmptyString) | None => false end.

(** The whole script, from the environment check to the exit code:
    [main().catch(...)] turns any error into exit code 1. *)
Definition script {Σ} (serve : Σ -> request -> Σ * reply)
    (refused : string -> bool) (mkdir_error : option exn)
    (DEV_URL DEV_KEY names : option string) (w : world (Σ * written))
  : world (Σ * written) * Z :=
  if negb (present DEV_URL) || negb (present DEV_KEY) then
    (World (remote w) (sent w) (reads w)
       (console w ++ [Info "Missing ESPO_DEV_URL or ESPO_DEV_API_KEY"]), 1)
  else
    match main serve (default EmptyString DEV_KEY) refused mkdir_error
            (REPORT_NAMES names) w with
    | (w', Returned _) => (w', 0)
    | (w', Thrown e) =>
        (World (remote w') (sent w') (reads w') (console w' ++ [Info (message e)]), 1)
    end.

End ReportsExport.

(** ** import-reports.js *)

Module ReportsImport.

Record environment := Environment {
  ESPO_PROD_URL : option string;
  ESPO_PROD_API_KEY : option string;
  ESPO_DEV_URL : option string;
  ESPO_DEV_API_KEY : option string
}.

(** [getEnv()]: [None] stands for the thrown usage error. *)
Definition getEnv (target : option string) (env : environment)
  : option (option string * option string) :=
  if bool_decide (target = Some "prod") then
    Some (ESPO_PROD_URL env, ESPO_PROD_API_KEY env)
  else if bool_decide (target = Some "dev") then
    Some (ESPO_DEV_URL env, ESPO_DEV_API_KEY env)
  else None.

(** Truthiness of an environment variable. *)
Definition present (v : option string) : bool :=
  match v with Some s => negb (String.eqb s EmptyString) | None => false end.

(** On the object that [upsert] hands it (a report whose [name] was truthy
    is an object). *)
Definition sanitizeForImport (report : obj) : obj :=
  let r := report in  (* structuredClone(report) *)
  (* system / env specific *)
  let r := delete "id" r in
  let r := delete "createdAt" r in
  let r := delete "modifiedAt" r in
  let r := delete "createdById" r in
  let r := delete "modifiedById" r in
  (* Espo silently ignores updates if these are present *)
  let r := delete "entityId" r in
  let r := delete "entityType" r in
  let r := delete "isInternal" r in
  r.

Section script.
Context {Σ : Type} (serve : Σ -> request -> Σ * reply).
Variable API_KEY : string.

(** [res.ok] *)
Definition ok (res : response) : bool :=
  (200 <=? status res) && (status res <=? 299).

(** The request that [api] hands to [fetch]. *)
Definition init (method path : string) (body : value) : request :=
  {| method := method;
     path := path;
     headers := [("Content-Type", "application/json"); ("X-Api-Key", API_KEY)];
     body := body_of body |}.

Definition api (method path : string) (body : value) : M Σ json :=
  res ← send serve (init method path body);
  if negb (ok res) then
    throw (Error (method +:+ " " +:+ path +:+ " → " +:+ pretty (status res)
                  +:+ LF +:+ chars (data res)))
  else parse (JSON_parse (data res)).  (* res.json() *)

(** The value returned is the first element of [res.list], or [null]. *)
Definition findByName (name : value) : M Σ json :=
  match encodeURIComponent (template name) with
  | None => throw (URIError "URI malformed")
  | Some q =>
      res ← api "GET" ("/api/v1/Report?maxSize=1&filters[name]=" +:+ q) None;
      let first := index0 (get "list" res) in
      mret (if ToBoolean first then default JNull first else JNull)
  end.

Definition upsert (report : json) : M Σ unit :=
  if negb (ToBoolean (get "name" report)) then
    throw (Error "Report JSON missing required field: name")
  else
    match report with
    | JObj r =>
        let payload := sanitizeForImport r in
        existing ← findByName (payload !! "name");
        if ToBoolean (get "id" existing) then
          _ ← api "PATCH" ("/api/v1/Report/" +:+ template (get "id" existing))
                (Some (JObj payload));
          log (Updated (template (payload !! "name")))
        else
          _ ← api "POST" "/api/v1/Report" (Some (JObj payload));
          log (Created (template (payload !! "name")))
    | _ =>  (* not reached: [report?.name] of a non-object is [undefined] *)
        throw (Error "Report JSON missing required field: name")
    end.

(** The files [main] iterates over. *)
Definition files_of (dir : directory) : list string :=
  filter (fun f => endsWith ".json" f) (dir.*1).

(** [REPORTS_DIR] is [None] when the directory cannot be listed. *)
Definition main (REPORTS_DIR : option directory) : M Σ unit :=
  match REPORTS_DIR with
  | None => throw (Error "ENOENT: no such file or directory, scandir")
  | Some dir =>
      let files := files_of dir in
      _ ← log (Info ("Importing " +:+ pretty (length files) +:+ " reports"));
      _ ← for_of files (fun file =>
             t ← readFileSync dir file;
             report ← parse t;
             upsert report);
      log (Info "Report import completed")
  end.

End script.

(** The whole script, from the environment check to the exit code:
    [main().catch(...)] turns any error into exit code 1. *)
Definition script {Σ} (serve : Σ -> request -> Σ * reply)
    (target : option string) (env : environment)
    (REPORTS_DIR : option directory) (w : world Σ) : world Σ * Z :=
  match getEnv target env with
  | None => (w, 1)
  | Some (BASE_URL, API_KEY) =>
      if negb (present BASE_URL) || negb (present API_KEY) then
        (World (remote w) (sent w) (reads w)
           (console w ++ [Info "Missing ESPO URL or API KEY"]), 1)
      else
        match main serve (default EmptyString API_KEY) REPORTS_DIR w with
        | (w', Returned _) => (w', 0)
        | (w', Thrown err) =>
            (World (remote w') (sent w') (reads w')
               (console w' ++ [Info "Import failed"; Info (message err)]), 1)
        end
  end.

End ReportsImport.

(** ** export-workflows.js *)

(** [options] of both workflow scripts, for the [url] that [new URL] made
    of the endpoint and the base URL, with the body written to the
    request. The [hostname] and the [port] of the options, and the client
    chosen by [url.protocol], tell where the request goes. *)
Definition options (url : URL) (headers : list (string * string))
    (method : string) (body : value) : request :=
  {| method := method;
     path := pathname url +:+ search url;
     headers := [("Content-Type", "application/json"); ("Accept", "application/json")]
                ++ headers;
     body := body_of body |}.

Module WorkflowsExport.
Section script.
Context {Σ : Type} (serve : Σ -> request -> Σ * reply).
(** [new URL(endpoint, baseUrl)]; [None] stands for the [TypeError] that
    it throws when the two do not make a URL. *)
Variable new_URL : string -> string -> option URL.

Definition apiRequest (baseUrl endpoint : string) (headers : list (string * string))
    (method : string) (body : value) : M Σ json :=
  match new_URL endpoint baseUrl with
  | None => throw (TypeError "Invalid URL")
  | Some url =>
      res ← send serve (options url headers method body);
      if (200 <=? status res) && (status res <? 300) then
        match JSON_parse (data res) with
        | Some j => mret j
        | None => mret (JStr (chars (data res)))
        end
      else
        throw (Error ("API Error " +:+ pretty (status res) +:+ ": " +:+ chars (data res)))
  end.

End script.


Definition EXCLUDE_FIELDS : list string :=
  ["createdAt"; "modifiedAt"; "createdById"; "createdByName";
   "modifiedById"; "modifiedByName"].

Definition cleanForExport (entity : obj) : obj :=
  let cleaned := entity in  (* { ...entity } *)
  fold_left (fun cleaned field => delete field cleaned) EXCLUDE_FIELDS cleaned.

(** How [main] ends: [process.exit(code)], the early return when there is
    nothing to export, or the end of the function. *)
Inductive ending :=
| Exit (code : Z)
| Nothing
| Complete.

(** Truthiness of a command-line or environment setting. *)
Definition present (v : option string) : bool :=
  match v with Some s => negb (String.eqb s EmptyString) | None => false end.

(** The properties [0], [1], ... of an array or of a string. *)
Definition indexed (l : list json) : obj :=
  list_to_map (imap (fun i x => (pretty i, x)) l).

Section main.
Context {Σ : Type} (serve : Σ -> request -> Σ * reply).
(** [new URL(endpoint, baseUrl)] *)
Variable new_URL : string -> string -> option URL.
(** [Buffer.from(s).toString('base64')] *)
Variable base64 : string -> string.
(** The UTF-16 code units of a string, each as a string: what [s.length]
    counts and what [{ ...s }] copies. *)
Variable units : string -> list string.
(** [new Date().toISOString()] *)
Variable now : string.
(** The paths that cannot be written, and the error of [fs.mkdirSync] when
    the output directory is missing and cannot be made. *)
Variable refused : string -> bool.
Variable mkdir_error : option exn.

(** The token is returned as the string it becomes in the header. *)
Definition authenticate (baseUrl username password : string) : M (Σ * written) string :=
  _ ← log (Info "Authenticating...");
  let authString := base64 (username +:+ ":" +:+ password) in
  try_catch
    (response ← apiRequest (beside_files serve) new_URL baseUrl "/api/v1/App/user"
                  [("Espo-Authorization", authString)] "GET" (Some JNull);
     if truthy response && ToBoolean (get "token" response) then
       _ ← log (Info "Authentication successful!");
       mret (template (get "token" response))
     else mret authString)
    (fun error => throw (Error ("Authentication failed: " +:+ message error))).

(** [{ ...entity }] of [cleanForExport], on whatever the remote answered. *)
Definition spread (entity : json) : obj :=
  match entity with
  | JObj m => m
  | JArr l => indexed l
  | JStr s => indexed (JStr <$> units s)
  | _ => ∅
  end.

(** [v.length] *)
Definition length_of (v : json) : value :=
  match v with
  | JArr l => Some (JNum (Z.of_nat (length l)))
  | JStr s => Some (JNum (Z.of_nat (length (units s))))
  | JObj m => m !! "length"
  | _ => None
  end.

(** [response.list.length === 0] *)
Definition is_empty (v : json) : bool :=
  match length_of v with Some (JNum 0) => true | _ => false end.

(** The body of the loop of [main]: the file of one workflow is written
    and its entry of the manifest is returned.  The line logged is given
    without its status mark. *)
Definition exportWorkflow (url : string) (authHeaders : list (string * string))
    (workflow : json) : M (Σ * written) json :=
  id ← member "id" workflow;
  fullWorkflow ← apiRequest (beside_files serve) new_URL url
                   ("/api/v1/Workflow/" +:+ template id) authHeaders "GET" (Some JNull);
  let cleaned := cleanForExport (spread fullWorkflow) in
  let filename := template id +:+ ".json" in
  _ ← writeFileSync refused filename (JObj cleaned);
  _ ← log (Info ("  " +:+ template (get "name" workflow)
                 +:+ " (" +:+ template (get "entityType" workflow) +:+ ")"));
  mret (JObj (literal [("id", id);
                       ("name", get "name" workflow);
                       ("entityType", get "entityType" workflow);
                       ("type", get "type" workflow);
                       ("isActive", get "isActive" workflow);
                       ("file", Some (JStr filename))])).

(** [for (const workflow of response.list) ...], with [manifest.workflows]
    before and after. *)
Fixpoint exportWorkflows (url : string) (authHeaders : list (string * string))
    (workflows entries : list json) : M (Σ * written) (list json) :=
  match workflows with
  | [] => mret entries
  | workflow :: workflows' =>
      entry ← exportWorkflow url authHeaders workflow;
      exportWorkflows url authHeaders workflows' (entries ++ [entry])
  end.

(** The [try] block of [main] with its [catch]; [outputDir] tells whether
    [fs.existsSync(outputDir)].  The lines that report counts are logged
    in short. *)
Definition exportAll (url : string) (authHeaders : list (string * string))
    (outputDir : bool) : M (Σ * written) ending :=
  try_catch
    (_ ← log (Info "Fetching workflows...");
     response ← apiRequest (beside_files serve) new_URL url
                  "/api/v1/Workflow?maxSize=500&orderBy=name" authHeaders
                  "GET" (Some JNull);
     list_ ← member "list" response;
     if negb (ToBoolean list_) || is_empty (default JNull list_) then
       _ ← log (Info "No workflows found.");
       mret Nothing
     else
       _ ← log (Info "Found workflows.");
       _ ← (if outputDir then mret tt else mkdirSync mkdir_error);
       workflows ← (match iterate "response.list" (default JNull list_) with
                    | Returned l => mret l
                    | Thrown e => throw e
                    end);
       entries ← exportWorkflows url authHeaders workflows [];
       _ ← writeFileSync refused "_manifest.json"
             (JObj (literal [("exportedAt", Some (JStr now));
                             ("source", Some (JStr url));
                             ("count", length_of (default JNull list_));
                             ("workflows", Some (JArr entries))]));
       _ ← log (Info "Export complete!");
       mret Complete)
    (fun error =>
       _ ← log (Info ("Error: " +:+ message error));
       mret (Exit 1)).

(** [main] from its second line on, with the [args] that [parseArgs]
    returned. *)
Definition export (args : Settings.arguments) (outputDir : bool)
  : M (Σ * written) ending :=
  _ ← log (Info "EspoCRM Workflow Export");  (* and the other header lines *)
  if negb (present (Settings.user args)) || negb (present (Settings.password args)) then
    _ ← log (Info "Error: Username and password are required.");
    mret (Exit 1)
  else
    auth ← try_catch
             (token ← authenticate (Settings.url args)
                         (default EmptyString (Settings.user args))
                         (default EmptyString (Settings.password args));
              mret (Some token))
             (fun e => _ ← log (Info (message e)); mret None);
    match auth with
    | None => mret (Exit 1)
    | Some authToken =>
        exportAll (Settings.url args) [("Espo-Authorization", authToken)] outputDir
    end.

(** [dotenv], [argv] and [env] are what [parseArgs] reads: the file
    [.env], [process.argv] and [process.env]. *)
Definition main (dotenv : option (completion string)) (argv : list string)
    (env : Settings.env) (outputDir : bool) : M (Σ * written) ending :=
  args ← Settings.read dotenv argv env;
  export args outputDir.

End main.

End WorkflowsExport.

(** ** import-workflows.js *)

Module WorkflowsImport.

Record tally := Tally { created : nat; updated : nat; errors : nat }.

(** How [main] ends: [process.exit(code)], or a plain return, with the
    counters when the loop was reached. *)
Inductive ending :=
| Exit (code : Z)
| Skipped
| Summary (t : tally).

Section script.
Context {Σ : Type} (serve : Σ -> request -> Σ * reply).
(** [new URL(endpoint, baseUrl)]; [None] stands for the [TypeError] that
    it throws when the two do not make a URL. *)
Variable new_URL : string -> string -> option URL.
(** [Buffer.from(s).toString('base64')] *)
Variable base64 : string -> string.

Definition apiRequest (baseUrl endpoint : string) (headers : list (string * string))
    (method : string) (body : value) : M Σ json :=
  match new_URL endpoint baseUrl with
  | None => throw (TypeError "Invalid URL")
  | Some url =>
      res ← send serve (options url headers method body);
      if (200 <=? status res) && (status res <? 300) then
        match JSON_parse (data res) with
        | Some j => mret j
        | None => mret (JStr (chars (data res)))
        end
      else if status res =? 404 then
        mret JNull
      else
        throw (Error ("API Error " +:+ pretty (status res) +:+ ": " +:+ chars (data res)))
  end.

(** The token is returned as the string it becomes in the header. *)
Definition authenticate (baseUrl username password : string) : M Σ string :=
  _ ← log (Info "Authenticating...");
  let authString := base64 (username +:+ ":" +:+ password) in
  try_catch
    (response ← apiRequest baseUrl "/api/v1/App/user"
                  [("Espo-Authorization", authString)] "GET" (Some JNull);
     if truthy response && ToBoolean (get "token" response) then
       _ ← log (Info "Authentication successful!");
       mret (template (get "token" response))
     else mret authString)
    (fun error => throw (Error ("Authentication failed: " +:+ message error))).

Definition entityExists (baseUrl : string) (authHeaders : list (string * string))
    (id : value) : M Σ bool :=
  try_catch
    (result ← apiRequest baseUrl ("/api/v1/Workflow/" +:+ template id) authHeaders
                "GET" (Some JNull);
     mret (negb (is_null result)))
    (fun _ => mret false).

(** [x.k] without [?.]: a [TypeError] on [null]. *)
Definition prop (k : string) (x : json) : M Σ value :=
  match x with
  | JNull => throw (TypeError ("Cannot read properties of null (reading '" +:+ k +:+ "')"))
  | _ => mret (get k x)
  end.

(** The body of the [for] loop, from the counters before to the counters
    after. *)
Definition processFile (url : string) (inputDir : directory)
    (authHeaders : list (string * string)) (file : string) (t : tally) : M Σ tally :=
  try_catch
    (contents ← readFileSync inputDir file;
     workflowData ← parse contents;
     workflowId ← prop "id" workflowData;
     name ← prop "name" workflowData;
     let workflowName := if ToBoolean name then template name else "Unknown" in
     exists_ ← entityExists url authHeaders workflowId;
     if exists_ : bool then
       _ ← apiRequest url ("/api/v1/Workflow/" +:+ template workflowId) authHeaders
             "PUT" (Some workflowData);
       _ ← log (Updated workflowName);
       mret (Tally (created t) (S (updated t)) (errors t))
     else
       _ ← apiRequest url "/api/v1/Workflow" authHeaders "POST" (Some workflowData);
       _ ← log (Created workflowName);
       mret (Tally (S (created t)) (updated t) (errors t)))
    (fun error =>
       _ ← log (ErrorProcessing file error);
       mret (Tally (created t) (updated t) (S (errors t)))).

(** [let created = 0, updated = 0, errors = 0; for (const file of files) ...] *)
Fixpoint importFiles (url : string) (inputDir : directory)
    (authHeaders : list (string * string)) (files : list string) (t : tally) : M Σ tally :=
  match files with
  | [] => mret t
  | file :: files' =>
      t' ← processFile url inputDir authHeaders file t;
      importFiles url inputDir authHeaders files' t'
  end.

(** The files [main] iterates over. *)
Definition files_of (dir : directory) : list string :=
  filter (fun f => endsWith ".json" f && negb (startsWith "_" f)) (dir.*1).

(** Truthiness of a command-line or environment setting. *)
Definition present (v : option string) : bool :=
  match v with Some s => negb (String.eqb s EmptyString) | None => false end.

(** [main] from its second line on, with the [args] that [parseArgs]
    returned. [inputDir] is [None] when [fs.existsSync(inputDir)] is false,
    and otherwise what [fs.readdirSync(inputDir)] does: it returns the
    entries or throws. *)
Definition import (args : Settings.arguments) (inputDir : option (completion directory))
  : M Σ ending :=
  _ ← log (Info "EspoCRM Workflow Import");  (* and the other header lines *)
  match inputDir with
  | None =>
      _ ← log (Info "No workflows directory found. Skipping import.");
      mret Skipped
  | Some (Thrown e) => throw e
  | Some (Returned dir) =>
      let files := files_of dir in
      if bool_decide (length files = 0%nat) then
        _ ← log (Info "No workflow files found. Skipping import.");
        mret Skipped
      else
        _ ← log (Info ("Found " +:+ pretty (length files) +:+ " workflow files."));
        if negb (present (Settings.user args)) || negb (present (Settings.password args)) then
          _ ← log (Info "Error: Username and password are required.");
          mret (Exit 1)
        else
          auth ← try_catch
                   (token ← authenticate (Settings.url args)
                               (default EmptyString (Settings.user args))
                               (default EmptyString (Settings.password args));
                    mret (Some token))
                   (fun e => _ ← log (Info (message e)); mret None);
          match auth with
          | None => mret (Exit 1)
          | Some authToken =>
              let authHeaders := [("Espo-Authorization", authToken)] in
              t ← importFiles (Settings.url args) dir authHeaders files (Tally 0 0 0);
              _ ← log (Info "Import Summary:");
              mret (Summary t)
          end
  end.

(** [dotenv], [argv] and [env] are what [parseArgs] reads: the file
    [.env], [process.argv] and [process.env]. *)
Definition main (dotenv : option (completion string)) (argv : list string)
    (env : Settings.env) (inputDir : option (completion directory)) : M Σ ending :=
  args ← Settings.read dotenv argv env;
  import args inputDir.

End script.
End WorkflowsImport.

(** ** The sanitizers over an object store *)

(** The same three functions over an object store, where the copy
  ([structuredClone], object spread) allocates a new object and each
  [delete] updates the store in place. A reference is an index into the
  store. Nested values are immutable trees here: no script writes through
  a nested reference, so deep and shallow copies are indistinguishable. *)
Module Store.

Abbreviation store := (list obj).
Abbreviation ref := nat.

Definition structuredClone (h : store) (r : ref) : option (store * ref) :=
  o ← h !! r; Some (h ++ [o], length h).

(** [{ ...entity }] *)
Definition spread (h : store) (r : ref) : option (store * ref) :=
  o ← h !! r; Some (h ++ [o], length h).

(** [delete r.k] *)
Definition delete_property (k : string) (r : ref) (h : store) : store :=
  alter (delete k) r h.

Definition sanitize (h : store) (report : ref) : option (store * ref) :=
  '(h, r) ← structuredClone h report;
  let h := delete_property "id" r h in
  let h := delete_property "createdAt" r h in
  let h := delete_property "modifiedAt" r h in
  let h := delete_property "createdById" r h in
  let h := delete_property "modifiedById" r h in
  Some (h, r).

Definition sanitizeForImport (h : store) (report : ref) : option (store * ref) :=
  '(h, r) ← structuredClone h report;
  let h := delete_property "id" r h in
  let h := delete_property "createdAt" r h in
  let h := delete_property "modifiedAt" r h in
  let h := delete_property "createdById" r h in
  let h := delete_property "modifiedById" r h in
  let h := delete_property "entityId" r h in
  let h := delete_property "entityType" r h in
  let h := delete_property "isInternal" r h in
  Some (h, r).

Definition cleanForExport (h : store) (entity : ref) : option (store * ref) :=
  '(h, cleaned) ← spread h entity;
  Some (fold_left (fun h field => delete_property field cleaned h)
          WorkflowsExport.EXCLUDE_FIELDS h, cleaned).

End Store.


(** ** The remote application *)

(** Modelled from the spec: the REST API of the remote application (the
    EspoCRM controllers behind [/api/v1] are not part of the scripts).
    Sections 4.2, 4.3 and 6 of the specification fix what the scripts rely on:
    a lookup of reports filtered by exact [name] with page size 1 that
    answers with a result list; a lookup of a workflow by identifier that
    answers 404 when there is none; a create that assigns an identifier of
    the remote's own, except that a workflow keeps the identifier supplied
    with it; an update, addressed by identifier, that overwrites the stored
    fields with those of the body and never changes the identifier. *)
Module Espo.

Record state := State {
  reports : list obj;
  workflows : list obj
}.

(** The identifier of a stored record as it appears in a path, and its name
    as it appears, with its escapes, in the [filters[name]] query. *)
Definition id_key (r : obj) : string := template (r !! "id").
Definition name_key (r : obj) : string := percent_encode (template (r !! "name")).

(** First record of a table with the given key. *)
Fixpoint find (key : obj -> string) (n : string) (rs : list obj) : option obj :=
  match rs with
  | [] => None
  | r :: rs' => if decide (key r = n) then Some r else find key n rs'
  end.

(** The stored record [r] after an update with body [p]. *)
Definition keep_id (r m : obj) : obj :=
  match r !! "id" with
  | Some i => <["id" := i]> m
  | None => delete "id" m
  end.

Definition update (r p : obj) : obj := keep_id r (p ∪ r).

(** Update of the first record with the given key. *)
Fixpoint patch (key : obj -> string) (n : string) (p : obj) (rs : list obj) : list obj :=
  match rs with
  | [] => []
  | r :: rs' =>
      if decide (key r = n) then update r p :: rs' else r :: patch key n p rs'
  end.

(** An identifier longer than every identifier of the table. *)
Definition fresh_id (rs : list obj) : string :=
  string_of_list_ascii
    (replicate (S (max_list ((fun r => String.length (id_key r)) <$> rs))) "x"%char).

Definition new_report (rs : list obj) (p : obj) : obj :=
  <["id" := JStr (fresh_id rs)]> p.

(** [s] without the prefix [pre], when it has it. *)
Fixpoint strip_prefix (pre s : string) : option string :=
  match pre, s with
  | EmptyString, _ => Some s
  | String a pre', String b s' =>
      if decide (a = b) then strip_prefix pre' s' else None
  | String _ _, EmptyString => None
  end.

Section remote.
(** [JSON.stringify], for the text of the responses. *)
Variable JSON_stringify : json -> string.

Definition answer (code : Z) (j : json) : reply :=
  Reply {| status := code; data := Text (JSON_stringify j) (Some j) |}.

Definition refuse (code : Z) (reason : string) : reply :=
  Reply {| status := code; data := Text reason None |}.

Definition get_request (σ : state) (path : string) : state * reply :=
  match strip_prefix "/api/v1/Report?maxSize=1&filters[name]=" path with
  | Some q =>
      (σ, answer 200
            (JObj {[ "list" := JArr (JObj <$> option_list (find name_key q (reports σ))) ]}))
  | None =>
      match strip_prefix "/api/v1/Workflow/" path with
      | Some i =>
          match find id_key i (workflows σ) with
          | Some r => (σ, answer 200 (JObj r))
          | None => (σ, refuse 404 "Not Found")
          end
      | None =>
          if decide (path = "/api/v1/App/user")
          then (σ, answer 200 (JObj {[ "token" := JStr "session" ]}))
          else (σ, refuse 404 "Not Found")
      end
  end.

Definition update_request (σ : state) (report : bool) (i : string) (body : option json)
  : state * reply :=
  match body with
  | Some (JObj p) =>
      let table := if report then reports σ else workflows σ in
      match find id_key i table with
      | Some r =>
          (if report
           then State (patch id_key i p (reports σ)) (workflows σ)
           else State (reports σ) (patch id_key i p (workflows σ)),
           answer 200 (JObj (update r p)))
      | None => (σ, refuse 404 "Not Found")
      end
  | _ => (σ, refuse 400 "Bad Request")
  end.

Definition create_report (σ : state) (body : option json) : state * reply :=
  match body with
  | Some (JObj p) =>
      let r := new_report (reports σ) p in
      (State (reports σ ++ [r]) (workflows σ), answer 200 (JObj r))
  | _ => (σ, refuse 400 "Bad Request")
  end.

Definition create_workflow (σ : state) (body : option json) : state * reply :=
  match body with
  | Some (JObj p) =>
      match p !! "id" with
      | Some (JStr (String c s)) =>
          match find id_key (String c s) (workflows σ) with
          | Some _ => (σ, refuse 409 "Conflict")
          | None => (State (reports σ) (workflows σ ++ [p]), answer 200 (JObj p))
          end
      | _ =>
          let r := <["id" := JStr (fresh_id (workflows σ))]> p in
          (State (reports σ) (workflows σ ++ [r]), answer 200 (JObj r))
      end
  | _ => (σ, refuse 400 "Bad Request")
  end.

(** Modelled from the spec: the routes of the remote API that the importers
    use, by method and path. *)
Definition serve (σ : state) (req : request) : state * reply :=
  if decide (method req = "GET") then get_request σ (path req)
  else if decide (method req = "PATCH") then
    match strip_prefix "/api/v1/Report/" (path req) with
    | Some i => update_request σ true i (body req)
    | None => (σ, refuse 404 "Not Found")
    end
  else if decide (method req = "PUT") then
    match strip_prefix "/api/v1/Workflow/" (path req) with
    | Some i => update_request σ false i (body req)
    | None => (σ, refuse 404 "Not Found")
    end
  else if decide (method req = "POST") then
    if decide (path req = "/api/v1/Report") then create_report σ (body req)
    else if decide (path req = "/api/v1/Workflow") then create_workflow σ (body req)
    else (σ, refuse 404 "Not Found")
  else (σ, refuse 405 "Method Not Allowed").

End remote.

(** A table of the remote is well formed when its records have distinct
    identifiers, none of them empty. *)
Definition well_formed (rs : list obj) : Prop :=
  NoDup (id_key <$> rs) /\ Forall (fun r => ToBoolean (r !! "id") = true) rs.

End Espo.

(** A world with nothing sent, read or logged yet. *)
Definition start {Σ} (σ : Σ) : world Σ := World σ [] [] [].

(** Number of [Created] lines on the console. *)
Definition is_created (l : log_line) : bool :=
  match l with Created _ => true | _ => false end.

Definition created_lines (ls : list log_line) : nat :=
  length (filter (fun l => is_created l) ls).

(** A remote that answers every request with the same reply, for examples. *)
Definition always (r : reply) (σ : unit) (req : request) : unit * reply := (σ, r).

(** ** Tables of the remote, seen through a key *)

(** The importers address a table of the remote through a key: reports
    through their name, workflows through their identifier. An entity is
    the key it is looked up under together with the body that is written. *)
Module Keyed.
Section keyed.
Variable key : obj -> string.
(** The record created for a body in a table. *)
Variable mk : list obj -> obj -> obj.

(** Create-or-update of one entity, as the remote ends up applying it. *)
Definition ups (rs : list obj) (e : string * obj) : list obj :=
  match Espo.find key e.1 rs with
  | Some _ => Espo.patch key e.1 e.2 rs
  | None => rs ++ [mk rs e.2]
  end.

Definition patches (rs : list obj) (e : string * obj) : list obj :=
  Espo.patch key e.1 e.2 rs.

(** The bodies a batch holds for a key, in order. *)
Definition sel (B : list (string * obj)) (n : string) : list obj :=
  snd <$> filter (fun e => e.1 = n) B.

(** The table after every first record of a key not in [seen] has taken
    the bodies the batch holds for it. *)
Fixpoint nf (B : list (string * obj)) (seen : list string) (rs : list obj) : list obj :=
  match rs with
  | [] => []
  | r :: rs' =>
      (if decide (key r ∈ seen) then r else foldl Espo.update r (sel B (key r)))
      :: nf B (key r :: seen) rs'
  end.

(** An entity the table can take: updating a record of its key leaves the
    key alone, and the record created for it has its key and already holds
    its body. *)
Definition good (e : string * obj) : Prop :=
  (forall r, key r = e.1 -> key (Espo.update r e.2) = e.1)
  /\ (forall rs, key (mk rs e.2) = e.1)
  /\ (forall rs, Espo.update (mk rs e.2) e.2 = mk rs e.2).

End keyed.

(** The value a sequence of bodies leaves in field [k], starting from [a]. *)
Definition over (ps : list obj) (k : string) (a : value) : value :=
  foldl (fun a p => match p !! k with Some v => Some v | None => a end) a ps.

End Keyed.

(** ** Batches *)

(** The report a file of the directory holds, when it holds a document
    that passes the validation of [upsert] and whose name can be escaped
    for the lookup. *)
Definition report_of (dir : directory) (file : string) : option obj :=
  match list_find (fun e => e.1 = file) dir with
  | Some (_, (_, Some (JObj r))) =>
      if ToBoolean (r !! "name") && negb (lone_surrogate (template (r !! "name")))
      then Some r else None
  | _ => None
  end.

(** A valid batch of reports: every [*.json] file holds such a report. *)
Definition valid_reports (dir : directory) : Prop :=
  Forall (fun f => is_Some (report_of dir f)) (ReportsImport.files_of dir).

(** The key a report is looked up under, and the body written for it. *)
Definition report_entity (r : obj) : string * obj :=
  (Espo.name_key r, ReportsImport.sanitizeForImport r).

(** The workflow a file holds, when its document carries an identifier
    (a non-empty string). *)
Definition workflow_of (dir : directory) (file : string) : option obj :=
  match list_find (fun e => e.1 = file) dir with
  | Some (_, (_, Some (JObj m))) =>
      match m !! "id" with
      | Some (JStr (String _ _)) => Some m
      | _ => None
      end
  | _ => None
  end.

(** A batch of workflows that all carry an identifier. *)
Definition identified_workflows (dir : directory) : Prop :=
  Forall (fun f => is_Some (workflow_of dir f)) (WorkflowsImport.files_of dir).

Definition workflow_entity (m : obj) : string * obj := (Espo.id_key m, m).

(** * Vocabulary of the properties

    The definitions below are not part of the scripts: they name what the
    statements of the second half talk about (field sets, the meaning of a
    reply, the steps of one upsert, the sample inputs of the examples). *)

(** The field sets as the specification words them, per direction. *)
Inductive direction := ExportReport | ImportReport | ExportWorkflow.

Definition spec_excluded (d : direction) : list string :=
  match d with
  | ExportReport | ExportWorkflow =>
      ["id"; "createdAt"; "modifiedAt"; "createdById"; "modifiedById"]
  | ImportReport =>
      ["createdAt"; "modifiedAt"; "createdById"; "modifiedById";
       "entityId"; "entityType"; "isInternal"]
  end.

(** The field sets the three sanitizers actually remove. *)
Definition code_excluded (d : direction) : list string :=
  match d with
  | ExportReport =>
      ["id"; "createdAt"; "modifiedAt"; "createdById"; "modifiedById"]
  | ImportReport =>
      ["id"; "createdAt"; "modifiedAt"; "createdById"; "modifiedById";
       "entityId"; "entityType"; "isInternal"]
  | ExportWorkflow => WorkflowsExport.EXCLUDE_FIELDS
  end.

Definition sanitizer (d : direction) : obj -> obj :=
  match d with
  | ExportReport => ReportsExport.sanitize
  | ImportReport => ReportsImport.sanitizeForImport
  | ExportWorkflow => WorkflowsExport.cleanForExport
  end.

Definition store_sanitizer (d : direction)
  : Store.store -> Store.ref -> option (Store.store * Store.ref) :=
  match d with
  | ExportReport => Store.sanitize
  | ImportReport => Store.sanitizeForImport
  | ExportWorkflow => Store.cleanForExport
  end.

(** [f] removes exactly the fields of [excluded] and keeps every other
    field, nested values included, as it was. *)
Definition removes_exactly (f : obj -> obj) (excluded : list string) : Prop :=
  forall (S : obj) (k : string),
    (k ∈ excluded -> f S !! k = None) /\ (k ∉ excluded -> f S !! k = S !! k).

(** The world once [req] has been sent and the remote has moved to [σ]. *)
Definition after_request {Σ} (w : world Σ) (req : request) (σ : Σ) : world Σ :=
  World σ (sent w ++ [req]) (reads w) (console w).

(** [apiRequest] of import-workflows.js, case by case. *)
Definition workflow_import_result (res : response) : completion json :=
  if (200 <=? status res) && (status res <? 300) then
    Returned (default (JStr (chars (data res))) (JSON_parse (data res)))
  else if status res =? 404 then Returned JNull
  else Thrown (Error ("API Error " +:+ pretty (status res) +:+ ": " +:+ chars (data res))).

(** [apiRequest] of export-workflows.js. *)
Definition workflow_export_result (res : response) : completion json :=
  if (200 <=? status res) && (status res <? 300) then
    Returned (default (JStr (chars (data res))) (JSON_parse (data res)))
  else Thrown (Error ("API Error " +:+ pretty (status res) +:+ ": " +:+ chars (data res))).

(** [api] of import-reports.js. *)
Definition report_api_result (method path : string) (res : response) : completion json :=
  if ReportsImport.ok res then
    match JSON_parse (data res) with
    | Some j => Returned j
    | None => Thrown (SyntaxError "Unexpected token in JSON")
    end
  else Thrown (Error (method +:+ " " +:+ path +:+ " → " +:+ pretty (status res)
                      +:+ LF +:+ chars (data res))).

(** The three outcomes C8 names, for a primitive that turns a response into
    a completion: a 2xx response gives its parsed body, a 404 gives [null],
    any other status an error that carries the status and the text. *)
Definition maps_2xx (f : response -> completion json) : Prop :=
  forall res j, 200 <= status res < 300 -> JSON_parse (data res) = Some j ->
    f res = Returned j.

Definition maps_404_to_null (f : response -> completion json) : Prop :=
  forall res, status res = 404 -> f res = Returned JNull.

(** [s] occurs in [t]. *)
Definition occurs_in (s t : string) : Prop :=
  exists pre post, t = pre +:+ s +:+ post.

Definition surfaces_errors (except404 : bool) (f : response -> completion json) : Prop :=
  forall res, ~ 200 <= status res < 300 ->
    (except404 = true -> status res <> 404) ->
    exists m, f res = Thrown (Error m)
              /\ occurs_in (pretty (status res)) m /\ occurs_in (chars (data res)) m.

Definition empty_object_ok : response := Response 200 (Text "{}" (Some (JObj ∅))).

(** What a reply means to [api] and to the two [apiRequest]s. *)
Definition report_reply (method path : string) (r : reply) : completion json :=
  match r with
  | Reply res => report_api_result method path res
  | NetworkFailure m => Thrown (NetError m)
  end.

Definition workflow_reply (r : reply) : completion json :=
  match r with
  | Reply res => workflow_import_result res
  | NetworkFailure m => Thrown (NetError m)
  end.

(** The value of an upper-case hexadecimal digit. *)
Definition hex_value (c : ascii) : N :=
  let n := N_of_ascii c in
  if (65 <=? n)%N then (n - 55)%N else (n - 48)%N.

(** [res?.list?.[0] || null] *)
Definition first_or_null (res : json) : json :=
  let first := index0 (get "list" res) in
  if ToBoolean first then default JNull first else JNull.

(** A name that [encodeURIComponent] takes: it holds no lone surrogate. *)
Definition encodable (name : value) : bool := negb (lone_surrogate (template name)).

(** The path of the lookup by name, and the two writes of [upsert]. *)
Definition lookup_path (name : value) : string :=
  "/api/v1/Report?maxSize=1&filters[name]=" +:+ percent_encode (template name).

Definition report_write (key : string) (existing : json) (payload : obj) : request :=
  if ToBoolean (get "id" existing)
  then ReportsImport.init key "PATCH"
         ("/api/v1/Report/" +:+ template (get "id" existing)) (Some (JObj payload))
  else ReportsImport.init key "POST" "/api/v1/Report" (Some (JObj payload)).

Definition report_line (existing : json) (payload : obj) : log_line :=
  if ToBoolean (get "id" existing)
  then Updated (template (payload !! "name"))
  else Created (template (payload !! "name")).

Definition logged {Σ} (w : world Σ) (l : log_line) : world Σ :=
  World (remote w) (sent w) (reads w) (console w ++ [l]).

(** The whole of [upsert] on an object, as a function of what the remote
    answers to the lookup and to the write. *)
Definition upsert_steps {Σ} (serve : Σ -> request -> Σ * reply) (key : string)
    (r : obj) (w : world Σ) : world Σ * completion unit :=
  let payload := ReportsImport.sanitizeForImport r in
  let lookup := ReportsImport.init key "GET" (lookup_path (r !! "name")) None in
  let w1 := after_request w lookup (serve (remote w) lookup).1 in
  if negb (encodable (r !! "name")) then (w, Thrown (URIError "URI malformed"))
  else
    match report_reply "GET" (lookup_path (r !! "name")) (serve (remote w) lookup).2 with
    | Thrown e => (w1, Thrown e)
    | Returned res =>
        let existing := first_or_null res in
        let write := report_write key existing payload in
        let w2 := after_request w1 write (serve (remote w1) write).1 in
        match report_reply (method write) (path write) (serve (remote w1) write).2 with
        | Thrown e => (w2, Thrown e)
        | Returned _ => (logged w2 (report_line existing payload), Returned tt)
        end
    end.

(** [result !== null], and [false] from the [catch]. *)
Definition exists_of (c : completion json) : bool :=
  match c with
  | Returned j => negb (is_null j)
  | Thrown _ => false
  end.

Definition exists_path (id : value) : string := "/api/v1/Workflow/" +:+ template id.

(** What reaches the remote of a URL: the path and the query. *)
Definition route (url : URL) : string := pathname url +:+ search url.

(** The request that [apiRequest] makes of an endpoint, when [new URL]
    makes a URL of it and the base URL. *)
Definition request_for (new_URL : string -> string -> option URL)
    (baseUrl endpoint : string) (hs : list (string * string)) (method : string)
    (body : value) : option request :=
  (fun url => options url hs method body) <$> new_URL endpoint baseUrl.

(** One call of [apiRequest]: the request is sent and the reply read for
    what it means, or, for want of a URL, nothing is sent. *)
Definition called {Σ} (serve : Σ -> request -> Σ * reply)
    (meaning : reply -> completion json) (q : option request) (w : world Σ)
  : world Σ * completion json :=
  match q with
  | Some req =>
      (after_request w req (serve (remote w) req).1, meaning (serve (remote w) req).2)
  | None => (w, Thrown (TypeError "Invalid URL"))
  end.

(** [new URL] makes a URL of the endpoint that leads where the endpoint
    says: its path and query are the endpoint as it was written. *)
Definition verbatim (new_URL : string -> string -> option URL)
    (baseUrl endpoint : string) : Prop :=
  route <$> new_URL endpoint baseUrl = Some endpoint.

(** A batch of workflows whose requests reach the remote on the paths
    they are made for: that of the create, and that of each identifier. *)
Definition addressed (new_URL : string -> string -> option URL) (baseUrl : string)
    (dir : directory) : Prop :=
  verbatim new_URL baseUrl "/api/v1/Workflow"
  /\ Forall (fun f => match workflow_of dir f with
                      | Some m => verbatim new_URL baseUrl (exists_path (m !! "id"))
                      | None => True
                      end) (WorkflowsImport.files_of dir).

Definition workflow_write (new_URL : string -> string -> option URL) (baseUrl : string)
    (hs : list (string * string)) (exists_ : bool) (workflowData : json) : option request :=
  if exists_
  then request_for new_URL baseUrl (exists_path (get "id" workflowData)) hs "PUT"
         (Some workflowData)
  else request_for new_URL baseUrl "/api/v1/Workflow" hs "POST" (Some workflowData).

(** [workflowData.name || 'Unknown'], as logged. *)
Definition workflow_name (workflowData : json) : string :=
  if ToBoolean (get "name" workflowData)
  then template (get "name" workflowData) else "Unknown".

Definition workflow_line (exists_ : bool) (workflowData : json) : log_line :=
  if exists_ then Updated (workflow_name workflowData)
  else Created (workflow_name workflowData).

Definition count (exists_ : bool) (t : WorkflowsImport.tally) : WorkflowsImport.tally :=
  if exists_
  then WorkflowsImport.Tally (WorkflowsImport.created t)
         (S (WorkflowsImport.updated t)) (WorkflowsImport.errors t)
  else WorkflowsImport.Tally (S (WorkflowsImport.created t))
         (WorkflowsImport.updated t) (WorkflowsImport.errors t).

Definition count_error (t : WorkflowsImport.tally) : WorkflowsImport.tally :=
  WorkflowsImport.Tally (WorkflowsImport.created t) (WorkflowsImport.updated t)
    (S (WorkflowsImport.errors t)).

Definition file_read {Σ} (w : world Σ) (file : string) : world Σ :=
  World (remote w) (sent w) (reads w ++ [file]) (console w).

(** The document of a file, when it has one that is not [null]. *)
Definition document (dir : directory) (file : string) : exn + json :=
  match list_find (fun e => e.1 = file) dir with
  | None => inl (Error ("ENOENT: no such file or directory, open " +:+ file))
  | Some (_, (_, contents)) =>
      match contents with
      | None => inl (SyntaxError "Unexpected token in JSON")
      | Some JNull => inl (TypeError "Cannot read properties of null (reading 'id')")
      | Some j => inr j
      end
  end.

(** The loop body as a function of the file's document and of what the
    remote answers to the existence check and to the write. *)
Definition processFile_steps {Σ} (serve : Σ -> request -> Σ * reply)
    (new_URL : string -> string -> option URL) (url : string)
    (dir : directory) (hs : list (string * string))
    (file : string) (t : WorkflowsImport.tally) (w : world Σ)
  : world Σ * completion WorkflowsImport.tally :=
  let w0 := file_read w file in
  match document dir file with
  | inl e => (logged w0 (ErrorProcessing file e), Returned (count_error t))
  | inr workflowData =>
      let check :=
        called serve workflow_reply
          (request_for new_URL url (exists_path (get "id" workflowData)) hs "GET"
             (Some JNull)) w0 in
      let exists_ := exists_of check.2 in
      let write :=
        called serve workflow_reply (workflow_write new_URL url hs exists_ workflowData)
          check.1 in
      match write.2 with
      | Returned _ =>
          (logged write.1 (workflow_line exists_ workflowData), Returned (count exists_ t))
      | Thrown e => (logged write.1 (ErrorProcessing file e), Returned (count_error t))
      end
  end.

(** A document without a [name], and a remote that knows nothing. *)
Definition nameless_workflow : json := JObj {[ "id" := JStr "w1" ]}.
Definition not_found : reply := Reply (Response 404 (Text "Not Found" None)).

Definition server_error : reply :=
  Reply (Response 500 (Text "Internal Server Error" None)).

(** The identifier resolved from the result list of a lookup. *)
Definition resolved_id (l : list json) : value :=
  match l with
  | e :: _ => if truthy e && ToBoolean (get "id" e) then get "id" e else None
  | [] => None
  end.

(** Where a request goes. *)
Definition target (q : request) : string * string := (method q, path q).

(** A remote holding "Sales Q1" under the identifier [r1]. *)
Definition sales_q1_found : reply :=
  Reply (Response 200
    (Text "{list:[{id:r1,name:Sales Q1}]}"
       (Some (JObj {[ "list" :=
          JArr [JObj {[ "id" := JStr "r1"; "name" := JStr "Sales Q1" ]}] ]})))).

Definition environment_bound : list string :=
  ["createdAt"; "modifiedAt"; "createdById"; "modifiedById"].

(** The body of a request carries none of the environment-bound fields. *)
Definition portable (q : request) : Prop :=
  match body q with
  | Some (JObj m) => Forall (fun f => m !! f = None) environment_bound
  | Some _ => False
  | None => True
  end.

(** A workflow as the remote hands it out, and a file that kept the
    time stamp. *)
Definition remote_workflow : obj :=
  {[ "id" := JStr "w1"; "createdAt" := JStr "2024-01-01" ]}.

Definition stamped_workflow : json :=
  JObj {[ "id" := JStr "w1"; "name" := JStr "Notify"; "createdAt" := JStr "2024-01-01" ]}.

(** A remote that answers everything with an empty object. *)
Definition ok_empty : reply := Reply empty_object_ok.

Definition three_reports : directory :=
  [("a.json", Some (JObj {[ "name" := JStr "A" ]}));
   ("b.json", Some (JObj {[ "name" := JStr EmptyString ]}));
   ("c.json", Some (JObj {[ "name" := JStr "C" ]}))].

Definition dev_environment : ReportsImport.environment :=
  ReportsImport.Environment None None (Some "http://localhost:8080") (Some "key").

(** The counter a console line stands for. *)
Definition tally_line (t : WorkflowsImport.tally) (l : log_line) : WorkflowsImport.tally :=
  match l with
  | Created _ => count false t
  | Updated _ => count true t
  | ErrorProcessing _ _ => count_error t
  | Info _ => t
  end.

Definition total (t : WorkflowsImport.tally) : nat :=
  (WorkflowsImport.created t + WorkflowsImport.updated t + WorkflowsImport.errors t)%nat.

(** The line a file can end with: a file that cannot be read as a
    document is reported as an error, any other as created, updated, or as
    the error of its write. *)
Definition line_for (dir : directory) (file : string) (l : log_line) : Prop :=
  match document dir file with
  | inl e => l = ErrorProcessing file e
  | inr d =>
      l = Created (workflow_name d) \/ l = Updated (workflow_name d)
      \/ exists e, l = ErrorProcessing file e
  end.

(** A computation that cannot throw. *)
Definition returns {Σ A} (m : M Σ A) : Prop :=
  forall w, exists w' a, m w = (w', Returned a).

(** The batch of the specification: three workflows, the second of which
    is not a document. *)
Definition three_workflows : directory :=
  [("a.json", Some (JObj {[ "id" := JStr "a" ]}));
   ("b.json", None);
   ("c.json", Some (JObj {[ "id" := JStr "c" ]}))].

Definition exported_reports : directory :=
  [("_manifest.json", Some (JObj {[ "count" := JNum 1 ]}));
   ("Sales_Q1.json", Some (JObj {[ "name" := JStr "Sales Q1" ]}))].

(** The remote after [n] imports of the same file. *)
Definition after_imports (JSON_stringify : json -> string)
    (new_URL : string -> string -> option URL) (url : string) (dir : directory)
    (hs : list (string * string)) (file : string) (n : nat) (σ : Espo.state) : Espo.state :=
  Nat.iter n
    (fun σ => remote (WorkflowsImport.processFile (Espo.serve JSON_stringify) new_URL url
                        dir hs file (WorkflowsImport.Tally 0 0 0) (start σ)).1) σ.

Definition workflow_without_id : obj := {[ "name" := JStr "Notify owner" ]}.

Definition one_unidentified_workflow : directory :=
  [("w.json", Some (JObj workflow_without_id))].

Definition two_reports : directory :=
  [("Sales_Q1.json", Some (JObj {[ "name" := JStr "Sales Q1"; "id" := JStr "local-1" ]}));
   ("Leads.json", Some (JObj {[ "name" := JStr "Leads"; "type" := JStr "Grid" ]}))].

(** A remote that already holds the report "Sales Q1" as [r1]. *)
Definition remote_with_sales_q1 : Espo.state :=
  Espo.State [{[ "id" := JStr "r1"; "name" := JStr "Sales Q1"; "type" := JStr "Grid" ]}] [].

Definition new_report_file : directory :=
  [("New_Report.json", Some (JObj {[ "name" := JStr "New Report" ]}))].


(** ** Words for the properties of the names, settings and exporters *)

(** The characters of a string. *)
Abbreviation chars_of := list_ascii_of_string.

Definition alphanumeric_or_dash (c : ascii) : bool :=
  upper c || lower c || digit c || bool_decide (c = "-"%char).

(** A file name as [fileNameFor] makes them: letters, digits, [_] and [-]
    only, no underscore at either end and no two in a row. *)
Definition tidy (s : string) : Prop :=
  Forall (fun c => ReportsExport.kept c = true) (chars_of s)
  /\ startsWith "_" s = false
  /\ endsWith "_" s = false
  /\ ~ occurs_in "__" s.

(** The same three conditions on the underscores, computed. *)
Definition leading (s : string) : bool :=
  match s with String c _ => ReportsExport.underscore c | EmptyString => false end.

Fixpoint trailing (s : string) : bool :=
  match s with
  | EmptyString => false
  | String c EmptyString => ReportsExport.underscore c
  | String _ s' => trailing s'
  end.

Fixpoint doubled (s : string) : bool :=
  match s with
  | EmptyString => false
  | String a s' => (ReportsExport.underscore a && leading s') || doubled s'
  end.

Definition underscores (s : string) : bool :=
  forallb ReportsExport.underscore (chars_of s).

(** What is left of [s] after one white-space character at its start, if
    it starts with one. *)
Definition white_prefix (s : string) : option string :=
  match s with
  | String a s1 =>
      if white1 a then Some s1
      else
        match s1 with
        | String b s2 =>
            if white2 a b then Some s2
            else
              match s2 with
              | String c s3 => if white3 a b c then Some s3 else None
              | EmptyString => None
              end
        | EmptyString => None
        end
  | EmptyString => None
  end.

(** The carriage return and the line feed. *)
Definition CR : ascii := ascii_of_N 13.
Definition NL : ascii := ascii_of_N 10.

(** Console lines that report a created or an updated entity. *)
Definition is_outcome (l : log_line) : bool :=
  match l with Created _ | Updated _ => true | _ => false end.

Definition outcomes (ls : list log_line) : nat :=
  length (filter (fun l => is_outcome l) ls).

(** The request of [authenticate] for the URL of its endpoint, and what it
    makes of a body. *)
Definition login (base64 : string -> string) (url : URL) (username password : string)
  : request :=
  options url [("Espo-Authorization", base64 (username +:+ ":" +:+ password))]
    "GET" (Some JNull).

Definition has_token (response : json) : bool :=
  truthy response && ToBoolean (get "token" response).

(** The workflow importer has something to import and somebody to import
    it as. *)
Definition ready (args : Settings.arguments) (inputDir : option (completion directory))
  : bool :=
  match inputDir with
  | Some (Returned dir) =>
      negb (bool_decide (WorkflowsImport.files_of dir = []))
      && WorkflowsImport.present (Settings.user args)
      && WorkflowsImport.present (Settings.password args)
  | _ => false
  end.

(** The settings that [main] works with: those of [parseArgs] on the text
    of [.env], when the file is there and can be read or is not there. *)
Definition settings (dotenv : option (completion string)) (argv : list string)
    (env : Settings.env) : option Settings.arguments :=
  match dotenv with
  | None => Some (Settings.parseArgs None argv env)
  | Some (Returned content) => Some (Settings.parseArgs (Some content) argv env)
  | Some (Thrown _) => None
  end.

(** The files read for the settings. *)
Definition settings_reads (dotenv : option (completion string)) : list string :=
  match dotenv with Some _ => [".env"] | None => [] end.

(** The world once the settings were read. *)
Definition settings_read {Σ} (dotenv : option (completion string)) (w : world Σ)
  : world Σ :=
  World (remote w) (sent w) (reads w ++ settings_reads dotenv) (console w).

(** What a reply means to [apiRequest] of export-workflows.js. *)
Definition workflow_export_reply (r : reply) : completion json :=
  match r with
  | Reply res => workflow_export_result res
  | NetworkFailure m => Thrown (NetError m)
  end.

(** The body of the loop of the report importer. *)
Definition report_step {Σ} (serve : Σ -> request -> Σ * reply) (key : string)
    (dir : directory) (file : string) : M Σ unit :=
  t ← readFileSync dir file;
  report ← parse t;
  ReportsImport.upsert serve key report.

(** *** The exporters *)

(** The files written so far. *)
Definition files {Σ} (w : world (Σ * written)) : written := (remote w).2.

(** A request that only reads. *)
Definition read_only (q : request) : Prop := method q = "GET" /\ body q = None.

(** The request [api] of export-reports.js sends, and what a reply means
    to it. *)
Definition report_query (DEV_KEY method urlPath : string) : request :=
  {| method := method; path := urlPath;
     headers := [("X-Api-Key", DEV_KEY)]; body := None |}.

Definition report_export_reply (method urlPath : string) (r : reply) : completion json :=
  match r with
  | Reply res =>
      if ReportsExport.ok res then
        match JSON_parse (data res) with
        | Some j => Returned j
        | None => Thrown (SyntaxError "Unexpected token in JSON")
        end
      else Thrown (Error (method +:+ " " +:+ urlPath +:+ " -> " +:+ pretty (status res)
                          +:+ " " +:+ chars (data res)))
  | NetworkFailure m => Thrown (NetError m)
  end.

(** The request for the full record of an entry of the listing. *)
Definition report_detail (DEV_KEY : string) (r : json) : request :=
  report_query DEV_KEY "GET" ("/api/v1/Report/" +:+ template (get "id" r)).

(** [REPORT_NAMES.includes(r.name)] on an entry that is not [null]. *)
Definition chosen (names : list string) (r : json) : bool :=
  match get "name" r with
  | Some (JStr n) => bool_decide (n ∈ names)
  | _ => false
  end.

(** A file as export-reports.js writes them: an object with a string
    [name], under the file name made of that name, without the fields that
    [sanitize] removes. *)
Definition exported_report (file : string * json) : Prop :=
  exists m n,
    file.2 = JObj m /\ m !! "name" = Some (JStr n)
    /\ file.1 = ReportsExport.safe_name n +:+ ".json"
    /\ Forall (fun k => m !! k = None) (code_excluded ExportReport).

(** The file of a workflow of the listing, and the request for its full
    record. *)
Definition workflow_file (workflow : json) : string :=
  template (get "id" workflow) +:+ ".json".

Definition workflow_detail (new_URL : string -> string -> option URL) (url : string)
    (hs : list (string * string)) (workflow : json) : option request :=
  request_for new_URL url ("/api/v1/Workflow/" +:+ template (get "id" workflow)) hs "GET"
    (Some JNull).

(** A file as export-workflows.js writes them for a workflow: an object
    without the fields of [EXCLUDE_FIELDS]. *)
Definition exported_workflow (file : string * json) : Prop :=
  exists workflow cleaned,
    file.1 = workflow_file workflow
    /\ file.2 = JObj cleaned
    /\ Forall (fun k => cleaned !! k = None) WorkflowsExport.EXCLUDE_FIELDS.

(** The request for the listing of the reports, and the entries of the
    listing that [main] goes through. *)
Definition report_listing (DEV_KEY : string) : request :=
  report_query DEV_KEY "GET" "/api/v1/Report?maxSize=200".

Definition selection (names : list string) (l : list json) : list json :=
  match names with
  | [] => l
  | _ :: _ => filter (fun r => chosen names r) l
  end.

(** The variables that [parseArgs] reads. *)
Definition settings_names : list string :=
  ["ESPO_PROD_URL"; "ESPO_PROD_USER"; "ESPO_PROD_PASSWORD";
   "ESPO_DEV_URL"; "ESPO_DEV_USER"; "ESPO_DEV_PASSWORD";
   "ESPO_URL"; "ESPO_USER"; "ESPO_PASSWORD"].


(** *** Examples *)

(** An instance of [new_URL] for the examples: what [new URL] answers for
    the base [http://localhost:8080] and an endpoint that starts with one
    slash and is made of letters, digits, [/], [-] and [_], then of a query
    of letters, digits, [=], [&], [-] and [_] or of none, and then of a
    fragment or of none. The fragment is not part of what is sent. In
    this instance nothing else makes a URL: not the base [localhost:8080],
    which lacks the scheme, and no other base or endpoint, which the
    examples do not use. *)
Definition plain_path (c : ascii) : bool :=
  upper c || lower c || digit c || bool_decide (c ∈ chars_of "/-_").

Definition plain_query (c : ascii) : bool :=
  upper c || lower c || digit c || bool_decide (c ∈ chars_of "=&-_").

Definition localhost (endpoint baseUrl : string) : option URL :=
  let '(p, rest) := span plain_path endpoint in
  let '(q, rest) :=
    match rest with
    | String "?" r => span plain_query r
    | _ => (EmptyString, rest)
    end in
  let one_slash :=
    match p with
    | String "/" (String c _) => negb (bool_decide (c = "/"%char))
    | String "/" EmptyString => true
    | _ => false
    end in
  let fragment :=
    match rest with
    | EmptyString | String "#" _ => true
    | _ => false
    end in
  if String.eqb baseUrl "http://localhost:8080" && one_slash && fragment then
    Some {| protocol := "http:"; hostname := "localhost"; port := "8080";
            pathname := p;
            search := match q with EmptyString => EmptyString | _ => "?" +:+ q end |}
  else None.

Definition CRLF : string := String CR (String NL EmptyString).

(** A file [.env] that gives [ESPO_USER] twice, one that first gives it no
    value, and one with the line endings of Windows. *)
Definition example_dotenv : string :=
  "# settings" +:+ LF +:+ "ESPO_USER = admin " +:+ LF +:+ "ESPO_USER=other".

Definition blank_first_dotenv : string :=
  "# settings" +:+ LF +:+ "ESPO_USER=" +:+ LF +:+ "ESPO_USER = admin " +:+ LF
  +:+ "ESPO_USER=other".

Definition windows_dotenv : string :=
  "ESPO_USER=admin" +:+ CRLF +:+ "ESPO_PASSWORD=secret" +:+ CRLF.

Definition complete_environment : Settings.env :=
  list_to_map ((fun k => (k, "set")) <$> settings_names).

Definition node_argv : list string := ["node"; "import-workflows.js"; "--env=prod"].

(** A remote where every workflow is found and none can be written. *)
Definition lost_update (σ : unit) (q : request) : unit * reply :=
  if decide (method q = "GET") then (σ, ok_empty) else (σ, not_found).

Definition one_workflow_file : directory :=
  [("w1.json", Some (JObj {[ "id" := JStr "w1"; "name" := JStr "Notify" ]}))].

(** A remote with two reports, which answers every request for a record
    with the first. *)
Definition sales_q1_record : obj :=
  {[ "id" := JStr "r1"; "name" := JStr "Sales Q1";
     "createdAt" := JStr "2024-01-01 10:00:00" ]}.

Definition two_reports_remote (σ : unit) (q : request) : unit * reply :=
  if decide (path q = "/api/v1/Report?maxSize=200") then
    (σ, Reply (Response 200
          (Text "{list:[{id:r1,name:Sales Q1},{id:r2,name:Leads}]}"
             (Some (JObj {[ "list" :=
                JArr [JObj {[ "id" := JStr "r1"; "name" := JStr "Sales Q1" ]};
                      JObj {[ "id" := JStr "r2"; "name" := JStr "Leads" ]}] ]})))))
  else
    (σ, Reply (Response 200
          (Text "{id:r1,name:Sales Q1,createdAt:2024-01-01 10:00:00}"
             (Some (JObj sales_q1_record))))).

(** A remote with one workflow. *)
Definition notify_record : obj :=
  {[ "id" := JStr "w1"; "name" := JStr "Notify"; "createdAt" := JStr "2024-01-01 10:00:00" ]}.

Definition one_workflow_remote (σ : unit) (q : request) : unit * reply :=
  if decide (path q = "/api/v1/App/user") then
    (σ, Reply (Response 200 (Text "{token:t0}" (Some (JObj {[ "token" := JStr "t0" ]})))))
  else if decide (path q = "/api/v1/Workflow?maxSize=500&orderBy=name") then
    (σ, Reply (Response 200
          (Text "{list:[{id:w1,name:Notify}]}"
             (Some (JObj {[ "list" :=
                JArr [JObj {[ "id" := JStr "w1"; "name" := JStr "Notify" ]}] ]})))))
  else
    (σ, Reply (Response 200
          (Text "{id:w1,name:Notify,createdAt:2024-01-01 10:00:00}"
             (Some (JObj notify_record))))).

(** The world of an exporter that has written nothing yet. *)
Definition fresh : world (unit * written) := start (tt, []).

Definition nothing_refused (file : string) : bool := false.
Definition no_units (s : string) : list string := [].

(** A name made of one lone surrogate (U+D800), and a reply to the lookup
    of "Sales Q1" whose first element carries no identifier. *)
Definition lone_D800 : string :=
  String (ascii_of_N 237) (String (ascii_of_N 160) (String (ascii_of_N 128) EmptyString)).

Definition found_without_id : reply :=
  Reply (Response 200
    (Text "{list:[{name:Sales Q1}]}"
       (Some (JObj {[ "list" := JArr [JObj {[ "name" := JStr "Sales Q1" ]}] ]})))).

(** A remote that holds a workflow whose identifier is the string
    "undefined". *)
Definition holding_undefined : Espo.state :=
  Espo.State [] [{[ "id" := JStr "undefined"; "name" := JStr "Old" ]}].

(** A workflow whose identifier holds a [#]. *)
Definition fragment_workflow : directory :=
  [("w.json", Some (JObj {[ "id" := JStr "a#b" ]}))].
(** * Properties *)

(** ** Sanitization *)

Lemma delete_property_last (h : Store.store) (o : obj) (k : string) :
  Store.delete_property k (length h) (h ++ [o]) = h ++ [delete k o].
Proof.
  unfold Store.delete_property.
  rewrite alter_app_r_alt by lia.
  by rewrite Nat.sub_diag.
Qed.

Lemma store_sanitizer_spec (d : direction) (h : Store.store) (r : Store.ref) :
  store_sanitizer d h r
  = (fun o => (h ++ [sanitizer d o], length h)) <$> h !! r.
Proof.
  destruct d; simpl;
    unfold Store.sanitize, Store.sanitizeForImport, Store.cleanForExport,
      Store.structuredClone, Store.spread;
    destruct (h !! r) as [o|]; simpl; try done;
    by rewrite !delete_property_last.
Qed.

Lemma lookup_delete_all (ks : list string) (S : obj) (k : string) :
  fold_left (fun m f => delete f m) ks S !! k
  = if decide (k ∈ ks) then None else S !! k.
Proof.
  revert S. induction ks as [|f ks IH]; intros S; cbn [fold_left].
  - by rewrite decide_False by apply not_elem_of_nil.
  - rewrite IH, lookup_delete.
    destruct (decide (k ∈ ks)) as [Hin|Hout].
    + by rewrite decide_True by (by right).
    + destruct (decide (f = k)) as [->|Hne].
      * by rewrite decide_True by (by left).
      * rewrite decide_False; [done|].
        intros [->|?]%elem_of_cons; done.
Qed.

Lemma sanitizer_delete_all (d : direction) (S : obj) :
  sanitizer d S = fold_left (fun m f => delete f m) (code_excluded d) S.
Proof. by destruct d. Qed.

Lemma sanitizer_removes_exactly (d : direction) :
  removes_exactly (sanitizer d) (code_excluded d).
Proof.
  intros S k. rewrite sanitizer_delete_all, lookup_delete_all.
  split; intros Hk; [by rewrite decide_True | by rewrite decide_False].
Qed.

(** C3, as stated, fails: on import [sanitizeForImport] removes [id] as
    well, and the workflow export keeps [id] (and removes [createdByName]
    and [modifiedByName], which the claim does not list). *)
Lemma sanitize_spec_fields_counterexample :
  ~ removes_exactly (sanitizer ImportReport) (spec_excluded ImportReport)
  /\ ~ removes_exactly (sanitizer ExportWorkflow) (spec_excluded ExportWorkflow).
Proof.
  split; intros H.
  - destruct (H {[ "id" := JStr "r1" ]} "id") as [_ Hkeep].
    assert (Hne : "id" ∉ spec_excluded ImportReport)
      by (apply (bool_decide_unpack _); by vm_compute).
    specialize (Hkeep Hne). by vm_compute in Hkeep.
  - destruct (H {[ "id" := JStr "w1" ]} "id") as [Hdrop _].
    assert (Hin : "id" ∈ spec_excluded ExportWorkflow) by (by left).
    specialize (Hdrop Hin). by vm_compute in Hdrop.
Qed.

(** C3 (amended): each sanitizer removes exactly its own field set and keeps
    every other field unchanged; run over the object store, it leaves every
    object that existed before untouched, the input among them, and returns
    a newly allocated object. *)
Theorem sanitize_removes_own_fields_and_preserves_input (d : direction) :
  removes_exactly (sanitizer d) (code_excluded d)
  /\ forall (h : Store.store) (r : Store.ref),
       store_sanitizer d h r
       = (fun o => (h ++ [sanitizer d o], length h)) <$> h !! r.
Proof.
  split; [apply sanitizer_removes_exactly | apply store_sanitizer_spec].
Qed.
(** ** The request primitives *)

Section primitives.
Context {Σ : Type} (serve : Σ -> request -> Σ * reply).
Variable new_URL : string -> string -> option URL.

Lemma send_run (req : request) (w : world Σ) :
  send serve req w
  = (after_request w req (serve (remote w) req).1,
     match (serve (remote w) req).2 with
     | Reply res => Returned res
     | NetworkFailure m => Thrown (NetError m)
     end).
Proof.
  unfold send, exchange, mbind, M_bind, bind, after_request.
  destruct (serve (remote w) req) as [σ [res|m]]; reflexivity.
Qed.

Lemma bind_run {A B} (m : M Σ A) (k : A -> M Σ B) (w : world Σ) :
  (m ≫= k) w
  = match m w with
    | (w', Returned a) => k a w'
    | (w', Thrown e) => (w', Thrown e)
    end.
Proof. reflexivity. Qed.

Lemma workflow_apiRequest_run baseUrl endpoint hs method body (w : world Σ) :
  WorkflowsImport.apiRequest serve new_URL baseUrl endpoint hs method body w
  = called serve workflow_reply (request_for new_URL baseUrl endpoint hs method body) w.
Proof.
  unfold WorkflowsImport.apiRequest, request_for, called.
  destruct (new_URL endpoint baseUrl) as [url|]; [|done]. cbn [fmap option_fmap option_map].
  rewrite bind_run, send_run.
  destruct (serve (remote w) _) as [σ [res|m]]; simpl; [|done].
  unfold workflow_import_result.
  destruct ((200 <=? status res) && (status res <? 300)).
  - by destruct (JSON_parse (data res)).
  - by destruct (status res =? 404).
Qed.

Lemma workflow_export_apiRequest_run baseUrl endpoint hs method body (w : world Σ) :
  WorkflowsExport.apiRequest serve new_URL baseUrl endpoint hs method body w
  = called serve workflow_export_reply
      (request_for new_URL baseUrl endpoint hs method body) w.
Proof.
  unfold WorkflowsExport.apiRequest, request_for, called.
  destruct (new_URL endpoint baseUrl) as [url|]; [|done]. cbn [fmap option_fmap option_map].
  rewrite bind_run, send_run.
  destruct (serve (remote w) _) as [σ [res|m]]; simpl; [|done].
  unfold workflow_export_result.
  destruct ((200 <=? status res) && (status res <? 300)); [|done].
  by destruct (JSON_parse (data res)).
Qed.

Lemma called_request (meaning : reply -> completion json) (req : request) (w : world Σ) :
  called serve meaning (Some req) w
  = (after_request w req (serve (remote w) req).1, meaning (serve (remote w) req).2).
Proof. reflexivity. Qed.

Lemma request_for_Some baseUrl endpoint hs method body (url : URL) :
  new_URL endpoint baseUrl = Some url ->
  request_for new_URL baseUrl endpoint hs method body = Some (options url hs method body).
Proof. intros H. unfold request_for. by rewrite H. Qed.

Lemma request_for_None baseUrl endpoint hs method body :
  new_URL endpoint baseUrl = None ->
  request_for new_URL baseUrl endpoint hs method body = None.
Proof. intros H. unfold request_for. by rewrite H. Qed.

Lemma report_api_run key method path body (w : world Σ) :
  ReportsImport.api serve key method path body w
  = (after_request w (ReportsImport.init key method path body)
       (serve (remote w) (ReportsImport.init key method path body)).1,
     match (serve (remote w) (ReportsImport.init key method path body)).2 with
     | Reply res => report_api_result method path res
     | NetworkFailure m => Thrown (NetError m)
     end).
Proof.
  unfold ReportsImport.api. rewrite bind_run, send_run.
  destruct (serve (remote w) _) as [σ [res|m]]; simpl; [|done].
  unfold report_api_result, parse.
  destruct (ReportsImport.ok res); simpl; [|done].
  by destruct (JSON_parse (data res)).
Qed.

End primitives.

Lemma occurs_in_intro (pre s post : string) : occurs_in s (pre +:+ s +:+ post).
Proof. by exists pre, post. Qed.

Lemma string_app_cons (x : ascii) (a b : string) :
  String x a +:+ b = String x (a +:+ b).
Proof. reflexivity. Qed.

Lemma string_app_assoc (a b c : string) : (a +:+ b) +:+ c = a +:+ (b +:+ c).
Proof.
  induction a as [|x a IH]; [done|]. by rewrite !string_app_cons, IH.
Qed.

Lemma string_app_empty_r (a : string) : a +:+ EmptyString = a.
Proof.
  induction a as [|x a IH]; [done|]. by rewrite string_app_cons, IH.
Qed.

Lemma in_range_2xx (s : Z) :
  (200 <=? s) && (s <? 300) = true <-> 200 <= s < 300.
Proof. rewrite andb_true_iff, Z.leb_le, Z.ltb_lt. tauto. Qed.

Lemma report_ok_2xx (res : response) :
  ReportsImport.ok res = true <-> 200 <= status res < 300.
Proof. unfold ReportsImport.ok. rewrite andb_true_iff, !Z.leb_le. lia. Qed.

Lemma workflow_import_maps :
  maps_2xx workflow_import_result
  /\ maps_404_to_null workflow_import_result
  /\ surfaces_errors true workflow_import_result.
Proof.
  unfold workflow_import_result. split; [|split].
  - intros res j Hs Hj. apply in_range_2xx in Hs. by rewrite Hs, Hj.
  - intros res Hs. by rewrite Hs.
  - intros res Hs Hne.
    destruct ((200 <=? status res) && (status res <? 300)) eqn:E;
      [by apply in_range_2xx in E|].
    destruct (status res =? 404) eqn:E'; [apply Z.eqb_eq in E'; by destruct Hne|].
    eexists; split; [done|]. split.
    + apply (occurs_in_intro "API Error ").
    + exists ("API Error " +:+ pretty (status res) +:+ ": "), EmptyString.
      by rewrite string_app_empty_r, ?string_app_assoc.
Qed.

Lemma workflow_export_maps :
  maps_2xx workflow_export_result
  /\ surfaces_errors false workflow_export_result.
Proof.
  unfold workflow_export_result. split.
  - intros res j Hs Hj. apply in_range_2xx in Hs. by rewrite Hs, Hj.
  - intros res Hs _.
    destruct ((200 <=? status res) && (status res <? 300)) eqn:E;
      [by apply in_range_2xx in E|].
    eexists; split; [done|]. split.
    + apply (occurs_in_intro "API Error ").
    + exists ("API Error " +:+ pretty (status res) +:+ ": "), EmptyString.
      by rewrite string_app_empty_r, ?string_app_assoc.
Qed.

Lemma report_api_maps (method path : string) :
  maps_2xx (report_api_result method path)
  /\ surfaces_errors false (report_api_result method path).
Proof.
  unfold report_api_result. split.
  - intros res j Hs Hj. apply report_ok_2xx in Hs. by rewrite Hs, Hj.
  - intros res Hs _.
    destruct (ReportsImport.ok res) eqn:E; [by apply report_ok_2xx in E|].
    eexists; split; [done|]. split.
    + exists (method +:+ " " +:+ path +:+ " → "), (LF +:+ chars (data res)).
      by rewrite ?string_app_assoc.
    + exists (method +:+ " " +:+ path +:+ " → " +:+ pretty (status res) +:+ LF), EmptyString.
      by rewrite string_app_empty_r, ?string_app_assoc.
Qed.

(** C8, as stated, fails for two of the three primitives: [api] of
    import-reports.js and [apiRequest] of export-workflows.js throw on a
    404 instead of returning [null]. *)
Lemma request_404_counterexample :
  let not_found := Reply (Response 404 (Text "Not Found" None)) in
  (ReportsImport.api (always not_found) "key" "GET" "/api/v1/Report/r1" None (start tt)).2
    = Thrown (Error ("GET /api/v1/Report/r1 → 404" +:+ LF +:+ "Not Found"))
  /\ (WorkflowsExport.apiRequest (always not_found) localhost "http://localhost:8080"
        "/api/v1/Workflow/w1" [] "GET" None (start tt)).2
    = Thrown (Error "API Error 404: Not Found")
  /\ ~ maps_404_to_null (report_api_result "GET" "/api/v1/Report/r1")
  /\ ~ maps_404_to_null workflow_export_result.
Proof.
  split; [by vm_compute|]. split; [by vm_compute|].
  split; intros H;
    specialize (H (Response 404 (Text "Not Found" None)) eq_refl);
    by vm_compute in H.
Qed.

(** C8 (amended): each primitive sends its request once and completes as
    its response dictates. All three map a 2xx response to its parsed body
    and surface a failing status as an error carrying the status and the
    response text; only [apiRequest] of import-workflows.js maps 404 to
    [null], the other two treat 404 like every other failing status. (The
    request of the two [apiRequest]s is the one made for the URL of the
    endpoint; where [new URL] makes none, they send nothing and throw its
    [TypeError].) *)
Theorem request_primitive_status_mapping {Σ} (serve : Σ -> request -> Σ * reply)
    (new_URL : string -> string -> option URL)
    (w : world Σ) (key method path baseUrl : string) (hs : list (string * string))
    (body : value) (σ : Σ) (res : response) :
  (forall url, new_URL path baseUrl = Some url ->
     serve (remote w) (options url hs method body) = (σ, Reply res) ->
     WorkflowsImport.apiRequest serve new_URL baseUrl path hs method body w
       = (after_request w (options url hs method body) σ, workflow_import_result res)
     /\ WorkflowsExport.apiRequest serve new_URL baseUrl path hs method body w
       = (after_request w (options url hs method body) σ, workflow_export_result res))
  /\ (new_URL path baseUrl = None ->
     WorkflowsImport.apiRequest serve new_URL baseUrl path hs method body w
       = (w, Thrown (TypeError "Invalid URL"))
     /\ WorkflowsExport.apiRequest serve new_URL baseUrl path hs method body w
       = (w, Thrown (TypeError "Invalid URL")))
  /\ (serve (remote w) (ReportsImport.init key method path body) = (σ, Reply res) ->
     ReportsImport.api serve key method path body w
       = (after_request w (ReportsImport.init key method path body) σ,
          report_api_result method path res))
  /\ (maps_2xx workflow_import_result
      /\ maps_404_to_null workflow_import_result
      /\ surfaces_errors true workflow_import_result)
  /\ (maps_2xx workflow_export_result /\ surfaces_errors false workflow_export_result)
  /\ (maps_2xx (report_api_result method path)
      /\ surfaces_errors false (report_api_result method path)).
Proof.
  split; [|split; [|split; [|split; [|split]]]].
  - intros url Hurl H.
    rewrite workflow_apiRequest_run, workflow_export_apiRequest_run.
    rewrite (request_for_Some _ _ _ _ _ _ url Hurl), !called_request, H. done.
  - intros Hurl. rewrite workflow_apiRequest_run, workflow_export_apiRequest_run.
    by rewrite (request_for_None _ _ _ _ _ _ Hurl).
  - intros H. by rewrite report_api_run, H.
  - apply workflow_import_maps.
  - apply workflow_export_maps.
  - apply report_api_maps.
Qed.

Lemma request_primitive_status_mapping_witness :
  let url := {| protocol := "http:"; hostname := "localhost"; port := "8080";
                pathname := "/api/v1/Workflow/w1"; search := EmptyString |} in
  WorkflowsImport.apiRequest (always (Reply empty_object_ok)) localhost
    "http://localhost:8080" "/api/v1/Workflow/w1" [] "GET" None (start tt)
  = (after_request (start tt) (options url [] "GET" None) tt,
     workflow_import_result empty_object_ok)
  /\ ReportsImport.api (always (Reply empty_object_ok)) "key" "GET" "/api/v1/Workflow/w1"
       None (start tt)
     = (after_request (start tt)
          (ReportsImport.init "key" "GET" "/api/v1/Workflow/w1" None) tt,
        report_api_result "GET" "/api/v1/Workflow/w1" empty_object_ok).
Proof.
  intros url. split.
  - apply (proj1 (request_primitive_status_mapping (always (Reply empty_object_ok))
                    localhost (start tt) "key" "GET" "/api/v1/Workflow/w1"
                    "http://localhost:8080" [] None tt empty_object_ok) url);
      reflexivity.
  - apply (proj1 (proj2 (proj2 (request_primitive_status_mapping
                    (always (Reply empty_object_ok)) localhost
                    (start tt) "key" "GET" "/api/v1/Workflow/w1"
                    "http://localhost:8080" [] None tt empty_object_ok)))).
    reflexivity.
Defined.

(** ** The query of a lookup names one string *)

Lemma all_bytes (c : ascii) : c ∈ ascii_of_nat <$> seq 0 256.
Proof.
  apply list_elem_of_fmap. exists (nat_of_ascii c). split.
  - by rewrite ascii_nat_embedding.
  - apply elem_of_seq. pose proof (nat_ascii_bounded c). lia.
Qed.

Lemma hex_digits_decode (c : ascii) :
  (hex_value (hex_digit (N_of_ascii c / 16)) * 16
   + hex_value (hex_digit (N_of_ascii c mod 16)))%N = N_of_ascii c.
Proof.
  assert (H : forallb (fun c =>
                (hex_value (hex_digit (N_of_ascii c / 16)) * 16
                 + hex_value (hex_digit (N_of_ascii c mod 16)) =? N_of_ascii c)%N)
                (ascii_of_nat <$> seq 0 256) = true) by (by vm_compute).
  rewrite forallb_forall in H. apply N.eqb_eq, H, list_elem_of_In, all_bytes.
Qed.

Lemma percent_reserved : unreserved "%" = false.
Proof. by vm_compute. Qed.

Lemma encode_byte_inj (c1 c2 : ascii) (s1 s2 : string) :
  encode_byte c1 +:+ s1 = encode_byte c2 +:+ s2 -> c1 = c2 /\ s1 = s2.
Proof.
  unfold encode_byte.
  destruct (unreserved c1) eqn:U1, (unreserved c2) eqn:U2;
    rewrite !string_app_cons; change (EmptyString +:+ ?s) with s; intros H.
  - by injection H as -> ->.
  - injection H as -> _. by rewrite percent_reserved in U1.
  - injection H as <- _. by rewrite percent_reserved in U2.
  - injection H as H1 H2 ->. split; [|done].
    rewrite <-(ascii_N_embedding c1), <-(ascii_N_embedding c2).
    by rewrite <-(hex_digits_decode c1), <-(hex_digits_decode c2), H1, H2.
Qed.

Lemma percent_encode_inj (s1 s2 : string) :
  percent_encode s1 = percent_encode s2 -> s1 = s2.
Proof.
  revert s2. induction s1 as [|c1 s1 IH]; intros [|c2 s2]; simpl; try done.
  - unfold encode_byte. destruct (unreserved c2); by rewrite string_app_cons.
  - unfold encode_byte. destruct (unreserved c1); by rewrite string_app_cons.
  - intros H. apply encode_byte_inj in H as [-> H]. by rewrite (IH s2 H).
Qed.

Lemma lookup_path_inj (n1 n2 : string) :
  lookup_path (Some (JStr n1)) = lookup_path (Some (JStr n2)) -> n1 = n2.
Proof.
  unfold lookup_path. simpl. intros H.
  apply (inj (String.app _)) in H. by apply percent_encode_inj.
Qed.

Lemma chars_of_app (a b : string) : chars_of (a +:+ b) = chars_of a ++ chars_of b.
Proof. induction a as [|c a IH]; [done|]. rewrite string_app_cons. cbn. by rewrite IH. Qed.

Lemma encode_byte_safe (c : ascii) :
  Forall (fun x => unreserved x = true \/ x = "%"%char) (chars_of (encode_byte c)).
Proof.
  assert (forallb (fun c => forallb (fun x => unreserved x || bool_decide (x = "%"%char))
                              (chars_of (encode_byte c)))
            (ascii_of_nat <$> seq 0 256) = true) as H by (by vm_compute).
  rewrite forallb_forall in H. specialize (H c (proj1 (list_elem_of_In _ _) (all_bytes c))).
  rewrite forallb_forall in H. apply Forall_forall. intros x Hx%list_elem_of_In.
  apply H in Hx. apply orb_true_iff in Hx as [Hx|Hx%bool_decide_eq_true]; auto.
Qed.

Lemma percent_encode_safe (s : string) :
  Forall (fun x => unreserved x = true \/ x = "%"%char) (chars_of (percent_encode s)).
Proof.
  induction s as [|c s IH]; [constructor|]. cbn [percent_encode].
  rewrite chars_of_app. apply Forall_app. split; [apply encode_byte_safe|done].
Qed.

Lemma percent_encode_unreserved (s : string) :
  Forall (fun x => unreserved x = true) (chars_of s) -> percent_encode s = s.
Proof.
  induction s as [|c s IH]; [done|]. cbn [percent_encode list_ascii_of_string].
  intros [Hc Hs]%Forall_cons. unfold encode_byte. rewrite Hc, (IH Hs). done.
Qed.
(** ** The report importer, step by step *)

Section reports.
Context {Σ : Type} (serve : Σ -> request -> Σ * reply).
Variable key : string.

Lemma api_run method path body (w : world Σ) :
  ReportsImport.api serve key method path body w
  = (after_request w (ReportsImport.init key method path body)
       (serve (remote w) (ReportsImport.init key method path body)).1,
     report_reply method path (serve (remote w) (ReportsImport.init key method path body)).2).
Proof. apply report_api_run. Qed.

Lemma findByName_run (name : value) (w : world Σ) :
  encodable name = true ->
  let req := ReportsImport.init key "GET" (lookup_path name) None in
  ReportsImport.findByName serve key name w
  = (after_request w req (serve (remote w) req).1,
     match report_reply "GET" (lookup_path name) (serve (remote w) req).2 with
     | Returned res => Returned (first_or_null res)
     | Thrown e => Thrown e
     end).
Proof.
  intros Hname req. unfold ReportsImport.findByName, encodeURIComponent.
  apply negb_true_iff in Hname. rewrite Hname, bind_run.
  fold (lookup_path name). rewrite api_run. fold req.
  by destruct (report_reply _ _ _).
Qed.

Lemma findByName_malformed (name : value) (w : world Σ) :
  encodable name = false ->
  ReportsImport.findByName serve key name w = (w, Thrown (URIError "URI malformed")).
Proof.
  intros Hname. unfold ReportsImport.findByName, encodeURIComponent.
  apply negb_false_iff in Hname. by rewrite Hname.
Qed.

Lemma sanitizeForImport_name (r : obj) : ReportsImport.sanitizeForImport r !! "name" = r !! "name".
Proof.
  destruct (sanitizer_removes_exactly ImportReport r "name") as [_ H].
  apply H. apply (bool_decide_unpack _). by vm_compute.
Qed.

Lemma upsert_run (r : obj) (w : world Σ) :
  ToBoolean (r !! "name") = true ->
  ReportsImport.upsert serve key (JObj r) w = upsert_steps serve key r w.
Proof.
  intros Hname. unfold ReportsImport.upsert, upsert_steps, report_line.
  change (get "name" (JObj r)) with (r !! "name").
  rewrite Hname. change (negb true) with false. cbv beta iota zeta.
  rewrite bind_run, !sanitizeForImport_name.
  destruct (encodable (r !! "name")) eqn:Henc;
    [|by rewrite findByName_malformed].
  rewrite findByName_run by done. cbn [negb].
  destruct (report_reply "GET" _ _) as [res|e]; [|done].
  unfold report_write.
  destruct (ToBoolean (get "id" (first_or_null res))).
  - rewrite bind_run, api_run. simpl method. simpl path.
    by destruct (report_reply "PATCH" _ _).
  - rewrite bind_run, api_run. simpl method. simpl path.
    by destruct (report_reply "POST" _ _).
Qed.

Lemma upsert_invalid (report : json) (w : world Σ) :
  ToBoolean (get "name" report) = false ->
  ReportsImport.upsert serve key report w
  = (w, Thrown (Error "Report JSON missing required field: name")).
Proof. intros H. unfold ReportsImport.upsert. by rewrite H. Qed.

End reports.
(** ** The workflow importer, step by step *)

Section workflows.
Context {Σ : Type} (serve : Σ -> request -> Σ * reply).
Variable new_URL : string -> string -> option URL.
Variable base64 : string -> string.

Lemma apiRequest_run baseUrl endpoint hs method body (w : world Σ) :
  WorkflowsImport.apiRequest serve new_URL baseUrl endpoint hs method body w
  = called serve workflow_reply (request_for new_URL baseUrl endpoint hs method body) w.
Proof. apply workflow_apiRequest_run. Qed.

Lemma try_catch_run {A} (m : M Σ A) (h : exn -> M Σ A) (w : world Σ) :
  try_catch m h w
  = match m w with
    | (w', Returned a) => (w', Returned a)
    | (w', Thrown e) => h e w'
    end.
Proof. reflexivity. Qed.

Lemma entityExists_run baseUrl hs (id : value) (w : world Σ) :
  let check :=
    called serve workflow_reply
      (request_for new_URL baseUrl (exists_path id) hs "GET" (Some JNull)) w in
  WorkflowsImport.entityExists serve new_URL baseUrl hs id w
  = (check.1, Returned (exists_of check.2)).
Proof.
  intros check. unfold WorkflowsImport.entityExists.
  rewrite try_catch_run, bind_run. fold (exists_path id). rewrite apiRequest_run.
  fold check. by destruct check as [w1 [j|e]].
Qed.

Lemma processFile_run url dir hs file t (w : world Σ) :
  WorkflowsImport.processFile serve new_URL url dir hs file t w
  = processFile_steps serve new_URL url dir hs file t w.
Proof.
  unfold WorkflowsImport.processFile, processFile_steps, document.
  rewrite try_catch_run, bind_run.
  unfold readFileSync at 1. fold (file_read w file).
  destruct (list_find _ dir) as [[i [f c]]|]; [|done].
  rewrite bind_run. unfold parse at 1.
  destruct c as [j|]; [|done].
  destruct (is_null j) eqn:Hj; [by destruct j|].
  transitivity
    (match
       (let workflowId := get "id" j in
        let name := get "name" j in
        WorkflowsImport.entityExists serve new_URL url hs workflowId ≫= fun exists_ : bool =>
          if exists_
          then WorkflowsImport.apiRequest serve new_URL url
                 ("/api/v1/Workflow/" +:+ template workflowId)
                 hs "PUT" (Some j) ≫= fun _ =>
               log (Updated (if ToBoolean name then template name else "Unknown")) ≫= fun _ =>
               mret (WorkflowsImport.Tally (WorkflowsImport.created t)
                       (S (WorkflowsImport.updated t)) (WorkflowsImport.errors t))
          else WorkflowsImport.apiRequest serve new_URL url "/api/v1/Workflow" hs "POST"
                 (Some j) ≫= fun _ =>
               log (Created (if ToBoolean name then template name else "Unknown")) ≫= fun _ =>
               mret (WorkflowsImport.Tally (S (WorkflowsImport.created t))
                       (WorkflowsImport.updated t) (WorkflowsImport.errors t)))
         (file_read w file)
     with
     | (w', Returned a) => (w', Returned a)
     | (w', Thrown e) =>
         (log (ErrorProcessing file e) ≫= fun _ =>
            mret (WorkflowsImport.Tally (WorkflowsImport.created t)
                    (WorkflowsImport.updated t) (S (WorkflowsImport.errors t)))) w'
     end).
  { by destruct j. }
  match goal with
  | |- _ = match ?d with inl _ => _ | inr _ => _ end =>
      replace d with (@inr exn json j) by (by destruct j)
  end.
  cbv zeta. rewrite bind_run, entityExists_run. cbv zeta.
  unfold workflow_write, workflow_line, workflow_name, count.
  set (check := called serve workflow_reply _ (file_read w file)).
  destruct (exists_of check.2).
  - rewrite bind_run, apiRequest_run. fold (exists_path (get "id" j)).
    by destruct (called serve workflow_reply _ check.1) as [w2 [x|e]].
  - rewrite bind_run, apiRequest_run.
    by destruct (called serve workflow_reply _ check.1) as [w2 [x|e]].
Qed.

(** The effects of one call of [apiRequest]: at most one request, and
    nothing else. *)
Lemma called_effects (meaning : reply -> completion json) (q : option request)
    (w : world Σ) :
  sent (called serve meaning q w).1 = sent w ++ option_list q
  /\ reads (called serve meaning q w).1 = reads w
  /\ console (called serve meaning q w).1 = console w.
Proof. destruct q as [req|]; cbn; by rewrite ?app_nil_r. Qed.

End workflows.
(** ** Validation of the name (C6) *)


Lemma processFile_requests {Σ} (serve : Σ -> request -> Σ * reply)
    (new_URL : string -> string -> option URL) url dir hs file t (w : world Σ) d :
  document dir file = inr d ->
  exists exists_,
    sent (WorkflowsImport.processFile serve new_URL url dir hs file t w).1
    = sent w
      ++ option_list (request_for new_URL url (exists_path (get "id" d)) hs "GET"
                        (Some JNull))
      ++ option_list (workflow_write new_URL url hs exists_ d).
Proof.
  intros Hdoc. rewrite processFile_run. unfold processFile_steps. rewrite Hdoc. cbv zeta.
  set (check := called serve workflow_reply _ (file_read w file)).
  exists (exists_of check.2).
  set (write := called serve workflow_reply _ check.1).
  assert (sent write.1
          = sent w
            ++ option_list (request_for new_URL url (exists_path (get "id" d)) hs "GET"
                              (Some JNull))
            ++ option_list (workflow_write new_URL url hs (exists_of check.2) d)) as Hs.
  { subst write.
    rewrite (proj1 (called_effects serve workflow_reply _ check.1)). subst check.
    rewrite (proj1 (called_effects serve workflow_reply _ (file_read w file))).
    by rewrite <-app_assoc. }
  by destruct write.2.
Qed.



(** ** Errors during identity resolution (C5) *)



(** ** Identity of a report (C4) *)

Lemma first_or_null_list (m : obj) (l : list json) :
  m !! "list" = Some (JArr l) ->
  first_or_null (JObj m)
  = match l with e :: _ => if truthy e then e else JNull | [] => JNull end.
Proof.
  intros H. unfold first_or_null. simpl. rewrite H. simpl.
  destruct l as [|e l]; simpl; [done|]. by destruct (truthy e).
Qed.

Lemma report_write_resolved (key : string) (m payload : obj) (l : list json) :
  m !! "list" = Some (JArr l) ->
  report_write key (first_or_null (JObj m)) payload
  = match resolved_id l with
    | Some i => ReportsImport.init key "PATCH" ("/api/v1/Report/" +:+ ToString i)
                  (Some (JObj payload))
    | None => ReportsImport.init key "POST" "/api/v1/Report" (Some (JObj payload))
    end.
Proof.
  intros H. rewrite (first_or_null_list _ _ H). unfold report_write, resolved_id.
  destruct l as [|e l]; [done|].
  destruct (truthy e); simpl; [|done].
  destruct (get "id" e) as [i|] eqn:E; simpl; [|done].
  by destruct (truthy i).
Qed.

Lemma upsert_steps_targets {Σ} (serve : Σ -> request -> Σ * reply) (key : string)
    (r r' : obj) (w : world Σ) :
  r' !! "name" = r !! "name" ->
  target <$> sent (upsert_steps serve key r' w).1
  = target <$> sent (upsert_steps serve key r w).1.
Proof.
  intros Hname. unfold upsert_steps. rewrite Hname.
  destruct (negb (encodable (r !! "name"))); [done|].
  destruct (report_reply "GET" _ _) as [res|e]; [|done].
  unfold report_write.
  destruct (ToBoolean (get "id" (first_or_null res))); simpl method; simpl path;
    do 2 (destruct (report_reply _ _ _)); simpl; by rewrite !fmap_app.
Qed.




(** ** What the writes carry (C7) *)

(** C7, as stated, fails for workflows: the file is sent as it is, so a
    [createdAt] in the file reaches the remote. *)
Lemma workflow_body_not_sanitized_counterexample :
  let run := WorkflowsImport.processFile (always not_found) localhost
               "http://localhost:8080"
               [("w1.json", Some stamped_workflow)] [] "w1.json"
               (WorkflowsImport.Tally 0 0 0) (start tt) in
  exists q, q ∈ sent run.1 /\ method q = "POST" /\ body q = Some stamped_workflow
            /\ ~ portable q.
Proof.
  eexists. split; [|split; [|split]].
  - simpl. apply list_elem_of_lookup. exists 1%nat. reflexivity.
  - reflexivity.
  - reflexivity.
  - unfold portable. simpl. intros H. apply Forall_cons_1 in H as [H _]. by vm_compute in H.
Qed.

Lemma sanitizeForImport_portable (r : obj) :
  Forall (fun f => ReportsImport.sanitizeForImport r !! f = None) environment_bound.
Proof.
  apply Forall_forall. intros f Hf.
  apply (sanitizer_removes_exactly ImportReport r f).
  revert Hf. unfold environment_bound. simpl.
  rewrite !elem_of_cons, elem_of_nil. tauto.
Qed.

Lemma cleanForExport_portable (e : obj) :
  Forall (fun f => WorkflowsExport.cleanForExport e !! f = None) environment_bound.
Proof.
  apply Forall_forall. intros f Hf.
  apply (sanitizer_removes_exactly ExportWorkflow e f).
  revert Hf. unfold environment_bound. simpl. unfold WorkflowsExport.EXCLUDE_FIELDS.
  rewrite !elem_of_cons, elem_of_nil. tauto.
Qed.

Lemma request_for_body (new_URL : string -> string -> option URL) url endpoint hs
    method (b : value) (q : request) :
  q ∈ option_list (request_for new_URL url endpoint hs method b) -> body q = body_of b.
Proof.
  unfold request_for. destruct (new_URL endpoint url) as [u|]; cbn;
    [|by intros ?%elem_of_nil].
  by intros ->%list_elem_of_singleton.
Qed.

(** C7 (amended): every request the report importer sends for a report
    either has no body or carries the sanitized report, which has none of
    the environment-bound fields whatever the file held. The workflow
    importer sends the file's document unchanged; its writes are free of
    those fields when the file is, as every file written by the workflow
    exporter's [cleanForExport] is. *)
Theorem import_bodies_portable {Σ} (serve : Σ -> request -> Σ * reply)
    (new_URL : string -> string -> option URL) (key : string) (w : world Σ) :
  (forall report : json,
     exists new, sent (ReportsImport.upsert serve key report w).1 = sent w ++ new
                 /\ Forall portable new
                 /\ Forall (fun q =>
                      body q = None
                      \/ exists r, report = JObj r
                           /\ body q = Some (JObj (ReportsImport.sanitizeForImport r)))
                      new)
  /\ (forall url dir hs file t,
        exists new,
          sent (WorkflowsImport.processFile serve new_URL url dir hs file t w).1
          = sent w ++ new
          /\ Forall (fun q => body q = None
                              \/ document dir file = inr (default JNull (body q))) new
          /\ (forall e, document dir file = inr (JObj (WorkflowsExport.cleanForExport e)) ->
                Forall portable new)).
Proof.
  split.
  - intros report.
    destruct (ToBoolean (get "name" report)) eqn:Hname; cycle 1.
    { exists []. rewrite upsert_invalid by done. simpl. by rewrite app_nil_r. }
    destruct report as [| | | | |r]; try done.
    rewrite (upsert_run _ _ _ _ Hname). unfold upsert_steps.
    destruct (negb (encodable (r !! "name"))).
    { exists []. simpl. by rewrite app_nil_r. }
    pose proof (sanitizeForImport_portable r) as Hp.
    assert (Hw : forall ex, portable (report_write key ex (ReportsImport.sanitizeForImport r))
                 /\ body (report_write key ex (ReportsImport.sanitizeForImport r))
                    = Some (JObj (ReportsImport.sanitizeForImport r))).
    { intros ex. unfold report_write, portable.
      destruct (ToBoolean (get "id" ex)); (split; [exact Hp | reflexivity]). }
    destruct (report_reply "GET" _ _) as [res|e].
    + destruct (Hw (first_or_null res)) as [Hw1 Hw2].
      exists [ReportsImport.init key "GET" (lookup_path (r !! "name")) None;
              report_write key (first_or_null res) (ReportsImport.sanitizeForImport r)].
      split; [|split].
      * destruct (report_reply _ _ _); simpl; by rewrite <-app_assoc.
      * apply Forall_cons_2; [done|]. by apply Forall_cons_2.
      * apply Forall_cons_2; [by left|]. apply Forall_cons_2; [|done].
        right. by exists r.
    + exists [ReportsImport.init key "GET" (lookup_path (r !! "name")) None].
      split; [done|]. split; (apply Forall_cons_2; [|done]); [done | by left].
  - intros url dir hs file t.
    destruct (document dir file) as [e|d] eqn:Hdoc.
    { exists []. rewrite processFile_run. unfold processFile_steps. rewrite Hdoc.
      simpl. rewrite app_nil_r. repeat split; by constructor. }
    destruct (processFile_requests serve new_URL url dir hs file t w d Hdoc)
      as [ex Hsent].
    eexists. split; [exact Hsent|].
    assert (Hcheck : forall q,
              q ∈ option_list (request_for new_URL url (exists_path (get "id" d)) hs "GET"
                                 (Some JNull)) -> body q = None).
    { intros q Hq. by rewrite (request_for_body _ _ _ _ _ _ _ Hq). }
    assert (Hwrite : forall q,
              q ∈ option_list (workflow_write new_URL url hs ex d) ->
              body q = None \/ body q = Some d).
    { intros q Hq. unfold workflow_write in Hq.
      destruct ex; rewrite (request_for_body _ _ _ _ _ _ _ Hq); unfold body_of;
        cbn [ToBoolean]; destruct (truthy d); auto. }
    split.
    + apply Forall_app. split; apply Forall_forall; intros q Hq.
      * left. by apply Hcheck.
      * destruct (Hwrite q Hq) as [Hb|Hb]; [by left|]. right. by rewrite Hb.
    + intros e [= ->]. apply Forall_app. split; apply Forall_forall; intros q Hq.
      * unfold portable. by rewrite (Hcheck q Hq).
      * unfold portable. destruct (Hwrite q Hq) as [->| ->]; [done|].
        apply cleanForExport_portable.
Qed.

Lemma import_bodies_portable_witness :
  exists new,
    sent (WorkflowsImport.processFile (always not_found) localhost "http://localhost:8080"
            [("w1.json", Some (JObj (WorkflowsExport.cleanForExport remote_workflow)))]
            [] "w1.json" (WorkflowsImport.Tally 0 0 0) (start tt)).1 = [] ++ new
    /\ Forall portable new.
Proof.
  destruct (proj2 (import_bodies_portable (always not_found) localhost "key" (start tt))
              "http://localhost:8080"
              [("w1.json", Some (JObj (WorkflowsExport.cleanForExport remote_workflow)))]
              [] "w1.json" (WorkflowsImport.Tally 0 0 0)) as (new & Hsent & _ & Hp).
  exists new. split; [exact Hsent|]. apply (Hp remote_workflow). reflexivity.
Defined.
(** ** Partial failure (C2) *)

(** C2, as stated, fails for reports: with three reports of which the
    second has an empty name, the first is created, the second raises out
    of [main], the third is never read, and the script exits with code 1. *)
Lemma report_batch_aborts_counterexample :
  let run := ReportsImport.main (always ok_empty) "key" (Some three_reports) (start tt) in
  run.2 = Thrown (Error "Report JSON missing required field: name")
  /\ reads run.1 = ["a.json"; "b.json"]
  /\ console run.1 = [Info "Importing 3 reports"; Created "A"]
  /\ (ReportsImport.script (always ok_empty) (Some "dev") dev_environment
        (Some three_reports) (start tt)).2 = 1.
Proof. by vm_compute. Qed.

Section partial_failure.
Context {Σ : Type} (serve : Σ -> request -> Σ * reply).
Variable new_URL : string -> string -> option URL.
Variable base64 : string -> string.

Lemma returns_mret {A} (a : A) : returns (mret a : M Σ A).
Proof. intros w. by exists w, a. Qed.

Lemma returns_log (l : log_line) : returns (log l : M Σ unit).
Proof. intros w. by eexists _, tt. Qed.

Lemma returns_bind {A B} (m : M Σ A) (k : A -> M Σ B) :
  returns m -> (forall a, returns (k a)) -> returns (m ≫= k).
Proof.
  intros Hm Hk w. destruct (Hm w) as (w1 & a & Hw).
  destruct (Hk a w1) as (w2 & b & Hw2).
  exists w2, b. by rewrite bind_run, Hw.
Qed.

Lemma returns_try_catch {A} (m : M Σ A) (h : exn -> M Σ A) :
  (forall e, returns (h e)) -> returns (try_catch m h).
Proof.
  intros Hh w. rewrite try_catch_run.
  destruct (m w) as [w1 [a|e]]; [by exists w1, a | apply Hh].
Qed.

Lemma processFile_outcome url dir hs file t (w : world Σ) :
  exists w' l,
    WorkflowsImport.processFile serve new_URL url dir hs file t w
    = (w', Returned (tally_line t l))
    /\ reads w' = reads w ++ [file]
    /\ console w' = console w ++ [l]
    /\ line_for dir file l.
Proof.
  rewrite processFile_run. unfold processFile_steps, line_for.
  destruct (document dir file) as [e|d];
    [by eexists _, (ErrorProcessing file e)|].
  cbv zeta. set (check := called serve workflow_reply _ (file_read w file)).
  destruct (called_effects serve workflow_reply
              (request_for new_URL url (exists_path (get "id" d)) hs "GET" (Some JNull))
              (file_read w file)) as (_ & Hr1 & Hc1).
  fold check in Hr1, Hc1.
  set (ex := exists_of check.2). clearbody ex.
  destruct (called_effects serve workflow_reply (workflow_write new_URL url hs ex d)
              check.1) as (_ & Hr2 & Hc2).
  destruct (called serve workflow_reply (workflow_write new_URL url hs ex d) check.1)
    as [w2 [j|e]]; cbn [fst snd] in *.
  - eexists _, (workflow_line ex d). split; [by destruct ex|].
    split; [cbn [reads logged]; by rewrite Hr2, Hr1|].
    split; [cbn [console logged]; by rewrite Hc2, Hc1|]. destruct ex; auto.
  - eexists _, (ErrorProcessing file e). split; [done|].
    split; [cbn [reads logged]; by rewrite Hr2, Hr1|].
    split; [cbn [console logged]; by rewrite Hc2, Hc1|]. eauto.
Qed.

Lemma importFiles_outcome url dir hs files t (w : world Σ) :
  exists w' new,
    WorkflowsImport.importFiles serve new_URL url dir hs files t w
      = (w', Returned (foldl tally_line t new))
    /\ reads w' = reads w ++ files
    /\ console w' = console w ++ new
    /\ Forall2 (line_for dir) files new.
Proof.
  revert t w. induction files as [|file files IH]; intros t w.
  - exists w, []. simpl. by rewrite !app_nil_r.
  - destruct (processFile_outcome url dir hs file t w) as (w1 & l & Hrun & Hr & Hc & Hl).
    destruct (IH (tally_line t l) w1) as (w2 & new & Hrun2 & Hr2 & Hc2 & Hl2).
    exists w2, (l :: new). cbn [WorkflowsImport.importFiles].
    rewrite bind_run, Hrun, Hrun2, Hr2, Hc2, Hr, Hc, <-!app_assoc.
    repeat split; try done. by constructor.
Qed.

Lemma total_tally_line t l :
  (total t <= total (tally_line t l) <= S (total t))%nat
  /\ (match l with Info _ => True | _ => total (tally_line t l) = S (total t) end).
Proof. destruct l, t; unfold total; simpl; lia. Qed.

Lemma line_for_counted dir file l t :
  line_for dir file l -> total (tally_line t l) = S (total t).
Proof.
  unfold line_for. intros H. pose proof (total_tally_line t l) as [_ Ht].
  destruct (document dir file); [by subst|].
  destruct H as [->|[->|[e ->]]]; done.
Qed.

Lemma total_foldl dir files new t :
  Forall2 (line_for dir) files new ->
  total (foldl tally_line t new) = (total t + length files)%nat.
Proof.
  intros H. revert t. induction H as [|file l files new Hl _ IH]; intros t; simpl; [lia|].
  rewrite IH, (line_for_counted _ _ _ _ Hl). lia.
Qed.

Lemma import_returns args (inputDir : option (completion directory)) :
  (forall e, inputDir <> Some (Thrown e)) ->
  returns (WorkflowsImport.import serve new_URL base64 args inputDir).
Proof.
  intros Hdir. unfold WorkflowsImport.import.
  apply returns_bind; [apply returns_log|]. intros _.
  destruct inputDir as [[dir|e]|]; [|by destruct (Hdir e)|];
    [|apply returns_bind; [apply returns_log | intros; apply returns_mret]].
  case_bool_decide;
    [apply returns_bind; [apply returns_log | intros; apply returns_mret]|].
  apply returns_bind; [apply returns_log|]. intros _.
  destruct (negb _ || negb _);
    [apply returns_bind; [apply returns_log | intros; apply returns_mret]|].
  apply returns_bind.
  { apply returns_try_catch. intros e.
    apply returns_bind; [apply returns_log | intros; apply returns_mret]. }
  intros [token|]; [|apply returns_mret].
  apply returns_bind.
  { intros w. destruct (importFiles_outcome (Settings.url args) dir
                          [("Espo-Authorization", token)]
                          (WorkflowsImport.files_of dir) (WorkflowsImport.Tally 0 0 0) w)
      as (w' & new & Hrun & _). eauto. }
  intros t. apply returns_bind; [apply returns_log | intros; apply returns_mret].
Qed.

(** [main] is [import] on the settings, after the read of [.env]. *)
Lemma read_settings dotenv argv env args (w : world Σ) :
  settings dotenv argv env = Some args ->
  Settings.read dotenv argv env w = (settings_read dotenv w, Returned args).
Proof.
  unfold settings_read.
  destruct dotenv as [[content|e]|]; cbn; intros [= <-]; try done.
  rewrite app_nil_r. by destruct w.
Qed.

Lemma settings_cases dotenv argv env :
  (exists args, settings dotenv argv env = Some args)
  \/ (exists e, dotenv = Some (Thrown e)).
Proof. destruct dotenv as [[content|e]|]; cbn; eauto. Qed.

Lemma main_run dotenv argv env args inputDir (w : world Σ) :
  settings dotenv argv env = Some args ->
  WorkflowsImport.main serve new_URL base64 dotenv argv env inputDir w
  = WorkflowsImport.import serve new_URL base64 args inputDir (settings_read dotenv w).
Proof.
  intros H. unfold WorkflowsImport.main. by rewrite bind_run, (read_settings _ _ _ _ _ H).
Qed.

Lemma main_unreadable e argv env inputDir (w : world Σ) :
  WorkflowsImport.main serve new_URL base64 (Some (Thrown e)) argv env inputDir w
  = (settings_read (Some (Thrown e)) w, Thrown e).
Proof. done. Qed.

(** [import] throws only what the listing of the directory throws. *)
Lemma import_throws args inputDir (w w' : world Σ) (e : exn) :
  WorkflowsImport.import serve new_URL base64 args inputDir w = (w', Thrown e) ->
  inputDir = Some (Thrown e).
Proof.
  destruct inputDir as [[dir|e']|].
  - intros H. destruct (import_returns args (Some (Returned dir)) ltac:(done) w)
      as (w1 & a & Hret). congruence.
  - unfold WorkflowsImport.import. rewrite bind_run.
    change (log ?l w) with (logged w l, Returned tt). cbv beta iota.
    by intros [= _ ->].
  - intros H. destruct (import_returns args None ltac:(done) w) as (w1 & a & Hret).
    congruence.
Qed.

(** [import] leaves with [process.exit] only from its two set-up checks. *)
Lemma import_exit args inputDir (w w' : world Σ) (code : Z) :
  WorkflowsImport.import serve new_URL base64 args inputDir w
  = (w', Returned (WorkflowsImport.Exit code)) ->
  code = 1
  /\ (WorkflowsImport.present (Settings.user args) = false
      \/ WorkflowsImport.present (Settings.password args) = false
      \/ exists w0 w1 e,
           WorkflowsImport.authenticate serve new_URL base64 (Settings.url args)
             (default EmptyString (Settings.user args))
             (default EmptyString (Settings.password args)) w0
           = (w1, Thrown e)).
Proof.
  unfold WorkflowsImport.import. rewrite bind_run.
  change (log ?l w) with (logged w l, Returned tt). cbv beta iota.
  destruct inputDir as [[dir|e]|]; [|done|done]. cbv zeta.
  case_bool_decide; [done|].
  rewrite bind_run. change (log ?l ?w0) with (logged w0 l, Returned tt). cbv beta iota.
  destruct (WorkflowsImport.present (Settings.user args)) eqn:Hu; cycle 1.
  { intros [= _ <-]. auto. }
  destruct (WorkflowsImport.present (Settings.password args)) eqn:Hp; cycle 1.
  { intros [= _ <-]. auto. }
  cbn [negb orb]. rewrite bind_run, try_catch_run, bind_run.
  destruct (WorkflowsImport.authenticate _ _ _ _ _ _ _) as [w1 [token|e]] eqn:Hauth.
  - cbv beta iota. unfold mret at 1, M_ret at 1, ret at 1.
    cbv beta iota. rewrite bind_run.
    destruct (importFiles_outcome (Settings.url args) dir [("Espo-Authorization", token)]
                (WorkflowsImport.files_of dir) (WorkflowsImport.Tally 0 0 0) w1)
      as (w2 & new & -> & _).
    done.
  - intros Hexit. split; [|right; right; eauto].
    revert Hexit. rewrite bind_run.
    change (log ?l w1) with (logged w1 l, Returned tt). cbv beta iota.
    by intros [= _ <-].
Qed.

End partial_failure.

(** C2 (amended): in the workflow importer the loop over the files cannot
    throw: every file is read, in order, and ends with exactly one console
    line and one increment of exactly one counter ([errors] when the file
    cannot be parsed, is [null], or its write fails), so that
    created + updated + errors grows by the number of files. [main] itself
    throws only for two set-up errors, which it does throw: a file [.env]
    that is there and cannot be read, and a workflows directory that is
    there and cannot be listed; it leaves with exit code 1 only when the
    credentials are missing or the authentication fails. (The report
    importer has no per-entity handler: there the first failing report
    ends the batch.) *)
Theorem workflow_batch_isolates_failures {Σ} (serve : Σ -> request -> Σ * reply)
    (new_URL : string -> string -> option URL)
    (base64 : string -> string) (url : string) (dir : directory)
    (hs : list (string * string))
    (files : list string) (t : WorkflowsImport.tally) (w : world Σ) :
  (exists w' new,
     WorkflowsImport.importFiles serve new_URL url dir hs files t w
       = (w', Returned (foldl tally_line t new))
     /\ reads w' = reads w ++ files
     /\ console w' = console w ++ new
     /\ Forall2 (line_for dir) files new
     /\ total (foldl tally_line t new) = (total t + length files)%nat)
  /\ (forall dotenv argv env inputDir w0 w' e,
        WorkflowsImport.main serve new_URL base64 dotenv argv env inputDir w0
        = (w', Thrown e) ->
        dotenv = Some (Thrown e) \/ inputDir = Some (Thrown e))
  /\ (forall argv env inputDir w0 e,
        (WorkflowsImport.main serve new_URL base64 (Some (Thrown e)) argv env inputDir
           w0).2 = Thrown e)
  /\ (forall dotenv argv env w0 e,
        is_Some (settings dotenv argv env) ->
        (WorkflowsImport.main serve new_URL base64 dotenv argv env (Some (Thrown e))
           w0).2 = Thrown e)
  /\ (forall dotenv argv env inputDir w0 w' code,
        WorkflowsImport.main serve new_URL base64 dotenv argv env inputDir w0
        = (w', Returned (WorkflowsImport.Exit code)) ->
        code = 1
        /\ exists args,
             settings dotenv argv env = Some args
             /\ (WorkflowsImport.present (Settings.user args) = false
                 \/ WorkflowsImport.present (Settings.password args) = false
                 \/ exists w1 w2 e,
                      WorkflowsImport.authenticate serve new_URL base64 (Settings.url args)
                        (default EmptyString (Settings.user args))
                        (default EmptyString (Settings.password args)) w1
                      = (w2, Thrown e))).
Proof.
  split; [|split; [|split; [|split]]].
  - destruct (importFiles_outcome serve new_URL url dir hs files t w)
      as (w' & new & H1 & H2 & H3 & H4).
    exists w', new. repeat split; try done. by apply (total_foldl dir files).
  - intros dotenv argv env inputDir w0 w' e.
    destruct (settings_cases dotenv argv env) as [[args Hargs]|[e' ->]].
    + rewrite (main_run _ _ _ _ _ _ _ _ _ Hargs). intros H%import_throws. by right.
    + rewrite main_unreadable. intros [= _ ->]. by left.
  - intros argv env inputDir w0 e. by rewrite main_unreadable.
  - intros dotenv argv env w0 e [args Hargs].
    rewrite (main_run _ _ _ _ _ _ _ _ _ Hargs).
    unfold WorkflowsImport.import. by rewrite bind_run.
  - intros dotenv argv env inputDir w0 w' code.
    destruct (settings_cases dotenv argv env) as [[args Hargs]|[e' ->]].
    + rewrite (main_run _ _ _ _ _ _ _ _ _ Hargs).
      intros [-> H]%import_exit. split; [done|]. by exists args.
    + by rewrite main_unreadable.
Qed.

Lemma workflow_batch_isolates_failures_witness :
  let run := WorkflowsImport.main (always not_found) localhost (fun s => s) None
               ["node"; "import-workflows.js"] ∅ (Some (Returned three_workflows))
               (start tt) in
  (exists w' new,
     WorkflowsImport.importFiles (always not_found) localhost "http://localhost:8080"
       three_workflows [] ["a.json"; "b.json"; "c.json"] (WorkflowsImport.Tally 0 0 0)
       (start tt)
     = (w', Returned (foldl tally_line (WorkflowsImport.Tally 0 0 0) new))
     /\ total (foldl tally_line (WorkflowsImport.Tally 0 0 0) new) = 3%nat)
  /\ (1 = 1
      /\ exists args,
           settings None ["node"; "import-workflows.js"] ∅ = Some args
           /\ (WorkflowsImport.present (Settings.user args) = false
               \/ WorkflowsImport.present (Settings.password args) = false
               \/ exists w1 w2 e,
                    WorkflowsImport.authenticate (always not_found) localhost (fun s => s)
                      (Settings.url args)
                      (default EmptyString (Settings.user args))
                      (default EmptyString (Settings.password args)) w1
                    = (w2, Thrown e)))
  /\ (WorkflowsImport.main (always not_found) localhost (fun s => s) None
        ["node"; "import-workflows.js"] ∅
        (Some (Thrown (Error "EACCES: permission denied, scandir"))) (start tt)).2
     = Thrown (Error "EACCES: permission denied, scandir").
Proof.
  intros run.
  pose proof (workflow_batch_isolates_failures (always not_found) localhost (fun s => s)
                "http://localhost:8080" three_workflows [] ["a.json"; "b.json"; "c.json"]
                (WorkflowsImport.Tally 0 0 0) (start tt)) as (H1 & _ & _ & H4 & H5).
  split; [|split].
  - destruct H1 as (w' & new & Hrun & _ & _ & _ & Htotal).
    exists w', new. split; [exact Hrun | exact Htotal].
  - apply (H5 None ["node"; "import-workflows.js"] ∅ (Some (Returned three_workflows))
             (start tt) run.1 1).
    reflexivity.
  - apply (H4 None ["node"; "import-workflows.js"] ∅ (start tt)). by eexists.
Defined.

Example workflow_batch_of_three :
  let run := WorkflowsImport.importFiles (always not_found) localhost
               "http://localhost:8080" three_workflows []
               ["a.json"; "b.json"; "c.json"] (WorkflowsImport.Tally 0 0 0) (start tt) in
  run.2 = Returned (WorkflowsImport.Tally 2 0 1)
  /\ reads run.1 = ["a.json"; "b.json"; "c.json"].
Proof. by vm_compute. Qed.

(** ** Files reserved for the manifest (C9) *)

(** C9 on the report importer: [main] keeps every [*.json] entry, the
    manifest included; the manifest is read, parsed and handed to [upsert],
    where it fails for want of a [name] and ends the import. The workflow
    importer, on the same directory, leaves the manifest out. *)
Theorem report_import_reads_manifest :
  let run := ReportsImport.main (always ok_empty) "key" (Some exported_reports) (start tt) in
  ReportsImport.files_of exported_reports = ["_manifest.json"; "Sales_Q1.json"]
  /\ reads run.1 = ["_manifest.json"]
  /\ run.2 = Thrown (Error "Report JSON missing required field: name")
  /\ WorkflowsImport.files_of exported_reports = ["Sales_Q1.json"].
Proof. by vm_compute. Qed.

Lemma workflow_files_not_reserved (dir : directory) :
  Forall (fun f => startsWith "_" f = false /\ endsWith ".json" f = true)
    (WorkflowsImport.files_of dir).
Proof.
  apply Forall_forall. intros f Hf.
  apply list_elem_of_filter in Hf as [Hf _].
  apply andb_prop_elim in Hf as [H1 H2].
  split; [|by apply Is_true_true].
  apply negb_prop_elim in H2. by destruct (startsWith "_" f).
Qed.
(** ** Facts about the remote application *)

Section espo_facts.
Import Espo.
Variable JSON_stringify : json -> string.

Lemma strip_prefix_app (pre s : string) : strip_prefix pre (pre +:+ s) = Some s.
Proof.
  induction pre as [|a pre IH]; [done|].
  rewrite string_app_cons. simpl. by rewrite decide_True.
Qed.

Lemma find_app key n (l1 l2 : list obj) :
  find key n (l1 ++ l2)
  = match find key n l1 with Some r => Some r | None => find key n l2 end.
Proof.
  induction l1 as [|r l1 IH]; simpl; [done|]. by destruct (decide (key r = n)).
Qed.

Lemma find_Some key n (rs : list obj) r :
  find key n rs = Some r -> r ∈ rs /\ key r = n.
Proof.
  induction rs as [|r0 rs IH]; simpl; [done|].
  destruct (decide (key r0 = n)) as [E|E].
  - intros [= ->]. split; [by left|done].
  - intros H. destruct (IH H). split; [by right|done].
Qed.

Lemma find_None key n (rs : list obj) :
  find key n rs = None <-> n ∉ key <$> rs.
Proof.
  induction rs as [|r rs IH]; simpl.
  - split; [intros _; apply not_elem_of_nil | done].
  - rewrite not_elem_of_cons. destruct (decide (key r = n)) as [E|E].
    + split; [done|]. intros [H _]. by destruct H.
    + rewrite IH. split; [by intros|by intros []].
Qed.

Lemma fresh_id_cons (rs : list obj) : exists s, fresh_id rs = String "x" s.
Proof. unfold fresh_id. simpl. eauto. Qed.

Lemma fresh_id_length (rs : list obj) :
  String.length (fresh_id rs)
  = S (max_list ((fun r => String.length (id_key r)) <$> rs)).
Proof.
  unfold fresh_id. generalize (S (max_list ((fun r => String.length (id_key r)) <$> rs))).
  intros n. induction n as [|n IH]; simpl; [done|]. by rewrite IH.
Qed.

Lemma fresh_id_fresh (rs : list obj) : fresh_id rs ∉ id_key <$> rs.
Proof.
  intros Hin. apply list_elem_of_fmap in Hin as (r & Heq & Hr).
  assert (String.length (id_key r) <= max_list ((fun r => String.length (id_key r)) <$> rs))%nat.
  { apply max_list_elem_of_le. apply list_elem_of_fmap. by exists r. }
  pose proof (fresh_id_length rs) as Hl. rewrite Heq in Hl. lia.
Qed.

Lemma id_key_new (i : string) (p : obj) : id_key (<["id" := JStr i]> p) = i.
Proof. unfold id_key. by rewrite lookup_insert_eq. Qed.

(** What the remote does with the three requests of the workflow importer,
    when they reach it on the path they were made for. *)
Lemma serve_workflow_check (σ : state) hs (id : value) (url : URL) :
  route url = exists_path id ->
  serve JSON_stringify σ (options url hs "GET" (Some JNull))
  = match find id_key (template id) (workflows σ) with
    | Some r => (σ, answer JSON_stringify 200 (JObj r))
    | None => (σ, refuse 404 "Not Found")
    end.
Proof.
  intros Hroute. unfold serve, options. simpl method. simpl path.
  fold (route url). rewrite Hroute. unfold exists_path.
  rewrite decide_True by done. unfold get_request.
  change ("/api/v1/Workflow/" +:+ template id)
    with ("/api/v1/" +:+ ("Workflow/" +:+ template id)).
  replace (strip_prefix "/api/v1/Report?maxSize=1&filters[name]="
             ("/api/v1/" +:+ ("Workflow/" +:+ template id))) with (@None string)
    by reflexivity.
  change ("/api/v1/" +:+ ("Workflow/" +:+ template id))
    with ("/api/v1/Workflow/" +:+ template id).
  by rewrite strip_prefix_app.
Qed.

Lemma serve_workflow_post (σ : state) hs (d : obj) (url : URL) :
  route url = "/api/v1/Workflow" ->
  serve JSON_stringify σ (options url hs "POST" (Some (JObj d)))
  = create_workflow JSON_stringify σ (Some (JObj d)).
Proof.
  intros Hroute. unfold serve, options. simpl method. simpl path. simpl body.
  fold (route url). by rewrite Hroute.
Qed.

Lemma serve_workflow_put (σ : state) hs (id : value) (d : obj) (url : URL) :
  route url = exists_path id ->
  serve JSON_stringify σ (options url hs "PUT" (Some (JObj d)))
  = update_request JSON_stringify σ false (template id) (Some (JObj d)).
Proof.
  intros Hroute. unfold serve, options. simpl method. simpl path. simpl body.
  fold (route url). rewrite Hroute. unfold exists_path.
  rewrite decide_False by done. rewrite decide_False by done.
  rewrite decide_True by done. by rewrite strip_prefix_app.
Qed.

Lemma verbatim_url (new_URL : string -> string -> option URL) (baseUrl endpoint : string) :
  verbatim new_URL baseUrl endpoint ->
  exists url, new_URL endpoint baseUrl = Some url /\ route url = endpoint.
Proof.
  unfold verbatim. destruct (new_URL endpoint baseUrl) as [url|]; [|done].
  intros [= H]. by exists url.
Qed.

End espo_facts.
(** ** Workflows without an identifier (C10) *)

Section without_id.
Import Espo.
Variable JSON_stringify : json -> string.
Variable new_URL : string -> string -> option URL.

Lemma import_without_id url dir hs file (m : obj) t (w : world state) (check create : URL) :
  document dir file = inr (JObj m) ->
  m !! "id" = None ->
  new_URL "/api/v1/Workflow/undefined" url = Some check ->
  route check = "/api/v1/Workflow/undefined" ->
  new_URL "/api/v1/Workflow" url = Some create ->
  route create = "/api/v1/Workflow" ->
  find id_key "undefined" (workflows (remote w)) = None ->
  let r := <["id" := JStr (fresh_id (workflows (remote w)))]> m in
  WorkflowsImport.entityExists (serve JSON_stringify) new_URL url hs (m !! "id") w
    = (after_request w (options check hs "GET" (Some JNull)) (remote w), Returned false)
  /\ WorkflowsImport.processFile (serve JSON_stringify) new_URL url dir hs file t w
     = (World (State (reports (remote w)) (workflows (remote w) ++ [r]))
          (sent w ++ [options check hs "GET" (Some JNull);
                      options create hs "POST" (Some (JObj m))])
          (reads w ++ [file])
          (console w ++ [Created (workflow_name (JObj m))]),
        Returned (count false t))
  /\ find id_key "undefined" (workflows (remote w) ++ [r]) = None.
Proof.
  intros Hdoc Hid Hcheck Hroute Hcreate Hroute' Hnone r.
  assert (request_for new_URL url (exists_path None) hs "GET" (Some JNull)
          = Some (options check hs "GET" (Some JNull))) as Hq
    by (by apply request_for_Some).
  assert (serve JSON_stringify (remote w) (options check hs "GET" (Some JNull))
          = (remote w, refuse 404 "Not Found")) as Hserve.
  { rewrite (serve_workflow_check _ _ _ None) by done. simpl template. by rewrite Hnone. }
  split; [|split].
  - rewrite entityExists_run, Hid. cbv zeta. rewrite Hq, called_request, Hserve. done.
  - rewrite processFile_run. unfold processFile_steps. rewrite Hdoc. cbv zeta.
    simpl get. rewrite Hid, Hq, called_request.
    change (remote (file_read w file)) with (remote w). rewrite Hserve.
    cbn [fst snd]. change (exists_of (workflow_reply (refuse 404 "Not Found"))) with false.
    unfold workflow_write. rewrite (request_for_Some _ _ _ _ _ _ _ Hcreate), called_request.
    change (remote (after_request (file_read w file) _ ?σ)) with σ.
    rewrite serve_workflow_post by done. unfold create_workflow. rewrite Hid.
    unfold logged, after_request, file_read, r. simpl.
    by rewrite <-app_assoc.
  - rewrite find_app, Hnone. simpl. unfold r. rewrite id_key_new.
    destruct (fresh_id_cons (workflows (remote w))) as [s ->].
    by rewrite decide_False.
Qed.

End without_id.



(** ** Idempotence of create-or-update on a keyed table *)

Section update_facts.
Import Espo.

Lemma lookup_update (r p : obj) (k : string) :
  update r p !! k
  = if decide (k = "id") then r !! "id"
    else match p !! k with Some v => Some v | None => r !! k end.
Proof.
  unfold update, keep_id.
  destruct (decide (k = "id")) as [->|Hk].
  - destruct (r !! "id") as [i|] eqn:E;
      [by rewrite lookup_insert_eq | by rewrite lookup_delete_eq].
  - destruct (r !! "id") as [i|] eqn:E;
      [rewrite lookup_insert_ne by done | rewrite lookup_delete_ne by done];
      rewrite lookup_union; by destruct (p !! k), (r !! k).
Qed.

Lemma lookup_foldl_update (ps : list obj) (r : obj) (k : string) :
  foldl update r ps !! k
  = if decide (k = "id") then r !! "id" else Keyed.over ps k (r !! k).
Proof.
  revert r. induction ps as [|p ps IH]; intros r; simpl.
  - by destruct (decide (k = "id")) as [->|].
  - rewrite IH, !lookup_update. destruct (decide (k = "id")) as [->|Hk]; [|done].
    by rewrite decide_True.
Qed.

Lemma over_forced_or_id (ps : list obj) (k : string) :
  (forall a b, Keyed.over ps k a = Keyed.over ps k b) \/ (forall a, Keyed.over ps k a = a).
Proof.
  induction ps as [|p ps IH]; [by right|].
  unfold Keyed.over in *. simpl.
  destruct (p !! k) as [v|]; [by left|].
  destruct IH as [IH|IH]; [left | right]; intros; apply IH.
Qed.

Lemma update_idem (r p : obj) : update (update r p) p = update r p.
Proof.
  apply map_eq. intros k. rewrite !lookup_update.
  destruct (decide (k = "id")); [done|]. by destruct (p !! k).
Qed.

(** A record that already holds [p] and then took [ps] is left as it is
    by taking [p] and [ps] once more. *)
Lemma update_absorb (r0 p : obj) (ps : list obj) :
  update r0 p = r0 ->
  foldl update (update (foldl update r0 ps) p) ps = foldl update r0 ps.
Proof.
  intros Hr0. apply map_eq. intros k.
  rewrite !lookup_foldl_update, !lookup_update, !lookup_foldl_update.
  destruct (decide (k = "id")) as [->|Hk]; [done|].
  destruct (over_forced_or_id ps k) as [H|H]; [apply H|].
  rewrite !H.
  assert (Hk0 : update r0 p !! k = r0 !! k) by by rewrite Hr0.
  rewrite lookup_update, decide_False in Hk0 by done.
  by destruct (p !! k).
Qed.

End update_facts.

Section keyed_facts.
Import Espo Keyed.
Variable key : obj -> string.
Variable mk : list obj -> obj -> obj.

Abbreviation ups := (Keyed.ups key mk).
Abbreviation patches := (Keyed.patches key).
Abbreviation good := (Keyed.good key mk).
Abbreviation nf := (Keyed.nf key).

Lemma sel_cons_eq (n : string) (p : obj) (B : list (string * obj)) :
  sel ((n, p) :: B) n = p :: sel B n.
Proof. unfold sel. by rewrite filter_cons_True. Qed.

Lemma sel_cons_ne (m n : string) (p : obj) (B : list (string * obj)) :
  m <> n -> sel ((m, p) :: B) n = sel B n.
Proof. intros H. unfold sel. by rewrite filter_cons_False. Qed.

Lemma keys_patch (n : string) (p : obj) (rs : list obj) :
  (forall r, key r = n -> key (update r p) = n) ->
  key <$> patch key n p rs = key <$> rs.
Proof.
  intros Hc. induction rs as [|r rs IH]; csimpl; [done|].
  destruct (decide (key r = n)) as [E|E]; csimpl; [|by rewrite IH].
  by rewrite (Hc r E), E.
Qed.

Lemma length_patch (k : obj -> string) (n : string) (p : obj) (rs : list obj) :
  length (patch k n p rs) = length rs.
Proof.
  induction rs as [|r rs IH]; simpl; [done|].
  destruct (decide (k r = n)); simpl; by rewrite ?IH.
Qed.

Lemma find_patch_eq (n : string) (p : obj) (rs : list obj) (r : obj) :
  (forall r, key r = n -> key (update r p) = n) ->
  find key n rs = Some r ->
  find key n (patch key n p rs) = Some (update r p).
Proof.
  intros Hc. induction rs as [|r0 rs IH]; simpl; [done|].
  destruct (decide (key r0 = n)) as [E|E]; simpl.
  - intros [= ->]. by rewrite decide_True by by apply Hc.
  - intros H. rewrite decide_False by done. by apply IH.
Qed.

Lemma find_patch_ne (m n : string) (p : obj) (rs : list obj) :
  (forall r, key r = m -> key (update r p) = m) ->
  m <> n ->
  find key n (patch key m p rs) = find key n rs.
Proof.
  intros Hc Hne. induction rs as [|r0 rs IH]; simpl; [done|].
  destruct (decide (key r0 = m)) as [E|E]; simpl.
  - rewrite (Hc r0 E). rewrite !decide_False; [done|congruence|done].
  - by rewrite IH.
Qed.

Lemma find_ups_ne (e : string * obj) (n : string) (rs : list obj) :
  good e -> e.1 <> n -> find key n (ups rs e) = find key n rs.
Proof.
  intros (Hc & Hk & _) Hne. unfold Keyed.ups.
  destruct (find key e.1 rs); [by apply find_patch_ne|].
  rewrite find_app. destruct (find key n rs); [done|]. simpl.
  by rewrite decide_False by by rewrite Hk.
Qed.

Lemma find_ups_eq (e : string * obj) (rs : list obj) :
  good e ->
  exists r0, find key e.1 (ups rs e) = Some r0 /\ update r0 e.2 = r0.
Proof.
  intros (Hc & Hk & Hm). unfold Keyed.ups.
  destruct (find key e.1 rs) as [r|] eqn:E.
  - exists (update r e.2). split; [by apply find_patch_eq | apply update_idem].
  - exists (mk rs e.2). split; [|apply Hm].
    rewrite find_app, E. simpl. by rewrite decide_True.
Qed.

Lemma find_ups_present (e : string * obj) (rs : list obj) (r : obj) :
  good e -> find key e.1 rs = Some r ->
  find key e.1 (ups rs e) = Some (update r e.2).
Proof.
  intros (Hc & _) H. unfold Keyed.ups. rewrite H. by apply find_patch_eq.
Qed.

Lemma find_run (B : list (string * obj)) (n : string) (rs : list obj) (r : obj) :
  Forall good B -> find key n rs = Some r ->
  find key n (foldl ups rs B) = Some (foldl update r (sel B n)).
Proof.
  intros HB. revert rs r. induction HB as [|[m q] B Hg _ IH]; intros rs r Hr; [done|].
  simpl. destruct (decide (m = n)) as [->|Hne].
  - rewrite sel_cons_eq. simpl. apply IH. by apply (find_ups_present (n, q)).
  - rewrite sel_cons_ne by done. apply IH. by rewrite (find_ups_ne (m, q)).
Qed.

(** After a run, every first record of a key is a fixed point of the
    bodies the batch holds for that key. *)
Lemma run_fixed (B : list (string * obj)) (n : string) (rs : list obj) (r : obj) :
  Forall good B -> find key n (foldl ups rs B) = Some r ->
  foldl update r (sel B n) = r.
Proof.
  intros HB. revert rs. induction HB as [|[m q] B Hg HB IH]; intros rs Hr; [done|].
  simpl in Hr. destruct (decide (m = n)) as [->|Hne].
  - rewrite sel_cons_eq. simpl.
    destruct (find_ups_eq (n, q) rs Hg) as (r0 & Hr0 & Habs). simpl in *.
    rewrite (find_run B n _ r0 HB Hr0) in Hr. injection Hr as <-.
    by apply update_absorb.
  - rewrite sel_cons_ne by done. by apply (IH (ups rs (m, q))).
Qed.

Lemma nf_skip (n : string) (p : obj) (B : list (string * obj)) seen (rs : list obj) :
  n ∈ seen -> nf ((n, p) :: B) seen rs = nf B seen rs.
Proof.
  revert seen. induction rs as [|r rs IH]; intros seen Hn; simpl; [done|].
  rewrite IH by by right. f_equal.
  destruct (decide (key r ∈ seen)) as [Hin|Hout]; [done|].
  rewrite sel_cons_ne; [done|]. by intros ->.
Qed.

Lemma nf_patch (n : string) (p : obj) (B : list (string * obj)) seen (rs : list obj) :
  (forall r, key r = n -> key (update r p) = n) ->
  n ∉ seen ->
  nf B seen (patch key n p rs) = nf ((n, p) :: B) seen rs.
Proof.
  intros Hc. revert seen. induction rs as [|r rs IH]; intros seen Hn; simpl; [done|].
  destruct (decide (key r = n)) as [E|E]; simpl.
  - rewrite (Hc r E), E, !decide_False by done.
    rewrite sel_cons_eq. simpl. f_equal.
    symmetry. apply nf_skip. by left.
  - rewrite IH by (by intros [?|?]%elem_of_cons).
    by rewrite sel_cons_ne by done.
Qed.

Lemma patches_nf (B : list (string * obj)) (rs : list obj) :
  Forall good B -> foldl patches rs B = nf B [] rs.
Proof.
  intros HB. revert rs. induction HB as [|[n p] B (Hc & _) _ IH]; intros rs; simpl.
  - induction rs as [|r rs IHrs]; simpl; [done|]. f_equal.
    clear IHrs. generalize [key r]. induction rs as [|r' rs IH']; intros seen; simpl; [done|].
    rewrite <-IH'. f_equal. by destruct (decide _).
  - rewrite IH. unfold Keyed.patches. simpl. apply nf_patch; [done|apply not_elem_of_nil].
Qed.

Lemma nf_fixed (B : list (string * obj)) seen (rs : list obj) :
  (forall n r, n ∉ seen -> find key n rs = Some r -> foldl update r (sel B n) = r) ->
  nf B seen rs = rs.
Proof.
  revert seen. induction rs as [|r rs IH]; intros seen H; simpl; [done|].
  f_equal.
  - destruct (decide (key r ∈ seen)) as [Hin|Hout]; [done|].
    apply H; [done|]. simpl. by rewrite decide_True.
  - apply IH. intros n r' Hn Hr'. apply not_elem_of_cons in Hn as [Hne Hn].
    apply H; [done|]. simpl. by rewrite decide_False.
Qed.

Lemma keys_ups (e : string * obj) (rs : list obj) :
  good e -> e.1 ∈ key <$> ups rs e /\ (key <$> rs) ⊆ (key <$> ups rs e).
Proof.
  intros (Hc & Hk & _). unfold Keyed.ups.
  destruct (find key e.1 rs) as [r|] eqn:E.
  - rewrite keys_patch by done. split; [|done].
    apply find_Some in E as [Hin <-]. by apply list_elem_of_fmap_2.
  - rewrite fmap_app. simpl. rewrite Hk. split; [|by apply sublist_subseteq, sublist_inserts_r].
    apply elem_of_app. right. by left.
Qed.

Lemma keys_run (B : list (string * obj)) (rs : list obj) :
  Forall good B ->
  (key <$> rs) ⊆ (key <$> foldl ups rs B)
  /\ Forall (fun e => e.1 ∈ key <$> foldl ups rs B) B.
Proof.
  intros HB. revert rs. induction HB as [|e B Hg _ IH]; intros rs; simpl; [done|].
  destruct (keys_ups e rs Hg) as [He Hsub].
  destruct (IH (ups rs e)) as [Hsub' Hall].
  split; [by etrans|]. constructor; [by apply Hsub'|done].
Qed.

Lemma ups_patches (B : list (string * obj)) (rs : list obj) :
  Forall good B ->
  Forall (fun e => e.1 ∈ key <$> rs) B ->
  foldl ups rs B = foldl patches rs B.
Proof.
  intros HB. revert rs. induction HB as [|e B Hg _ IH]; intros rs Hin; simpl; [done|].
  apply Forall_cons_1 in Hin as [He Hin].
  assert (Heq : ups rs e = patches rs e).
  { unfold Keyed.ups, Keyed.patches.
    destruct (find key e.1 rs) eqn:E; [done|]. by apply find_None in E. }
  rewrite Heq. apply IH. unfold Keyed.patches.
  by rewrite keys_patch by apply Hg.
Qed.

(** Running a batch a second time changes nothing. *)
Lemma run_idempotent (B : list (string * obj)) (rs : list obj) :
  Forall good B ->
  foldl ups (foldl ups rs B) B = foldl ups rs B.
Proof.
  intros HB.
  rewrite (ups_patches B (foldl ups rs B)) by (done || by apply keys_run).
  rewrite patches_nf by done.
  apply nf_fixed. intros n r _ Hr. by apply (run_fixed B n rs).
Qed.

End keyed_facts.
(** ** The report importer against the remote *)

Section reports_espo.
Import Espo.
Variable JSON_stringify : json -> string.
Variable key : string.

Abbreviation rups := (Keyed.ups name_key new_report).

Lemma serve_report_lookup (σ : state) (name : value) :
  serve JSON_stringify σ (ReportsImport.init key "GET" (lookup_path name) None)
  = (σ, answer JSON_stringify 200
          (JObj {[ "list" := JArr (JObj <$> option_list
                     (find name_key (percent_encode (template name)) (reports σ))) ]})).
Proof.
  unfold serve, ReportsImport.init, lookup_path. simpl method. simpl path.
  rewrite decide_True by done. unfold get_request. by rewrite strip_prefix_app.
Qed.

Lemma serve_report_patch (σ : state) (i : string) (p : obj) :
  serve JSON_stringify σ
    (ReportsImport.init key "PATCH" ("/api/v1/Report/" +:+ i) (Some (JObj p)))
  = update_request JSON_stringify σ true i (Some (JObj p)).
Proof.
  unfold serve, ReportsImport.init. simpl method. simpl path. simpl body.
  rewrite decide_False by done. rewrite decide_True by done.
  by rewrite strip_prefix_app.
Qed.

Lemma serve_report_post (σ : state) (p : obj) :
  serve JSON_stringify σ (ReportsImport.init key "POST" "/api/v1/Report" (Some (JObj p)))
  = create_report JSON_stringify σ (Some (JObj p)).
Proof. reflexivity. Qed.

Lemma name_key_sanitized (r : obj) : name_key (ReportsImport.sanitizeForImport r) = name_key r.
Proof. unfold name_key. by rewrite sanitizeForImport_name. Qed.

Lemma report_entity_good (r : obj) :
  ToBoolean (r !! "name") = true -> Keyed.good name_key new_report (report_entity r).
Proof.
  intros Hname. unfold report_entity. simpl.
  destruct (r !! "name") as [v|] eqn:Hv; [|done].
  assert (Hp : ReportsImport.sanitizeForImport r !! "name" = Some v)
    by by rewrite sanitizeForImport_name.
  split; [|split]; simpl.
  - intros rec _. unfold name_key.
    by rewrite lookup_update, decide_False, Hp, Hv by done.
  - intros rs. unfold name_key, new_report.
    by rewrite lookup_insert_ne, Hp, Hv by done.
  - intros rs. apply map_eq. intros k. rewrite lookup_update.
    destruct (decide (k = "id")) as [->|Hk]; [done|].
    unfold new_report. rewrite lookup_insert_ne by done.
    by destruct (ReportsImport.sanitizeForImport r !! k).
Qed.

Lemma id_key_update (r p : obj) : id_key (update r p) = id_key r.
Proof. unfold id_key. by rewrite lookup_update, decide_True. Qed.

Lemma ids_patch (k : obj -> string) (n : string) (p : obj) (rs : list obj) :
  (fun r => r !! "id") <$> patch k n p rs = (fun r => r !! "id") <$> rs.
Proof.
  induction rs as [|r rs IH]; csimpl; [done|].
  destruct (decide (k r = n)); csimpl; [|by rewrite IH].
  by rewrite lookup_update, decide_True.
Qed.

Lemma well_formed_ids (rs rs' : list obj) :
  (fun r => r !! "id") <$> rs' = (fun r => r !! "id") <$> rs ->
  well_formed rs -> well_formed rs'.
Proof.
  intros Hids [Hnd Hall]. split.
  - replace (id_key <$> rs') with (template <$> ((fun r => r !! "id") <$> rs'))
      by (by rewrite <-list_fmap_compose).
    rewrite Hids, <-list_fmap_compose. exact Hnd.
  - apply Forall_fmap with (f := fun r : obj => r !! "id") (P := fun v => ToBoolean v = true).
    rewrite Hids. by apply Forall_fmap.
Qed.

Lemma well_formed_ups (rs : list obj) (e : string * obj) :
  well_formed rs -> well_formed (rups rs e).
Proof.
  intros Hwf. unfold Keyed.ups. destruct (find name_key e.1 rs).
  - eapply well_formed_ids; [apply ids_patch|done].
  - destruct Hwf as [Hnd Hall]. split.
    + rewrite fmap_app. apply NoDup_app. split; [done|]. split; [|apply NoDup_singleton].
      intros x Hx. simpl. rewrite list_elem_of_singleton. intros ->.
      unfold new_report in Hx. rewrite id_key_new in Hx.
      by apply fresh_id_fresh in Hx.
    + apply Forall_app. split; [done|]. apply Forall_singleton.
      unfold new_report. rewrite lookup_insert_eq.
      by destruct (fresh_id_cons rs) as [s ->].
Qed.

Lemma patch_by_id (n : string) (p : obj) (rs : list obj) (rec : obj) :
  NoDup (id_key <$> rs) ->
  find name_key n rs = Some rec ->
  find id_key (id_key rec) rs = Some rec
  /\ patch id_key (id_key rec) p rs = patch name_key n p rs.
Proof.
  induction rs as [|r0 rs IH]; csimpl; [done|].
  intros Hnd Hfind. apply NoDup_cons in Hnd as [Hr0 Hnd].
  destruct (decide (name_key r0 = n)) as [E|E].
  - injection Hfind as ->. by rewrite !decide_True.
  - destruct (IH Hnd Hfind) as [IH1 IH2].
    assert (id_key r0 <> id_key rec).
    { intros Heq. apply Hr0. rewrite Heq.
      apply find_Some in Hfind as [Hin _]. by apply list_elem_of_fmap_2. }
    by rewrite !decide_False, IH1, IH2.
Qed.

(** One [upsert] against the remote: it returns, and leaves the table of
    reports as [Keyed.ups] says; a line [Created] is logged exactly when
    the table grows. *)
Lemma upsert_espo (r : obj) (w : world state) :
  ToBoolean (r !! "name") = true ->
  encodable (r !! "name") = true ->
  well_formed (reports (remote w)) ->
  exists w',
    ReportsImport.upsert (serve JSON_stringify) key (JObj r) w = (w', Returned tt)
    /\ remote w' = State (rups (reports (remote w)) (report_entity r)) (workflows (remote w))
    /\ (created_lines (console w') + length (reports (remote w))
        = created_lines (console w) + length (reports (remote w')))%nat.
Proof.
  intros Hname Henc [Hnd Hall].
  rewrite upsert_run by done. unfold upsert_steps. rewrite Henc. cbn [negb].
  rewrite serve_report_lookup. unfold report_entity, Keyed.ups. cbn [fst snd].
  fold (name_key r).
  change (report_reply "GET" (lookup_path (r !! "name")) (answer JSON_stringify 200 ?j))
    with (Returned j).
  unfold first_or_null. cbn [get]. rewrite lookup_singleton_eq.
  destruct (find name_key (name_key r) (reports (remote w))) as [rec|] eqn:Hfind.
  - assert (Hid : ToBoolean (rec !! "id") = true).
    { apply find_Some in Hfind as [Hin _].
      by apply (proj1 (Forall_forall _ _) Hall). }
    change (index0 (Some (JArr (JObj <$> option_list (Some rec))))) with (Some (JObj rec)).
    cbn [ToBoolean truthy from_option id].
    unfold report_write. cbn [get]. rewrite Hid.
    fold (id_key rec).
    change (remote (after_request w _ ?σ)) with σ.
    rewrite serve_report_patch. unfold update_request.
    destruct (patch_by_id (name_key r) (ReportsImport.sanitizeForImport r) _ rec Hnd Hfind)
      as [-> ->].
    eexists. split; [reflexivity|]. split; [reflexivity|].
    cbn [remote logged after_request console reports fst]. unfold report_line. cbn [get].
    rewrite Hid. unfold created_lines.
    rewrite filter_app, length_app, length_patch. simpl. lia.
  - change (index0 (Some (JArr (JObj <$> option_list None)))) with (@None json).
    cbn [ToBoolean truthy from_option id].
    unfold report_write. cbn [get ToBoolean].
    change (remote (after_request w _ ?σ)) with σ.
    rewrite serve_report_post.
    eexists. split; [reflexivity|]. split; [reflexivity|].
    cbn [remote logged after_request console reports]. unfold report_line, create_report.
    cbn [get ToBoolean fst reports].
    unfold created_lines. rewrite filter_app, !length_app. simpl. lia.
Qed.

End reports_espo.
Lemma omap_cons_Some {A B} (f : A -> option B) (x : A) (y : B) (l : list A) :
  f x = Some y -> omap f (x :: l) = y :: omap f l.
Proof. intros H. csimpl. by rewrite H. Qed.

Section report_batches.
Import Espo.
Variable JSON_stringify : json -> string.
Variable key : string.

Lemma well_formed_run (B : list (string * obj)) (rs : list obj) :
  well_formed rs -> well_formed (foldl (Keyed.ups name_key new_report) rs B).
Proof.
  revert rs. induction B as [|e B IH]; intros rs Hwf; [done|].
  simpl. apply IH. by apply well_formed_ups.
Qed.

Lemma report_of_Some (dir : directory) (file : string) (r : obj) :
  report_of dir file = Some r ->
  ToBoolean (r !! "name") = true
  /\ encodable (r !! "name") = true
  /\ exists i f, list_find (fun e => e.1 = file) dir = Some (i, (f, Some (JObj r))).
Proof.
  unfold report_of, encodable.
  destruct (list_find _ dir) as [[i [f [[| | | | |r']|]]]|]; try done.
  destruct (ToBoolean (r' !! "name")) eqn:E; [|done].
  destruct (negb (lone_surrogate (template (r' !! "name")))) eqn:E'; [|done].
  intros [= ->]. eauto.
Qed.

(** The loop of [main] against the remote. *)
Lemma report_loop_espo (dir : directory) (files : list string) (w : world state) :
  Forall (fun f => is_Some (report_of dir f)) files ->
  well_formed (reports (remote w)) ->
  exists w',
    for_of files (fun file =>
        readFileSync dir file ≫= fun t =>
        parse t ≫= fun report =>
        ReportsImport.upsert (serve JSON_stringify) key report) w
      = (w', Returned tt)
    /\ remote w'
       = State (foldl (Keyed.ups name_key new_report) (reports (remote w))
                  (report_entity <$> omap (report_of dir) files))
           (workflows (remote w))
    /\ (created_lines (console w') + length (reports (remote w))
        = created_lines (console w) + length (reports (remote w')))%nat.
Proof.
  intros Hfiles. revert w. induction Hfiles as [|file files [r Hr] _ IH]; intros w Hwf.
  - exists w. by destruct w as [[] ? ? ?].
  - destruct (report_of_Some _ _ _ Hr) as (Hname & Henc & i & f & Hfind).
    destruct (upsert_espo JSON_stringify key r (file_read w file) Hname Henc Hwf)
      as (w1 & Hrun1 & Hremote1 & Hcount1).
    destruct (IH w1) as (w2 & Hrun2 & Hremote2 & Hcount2).
    { rewrite Hremote1. by apply well_formed_ups. }
    exists w2. cbn [for_of]. rewrite (omap_cons_Some _ _ _ _ Hr), fmap_cons.
    cbn [foldl]. rewrite !bind_run. unfold readFileSync at 1. rewrite Hfind.
    fold (file_read w file). cbn [parse]. unfold ret at 1.
    rewrite !bind_run. rewrite Hrun1, Hrun2.
    split; [done|]. split.
    + rewrite Hremote2, Hremote1. done.
    + cbn [file_read console remote] in Hcount1. lia.
Qed.

Lemma created_lines_info (ls : list log_line) (s : string) :
  created_lines (ls ++ [Info s]) = created_lines ls.
Proof. unfold created_lines. rewrite filter_app, length_app. simpl. lia. Qed.

Lemma report_main_espo (dir : directory) (w : world state) :
  valid_reports dir ->
  well_formed (reports (remote w)) ->
  exists w',
    ReportsImport.main (serve JSON_stringify) key (Some dir) w = (w', Returned tt)
    /\ remote w'
       = State (foldl (Keyed.ups name_key new_report) (reports (remote w))
                  (report_entity <$> omap (report_of dir) (ReportsImport.files_of dir)))
           (workflows (remote w))
    /\ (created_lines (console w') + length (reports (remote w))
        = created_lines (console w) + length (reports (remote w')))%nat.
Proof.
  intros Hvalid Hwf. unfold ReportsImport.main.
  set (line := Info ("Importing " +:+ _)).
  destruct (report_loop_espo dir (ReportsImport.files_of dir) (logged w line) Hvalid Hwf)
    as (w1 & Hrun & Hremote & Hcount).
  exists (logged w1 (Info "Report import completed")).
  rewrite bind_run. change (log line w) with (logged w line, Returned tt).
  cbv beta iota. rewrite bind_run, Hrun.
  split; [done|]. split; [done|].
  subst line. cbn [logged console remote] in Hcount |- *.
  rewrite created_lines_info in Hcount. rewrite created_lines_info. lia.
Qed.

Lemma report_batch_good (dir : directory) (files : list string) :
  Forall (Keyed.good name_key new_report) (report_entity <$> omap (report_of dir) files).
Proof.
  apply Forall_fmap, Forall_forall. intros r Hr.
  apply list_elem_of_omap in Hr as (f & _ & Hf).
  apply report_entity_good. by apply report_of_Some in Hf as [? _].
Qed.

End report_batches.

Section workflow_batches.
Import Espo.
Variable JSON_stringify : json -> string.
Variable new_URL : string -> string -> option URL.
Variable url : string.

Abbreviation wups := (Keyed.ups id_key (fun _ p => p)).

Lemma workflow_of_Some (dir : directory) (file : string) (m : obj) :
  workflow_of dir file = Some m ->
  document dir file = inr (JObj m)
  /\ exists c s, m !! "id" = Some (JStr (String c s)).
Proof.
  unfold workflow_of, document.
  destruct (list_find _ dir) as [[i [f [[| | | | |m']|]]]|]; try done.
  destruct (m' !! "id") as [[| | |[|c s]| |]|] eqn:E; try done.
  intros [= ->]. eauto.
Qed.

Lemma workflow_entity_good (m : obj) (c : ascii) (s : string) :
  m !! "id" = Some (JStr (String c s)) ->
  Keyed.good id_key (fun _ p => p) (workflow_entity m).
Proof.
  intros Hid. unfold workflow_entity. split; [|split]; simpl.
  - intros r Hr. by rewrite id_key_update.
  - done.
  - intros _. apply map_eq. intros k. rewrite lookup_update.
    destruct (decide (k = "id")) as [->|Hk]; [done|]. by destruct (m !! k).
Qed.

(** One file of the workflow importer against the remote. *)
Lemma processFile_espo dir hs file (m : obj) t (w : world state) :
  workflow_of dir file = Some m ->
  verbatim new_URL url "/api/v1/Workflow" ->
  verbatim new_URL url (exists_path (m !! "id")) ->
  exists w' t',
    WorkflowsImport.processFile (serve JSON_stringify) new_URL url dir hs file t w
    = (w', Returned t')
    /\ remote w'
       = State (reports (remote w)) (wups (workflows (remote w)) (workflow_entity m))
    /\ (WorkflowsImport.created t' + length (workflows (remote w))
        = WorkflowsImport.created t + length (workflows (remote w')))%nat
    /\ WorkflowsImport.errors t' = WorkflowsImport.errors t.
Proof.
  intros Hm (create & Hcreate & Hroute')%verbatim_url (check & Hcheck & Hroute)%verbatim_url.
  destruct (workflow_of_Some _ _ _ Hm) as (Hdoc & c & s & Hid).
  rewrite processFile_run. unfold processFile_steps. rewrite Hdoc. cbv zeta.
  cbn [get]. rewrite (request_for_Some _ _ _ _ _ _ _ Hcheck), called_request.
  change (remote (file_read w file)) with (remote w).
  rewrite (serve_workflow_check _ _ _ (m !! "id")) by done. rewrite Hid.
  cbn [template ToString].
  assert (Hk : id_key m = String c s) by (unfold id_key; by rewrite Hid).
  unfold workflow_entity, Keyed.ups. rewrite Hk. cbn [fst snd].
  destruct (find id_key (String c s) (workflows (remote w))) as [rec|] eqn:Hfind.
  - cbn [fst snd].
    change (exists_of (workflow_reply (answer JSON_stringify 200 (JObj rec)))) with true.
    unfold workflow_write. cbn [get].
    rewrite (request_for_Some _ _ _ _ _ _ _ Hcheck), called_request.
    change (remote (after_request (file_read w file) _ ?σ)) with σ.
    rewrite (serve_workflow_put _ _ _ (m !! "id")) by done. rewrite Hid.
    cbn [template ToString].
    unfold update_request. rewrite Hfind.
    eexists _, _. split; [reflexivity|]. split; [reflexivity|].
    cbn [remote logged after_request workflows fst count WorkflowsImport.created
           WorkflowsImport.errors].
    rewrite length_patch. done.
  - cbn [fst snd].
    change (exists_of (workflow_reply (refuse 404 "Not Found"))) with false.
    unfold workflow_write.
    rewrite (request_for_Some _ _ _ _ _ _ _ Hcreate), called_request.
    change (remote (after_request (file_read w file) _ ?σ)) with σ.
    rewrite serve_workflow_post by done. unfold create_workflow. rewrite Hid, Hfind.
    eexists _, _. split; [reflexivity|]. split; [reflexivity|].
    cbn [remote logged after_request workflows fst count WorkflowsImport.created
           WorkflowsImport.errors].
    rewrite length_app. simpl. lia.
Qed.

Lemma importFiles_espo dir hs (files : list string) t (w : world state) :
  Forall (fun f => is_Some (workflow_of dir f)) files ->
  verbatim new_URL url "/api/v1/Workflow" ->
  Forall (fun f => match workflow_of dir f with
                   | Some m => verbatim new_URL url (exists_path (m !! "id"))
                   | None => True
                   end) files ->
  exists w' t',
    WorkflowsImport.importFiles (serve JSON_stringify) new_URL url dir hs files t w
    = (w', Returned t')
    /\ remote w'
       = State (reports (remote w))
           (foldl wups (workflows (remote w)) (workflow_entity <$> omap (workflow_of dir) files))
    /\ (WorkflowsImport.created t' + length (workflows (remote w))
        = WorkflowsImport.created t + length (workflows (remote w')))%nat
    /\ WorkflowsImport.errors t' = WorkflowsImport.errors t.
Proof.
  intros Hfiles Hcreate Hpaths. revert t w Hpaths.
  induction Hfiles as [|file files [m Hm] _ IH]; intros t w Hpaths.
  - exists w, t. by destruct w as [[] ? ? ?].
  - apply Forall_cons in Hpaths as [Hpath Hpaths]. rewrite Hm in Hpath.
    destruct (processFile_espo dir hs file m t w Hm Hcreate Hpath)
      as (w1 & t1 & Hrun1 & Hr1 & Hc1 & He1).
    destruct (IH t1 w1 Hpaths) as (w2 & t2 & Hrun2 & Hr2 & Hc2 & He2).
    exists w2, t2. cbn [WorkflowsImport.importFiles].
    rewrite (omap_cons_Some _ _ _ _ Hm), fmap_cons. cbn [foldl].
    rewrite bind_run, Hrun1, Hrun2.
    split; [done|]. split; [by rewrite Hr2, Hr1|].
    split; [lia|congruence].
Qed.

Lemma workflow_batch_good (dir : directory) (files : list string) :
  Forall (Keyed.good id_key (fun _ p => p)) (workflow_entity <$> omap (workflow_of dir) files).
Proof.
  apply Forall_fmap, Forall_forall. intros m Hm.
  apply list_elem_of_omap in Hm as (f & _ & Hf).
  apply workflow_of_Some in Hf as (_ & c & s & Hid).
  by apply (workflow_entity_good m c s).
Qed.

End workflow_batches.
(** ** Idempotence of the import (C1) *)




(** ** The examples of the specification, run against the remote *)

(** A report named "Sales Q1" that exists remotely as [r1] is resolved to
    [r1] whatever [id] the local file carries. *)
Example sales_q1_resolves_to_r1 :
  let run := ReportsImport.upsert (Espo.serve (fun _ => "{}")) "key"
               (JObj {[ "name" := JStr "Sales Q1"; "id" := JStr "local-7" ]})
               (start remote_with_sales_q1) in
  target <$> sent run.1
  = [("GET", "/api/v1/Report?maxSize=1&filters[name]=Sales%20Q1");
     ("PATCH", "/api/v1/Report/r1")]
  /\ console run.1 = [Updated "Sales Q1"]
  /\ Espo.id_key <$> Espo.reports (remote run.1) = ["r1"].
Proof. by vm_compute. Qed.

(** A brand-new report is created by the first run and matched by the
    second. *)
Example new_report_created_then_matched :
  let serve := Espo.serve (fun _ => "{}") in
  let run1 := ReportsImport.main serve "key" (Some new_report_file)
                (start (Espo.State [] [])) in
  let run2 := ReportsImport.main serve "key" (Some new_report_file)
                (start (remote run1.1)) in
  console run1.1
  = [Info "Importing 1 reports"; Created "New Report"; Info "Report import completed"]
  /\ console run2.1
     = [Info "Importing 1 reports"; Updated "New Report"; Info "Report import completed"]
  /\ length (Espo.reports (remote run2.1)) = 1%nat.
Proof. by vm_compute. Qed.

(** A workflow with [id] [w42] exists remotely exactly when the remote
    holds a workflow of that identifier, whatever its name. *)
Example workflow_w42_exists_by_id :
  let serve := Espo.serve (fun _ => "{}") in
  let holding := Espo.State [] [{[ "id" := JStr "w42"; "name" := JStr "Remote name" ]}] in
  (WorkflowsImport.entityExists serve localhost "http://localhost:8080" []
     (Some (JStr "w42")) (start holding)).2
    = Returned true
  /\ (WorkflowsImport.entityExists serve localhost "http://localhost:8080" []
        (Some (JStr "w42")) (start (Espo.State [] []))).2
     = Returned false.
Proof. by vm_compute. Qed.

(** An identifier with a [#] does not reach the remote: [new URL] takes
    what follows the [#] for a fragment, so the existence check asks for
    another path. The first run creates the workflow, the second looks for
    it in vain and fails to create it again. *)
Example fragment_identifier_is_cut :
  let serve := Espo.serve (fun _ => "{}") in
  let run1 := WorkflowsImport.importFiles serve localhost "http://localhost:8080"
                fragment_workflow [] ["w.json"] (WorkflowsImport.Tally 0 0 0)
                (start (Espo.State [] [])) in
  let run2 := WorkflowsImport.importFiles serve localhost "http://localhost:8080"
                fragment_workflow [] ["w.json"] (WorkflowsImport.Tally 0 0 0)
                (start (remote run1.1)) in
  target <$> sent run1.1 = [("GET", "/api/v1/Workflow/a"); ("POST", "/api/v1/Workflow")]
  /\ run1.2 = Returned (WorkflowsImport.Tally 1 0 0)
  /\ target <$> sent run2.1 = [("GET", "/api/v1/Workflow/a"); ("POST", "/api/v1/Workflow")]
  /\ run2.2 = Returned (WorkflowsImport.Tally 0 0 1).
Proof. by vm_compute. Qed.

(** ** File names of the exported reports *)

Section file_names.
Import ReportsExport.

Lemma underscore_spec (c : ascii) : underscore c = true <-> c = "_"%char.
Proof. unfold underscore. by rewrite bool_decide_eq_true. Qed.

Lemma underscore_kept (c : ascii) : underscore c = true -> kept c = true.
Proof. intros ->%underscore_spec. reflexivity. Qed.

Lemma startsWith_leading (s : string) : startsWith "_" s = leading s.
Proof.
  destruct s as [|c s]; [done|]. simpl. unfold underscore.
  rewrite andb_true_r. apply bool_decide_ext. naive_solver.
Qed.

Lemma endsWith_trailing (s : string) : endsWith "_" s = trailing s.
Proof.
  induction s as [|c s IH]; [done|].
  cbn [endsWith trailing]. rewrite IH. destruct s as [|d s].
  - cbn. unfold underscore. rewrite orb_false_r.
    destruct (Ascii.eqb_spec c "_"); [by rewrite bool_decide_true|by rewrite bool_decide_false].
  - cbn [String.eqb]. by destruct (Ascii.eqb c "_").
Qed.

Lemma occurs_in_doubled (s : string) : occurs_in "__" s <-> doubled s = true.
Proof.
  split.
  - intros (pre & post & ->). induction pre as [|c pre IH].
    + reflexivity.
    + rewrite string_app_cons. cbn [doubled]. rewrite IH. apply orb_true_r.
  - induction s as [|a s IH]; [done|]. cbn [doubled].
    intros [[Ha Hs]%andb_true_iff|Hd]%orb_true_iff.
    + apply underscore_spec in Ha as ->. destruct s as [|b s]; [done|].
      apply underscore_spec in Hs as ->. by exists EmptyString, s.
    + destruct (IH Hd) as (pre & post & ->). by exists (String a pre), post.
Qed.

Lemma tidy_computed (s : string) :
  tidy s
  <-> Forall (fun c => kept c = true) (chars_of s)
      /\ leading s = false /\ trailing s = false /\ doubled s = false.
Proof.
  unfold tidy. rewrite startsWith_leading, endsWith_trailing, occurs_in_doubled.
  by rewrite not_true_iff_false.
Qed.

(** The first replacement leaves only the characters it keeps. *)
Lemma replace_runs_kept (run : bool) (s : string) :
  Forall (fun c => kept c = true)
    (chars_of (replace_runs (fun c => negb (kept c)) run s)).
Proof.
  revert run. induction s as [|c s IH]; intros run; [constructor|].
  cbn [replace_runs]. destruct (kept c) eqn:Hc; cbn [negb].
  - constructor; [done|apply IH].
  - destruct run; [apply IH|]. constructor; [done|apply IH].
Qed.

(** Collapsing the underscores and stripping the ends only drop
    characters. *)
Lemma replace_underscores_Forall (P : ascii -> Prop) (run : bool) (s : string) :
  Forall P (chars_of s) -> Forall P (chars_of (replace_runs underscore run s)).
Proof.
  revert run. induction s as [|c s IH]; intros run; [done|].
  cbn [replace_runs list_ascii_of_string]. intros [Hc Hs]%Forall_cons.
  destruct (underscore c) eqn:Hu.
  - apply underscore_spec in Hu as ->.
    destruct run; [by apply IH|]. constructor; [done|by apply IH].
  - constructor; [done|by apply IH].
Qed.

Lemma strip_start_Forall (P : ascii -> Prop) (s : string) :
  Forall P (chars_of s) -> Forall P (chars_of (strip_start s)).
Proof.
  induction s as [|c s IH]; [done|]. cbn [strip_start].
  destruct (underscore c); [|done]. intros [_ Hs]%Forall_cons. by apply IH.
Qed.

Lemma strip_end_Forall (P : ascii -> Prop) (s : string) :
  Forall P (chars_of s) -> Forall P (chars_of (strip_end s)).
Proof.
  induction s as [|c s IH]; [done|]. cbn [strip_end].
  intros [Hc Hs]%Forall_cons.
  destruct (underscore c && String.eqb (strip_end s) EmptyString); [constructor|].
  constructor; [done|by apply IH].
Qed.

(** After the second replacement no two underscores are in a row. *)
Lemma replace_underscores_doubled (run : bool) (s : string) :
  doubled (replace_runs underscore run s) = false
  /\ (run = true -> leading (replace_runs underscore run s) = false).
Proof.
  revert run. induction s as [|c s IH]; intros run; [done|].
  cbn [replace_runs]. destruct (underscore c) eqn:Hu.
  - destruct (IH true) as [Hd Hl]. destruct run; [done|].
    split; [|done]. cbn [doubled]. by rewrite Hd, Hl, andb_false_r.
  - destruct (IH false) as [Hd _]. split.
    + cbn [doubled]. by rewrite Hu, Hd.
    + intros _. cbn. done.
Qed.

Lemma strip_start_doubled (s : string) :
  doubled s = false -> doubled (strip_start s) = false.
Proof.
  induction s as [|c s IH]; [done|]. cbn [strip_start].
  destruct (underscore c); [|done]. cbn [doubled].
  intros [_ Hd]%orb_false_iff. by apply IH.
Qed.

Lemma strip_start_leading (s : string) : leading (strip_start s) = false.
Proof.
  induction s as [|c s IH]; [done|]. cbn [strip_start].
  destruct (underscore c) eqn:Hu; [done|]. by cbn.
Qed.

Lemma strip_end_empty (s : string) :
  strip_end s = EmptyString <-> underscores s = true.
Proof.
  unfold underscores. induction s as [|c s IH]; [done|].
  cbn [strip_end list_ascii_of_string forallb].
  destruct (underscore c); cbn [andb]; [|done].
  destruct (String.eqb_spec (strip_end s) EmptyString) as [He|Hne].
  - split; [intros _; by apply IH|done].
  - split; [done|]. intros He%IH. done.
Qed.

Lemma strip_end_leading (s : string) :
  leading s = false -> leading (strip_end s) = false.
Proof.
  destruct s as [|c s]; [done|]. cbn [strip_end leading]. intros Hc.
  rewrite Hc. cbn [andb leading]. exact Hc.
Qed.

Lemma strip_end_doubled (s : string) :
  doubled s = false -> doubled (strip_end s) = false.
Proof.
  induction s as [|c s IH]; [done|]. cbn [strip_end doubled].
  intros [Ha Hd]%orb_false_iff.
  destruct (underscore c && String.eqb (strip_end s) EmptyString) eqn:Hc; [done|].
  cbn [doubled]. rewrite (IH Hd), orb_false_r.
  destruct (underscore c); [|done]. cbn [andb] in *.
  destruct s as [|d s]; [done|]. cbn [leading] in Ha. cbn [strip_end].
  rewrite Ha. done.
Qed.

Lemma strip_end_trailing (s : string) : trailing (strip_end s) = false.
Proof.
  induction s as [|c s IH]; [done|]. cbn [strip_end].
  destruct (underscore c && String.eqb (strip_end s) EmptyString) eqn:Hc; [done|].
  cbn [trailing]. destruct (strip_end s) as [|d t] eqn:Ht.
  - cbn in Hc. by rewrite andb_true_r in Hc.
  - done.
Qed.

Lemma replace_runs_none (C : ascii -> bool) (run : bool) (s : string) :
  Forall (fun c => C c = false) (chars_of s) -> replace_runs C run s = s.
Proof.
  revert run. induction s as [|c s IH]; intros run; [done|].
  cbn [replace_runs list_ascii_of_string]. intros [-> Hs]%Forall_cons.
  by rewrite IH.
Qed.

Lemma replace_underscores_single (s : string) :
  doubled s = false ->
  replace_runs underscore false s = s
  /\ (leading s = false -> replace_runs underscore true s = s).
Proof.
  induction s as [|c s IH]; [done|]. cbn [doubled replace_runs leading].
  intros [Ha Hd]%orb_false_iff. destruct (IH Hd) as [IH1 IH2].
  destruct (underscore c) eqn:Hu; cbn [andb] in Ha.
  - apply underscore_spec in Hu as ->. split; [by rewrite IH2|done].
  - by rewrite IH1.
Qed.

Lemma strip_start_none (s : string) : leading s = false -> strip_start s = s.
Proof. destruct s as [|c s]; [done|]. cbn. by intros ->. Qed.

Lemma strip_end_none (s : string) : trailing s = false -> strip_end s = s.
Proof.
  induction s as [|c s IH]; [done|]. cbn [strip_end trailing].
  destruct s as [|d s].
  - intros ->. by cbn.
  - intros Ht. rewrite (IH Ht). by rewrite andb_false_r.
Qed.

Lemma strip_start_underscores (s : string) :
  underscores (strip_start s) = underscores s.
Proof.
  unfold underscores. induction s as [|c s IH]; [done|].
  cbn [strip_start]. destruct (underscore c) eqn:Hu; [|done].
  cbn [list_ascii_of_string forallb]. by rewrite Hu.
Qed.

Lemma replace_underscores_underscores (run : bool) (s : string) :
  underscores (replace_runs underscore run s) = underscores s.
Proof.
  unfold underscores. revert run. induction s as [|c s IH]; intros run; [done|].
  cbn [replace_runs list_ascii_of_string forallb].
  destruct (underscore c) eqn:Hu.
  - destruct run; [apply IH|]. cbn [list_ascii_of_string forallb]. by rewrite IH.
  - cbn [list_ascii_of_string forallb]. by rewrite Hu.
Qed.

Lemma neither_letter_nor_digit (c : ascii) :
  negb (alphanumeric_or_dash c) = negb (kept c) || underscore c.
Proof.
  unfold alphanumeric_or_dash, kept, word, underscore.
  destruct (decide (c = "_"%char)) as [->|Hc]; [done|].
  rewrite (bool_decide_false _ Hc).
  by destruct (upper c), (lower c), (digit c), (bool_decide (c = "-"%char)).
Qed.

Lemma replace_runs_underscores (run : bool) (s : string) :
  underscores (replace_runs (fun c => negb (kept c)) run s)
  = forallb (fun c => negb (alphanumeric_or_dash c)) (chars_of s).
Proof.
  unfold underscores. revert run. induction s as [|c s IH]; intros run; [done|].
  cbn [replace_runs list_ascii_of_string forallb].
  rewrite neither_letter_nor_digit.
  destruct (kept c) eqn:Hk; cbn [negb orb].
  - cbn [list_ascii_of_string forallb]. by rewrite IH.
  - destruct run; [apply IH|]. cbn [list_ascii_of_string forallb]. by rewrite IH.
Qed.

Lemma safe_name_tidy_aux (name : string) : tidy (safe_name name).
Proof.
  apply tidy_computed. unfold safe_name.
  set (s1 := replace_runs _ false name).
  destruct (replace_underscores_doubled false s1) as [Hd _].
  repeat split.
  - apply strip_end_Forall, strip_start_Forall, replace_underscores_Forall,
      replace_runs_kept.
  - apply strip_end_leading, strip_start_leading.
  - apply strip_end_trailing.
  - by apply strip_end_doubled, strip_start_doubled.
Qed.

(** X1: whatever the name of the report, the file name that [fileNameFor]
    makes of it holds only letters, digits, [_] and [-], neither starts
    nor ends with an underscore, and has no two underscores in a row. *)
Theorem safe_name_tidy (name : string) : tidy (safe_name name).
Proof. apply safe_name_tidy_aux. Qed.

(** X2: the names that [fileNameFor] leaves as they are are exactly the
    tidy ones; in particular the function is idempotent, so that a file
    name is again the file name of itself. *)
Theorem safe_name_fixed_points (name : string) :
  (safe_name name = name <-> tidy name)
  /\ safe_name (safe_name name) = safe_name name.
Proof.
  assert (forall s, tidy s -> safe_name s = s) as Hfix.
  { intros s (Hk & Hl & Ht & Hd)%tidy_computed. unfold safe_name.
    rewrite (replace_runs_none (fun c => negb (kept c)) false s)
      by (eapply Forall_impl; [exact Hk|]; by intros c ->).
    rewrite (proj1 (replace_underscores_single s Hd)).
    by rewrite strip_start_none, strip_end_none. }
  split; [split|].
  - intros <-. apply safe_name_tidy_aux.
  - apply Hfix.
  - apply Hfix, safe_name_tidy_aux.
Qed.

(** X3: the file name is empty exactly when the name holds no letter, no
    digit and no [-]: such reports (a name of punctuation, or one written
    outside ASCII) all go to the one file [.json]. *)
Theorem safe_name_empty (name : string) :
  safe_name name = EmptyString
  <-> Forall (fun c => alphanumeric_or_dash c = false) (chars_of name).
Proof.
  unfold safe_name.
  rewrite strip_end_empty, strip_start_underscores, replace_underscores_underscores,
    replace_runs_underscores, forallb_forall, Forall_forall.
  split; intros H c Hc.
  - apply negb_true_iff, H. by apply list_elem_of_In.
  - apply negb_true_iff, H. by apply list_elem_of_In.
Qed.

End file_names.

(** ** Trimming, and the names given in [REPORT_NAMES] *)

Lemma trimStart_step (s : string) :
  trimStart s = match white_prefix s with Some r => trimStart r | None => s end.
Proof.
  destruct s as [|a [|b [|c s]]]; cbn [trimStart white_prefix]; try done.
  - by destruct (white1 a).
  - destruct (white1 a); [done|]. by destruct (white2 a b).
  - destruct (white1 a); [done|]. destruct (white2 a b); [done|].
    by destruct (white3 a b c).
Qed.

Lemma white_prefix_length (s r : string) :
  white_prefix s = Some r -> (String.length r < String.length s)%nat.
Proof.
  destruct s as [|a [|b [|c s]]]; cbn [white_prefix]; try done.
  - destruct (white1 a); [|done]. intros [= <-]. cbn. lia.
  - destruct (white1 a); [intros [= <-]; cbn; lia|].
    destruct (white2 a b); [|done]. intros [= <-]. cbn. lia.
  - destruct (white1 a); [intros [= <-]; cbn; lia|].
    destruct (white2 a b); [intros [= <-]; cbn; lia|].
    destruct (white3 a b c); [|done]. intros [= <-]. cbn. lia.
Qed.

Lemma white_prefix_ind (P : string -> Prop) :
  (forall s, (forall r, white_prefix s = Some r -> P r) -> P s) -> forall s, P s.
Proof.
  intros step s. remember (String.length s) as n eqn:Hn.
  revert s Hn. induction (lt_wf n) as [n _ IH]. intros s ->.
  apply step. intros r Hr. eapply IH; [|done]. by apply white_prefix_length.
Qed.

Lemma white_prefix_app (a r b : string) :
  white_prefix a = Some r -> white_prefix (a +:+ b) = Some (r +:+ b).
Proof.
  intros H. destruct a as [|x a]; [done|].
  rewrite string_app_cons. cbn [white_prefix] in *.
  destruct (white1 x); [by injection H as <-|].
  destruct a as [|y a]; [done|]. rewrite string_app_cons.
  destruct (white2 x y); [by injection H as <-|].
  destruct a as [|z a]; [done|]. rewrite string_app_cons.
  destruct (white3 x y z); [by injection H as <-|done].
Qed.

Lemma trimStart_white_prefix (s : string) : white_prefix (trimStart s) = None.
Proof.
  induction s as [s IH] using white_prefix_ind.
  rewrite trimStart_step. destruct (white_prefix s) as [r|] eqn:Hr; [by apply IH|done].
Qed.

Lemma trimStart_none (s : string) : white_prefix s = None -> trimStart s = s.
Proof. intros H. by rewrite trimStart_step, H. Qed.

Lemma blank_app (a b : string) :
  blank a = true -> trimStart (a +:+ b) = trimStart b.
Proof.
  unfold blank. induction a as [a IH] using white_prefix_ind.
  rewrite (trimStart_step a). destruct (white_prefix a) as [r|] eqn:Hr.
  - intros Hb. rewrite trimStart_step, (white_prefix_app _ _ _ Hr). by apply IH.
  - intros ->%String.eqb_eq. done.
Qed.

Lemma trimEnd_split (s : string) :
  exists r, s = trimEnd s +:+ r /\ blank r = true.
Proof.
  induction s as [|c s (r & Hs & Hr)]; [by exists EmptyString|].
  cbn [trimEnd]. destruct (blank (String c s)) eqn:Hb.
  - by exists (String c s).
  - exists r. by rewrite string_app_cons, <-Hs.
Qed.

Lemma trimEnd_white_prefix (s : string) :
  white_prefix s = None -> white_prefix (trimEnd s) = None.
Proof.
  intros Hs. destruct (trimEnd_split s) as (r & Heq & _).
  destruct (white_prefix (trimEnd s)) as [t|] eqn:Ht; [|done].
  apply (white_prefix_app _ _ r) in Ht. rewrite <-Heq in Ht. congruence.
Qed.

Lemma trimEnd_idempotent (s : string) : trimEnd (trimEnd s) = trimEnd s.
Proof.
  induction s as [|c s IH]; [done|]. cbn [trimEnd].
  destruct (blank (String c s)) eqn:Hb; [done|].
  cbn [trimEnd]. rewrite IH.
  destruct (blank (String c (trimEnd s))) eqn:Hb'; [|done].
  destruct (trimEnd_split s) as (r & Heq & Hr).
  assert (blank (String c s) = true) as Hc; [|congruence].
  unfold blank. rewrite Heq at 1. rewrite <-string_app_cons.
  rewrite (blank_app _ _ Hb'). exact Hr.
Qed.

Lemma trim_idempotent (s : string) : trim (trim s) = trim s.
Proof.
  unfold trim.
  rewrite (trimStart_none (trimEnd (trimStart s)))
    by apply trimEnd_white_prefix, trimStart_white_prefix.
  apply trimEnd_idempotent.
Qed.

Lemma trimStart_Forall (P : ascii -> Prop) (s : string) :
  Forall P (chars_of s) -> Forall P (chars_of (trimStart s)).
Proof.
  induction s as [s IH] using white_prefix_ind.
  rewrite trimStart_step. destruct (white_prefix s) as [r|] eqn:Hr; [|done].
  intros Hs. apply (IH r eq_refl). clear IH.
  destruct s as [|x [|y [|z s]]]; cbn [white_prefix] in Hr; try done.
  - destruct (white1 x); [|done]. injection Hr as <-. constructor.
  - apply Forall_cons in Hs as [_ Hs].
    destruct (white1 x); [by injection Hr as <-|].
    apply Forall_cons in Hs as [_ Hs].
    destruct (white2 x y); [by injection Hr as <-|done].
  - apply Forall_cons in Hs as [_ Hs].
    destruct (white1 x); [by injection Hr as <-|].
    apply Forall_cons in Hs as [_ Hs].
    destruct (white2 x y); [by injection Hr as <-|].
    apply Forall_cons in Hs as [_ Hs].
    destruct (white3 x y z); [by injection Hr as <-|done].
Qed.

Lemma trimEnd_Forall (P : ascii -> Prop) (s : string) :
  Forall P (chars_of s) -> Forall P (chars_of (trimEnd s)).
Proof.
  induction s as [|c s IH]; [done|]. cbn [trimEnd].
  destruct (blank (String c s)); [constructor|].
  intros [Hc Hs]%Forall_cons. constructor; [done|by apply IH].
Qed.

Lemma split_Forall (sep : ascii) (s : string) :
  Forall (fun piece => sep ∉ chars_of piece) (split sep s).
Proof.
  induction s as [|c s IH]; [repeat constructor; by intros ?%elem_of_nil|].
  cbn [split]. case_bool_decide as Hc.
  - constructor; [by intros ?%elem_of_nil|done].
  - destruct (split sep s) as [|piece pieces].
    + repeat constructor. cbn. intros [->|[]%elem_of_nil]%elem_of_cons. done.
    + apply Forall_cons in IH as [Hp Hps]. constructor; [|done].
      cbn. intros [->|?]%elem_of_cons; done.
Qed.

Lemma trim_empty (s : string) : trim s = EmptyString <-> blank s = true.
Proof.
  unfold trim, blank. split.
  - intros H. pose proof (trimStart_white_prefix s) as Hp.
    destruct (trimStart s) as [|c t] eqn:Ht; [done|].
    cbn [trimEnd] in H.
    destruct (blank (String c t)) eqn:Hb; [|done].
    unfold blank in Hb. by rewrite (trimStart_none _ Hp) in Hb.
  - by intros ->%String.eqb_eq.
Qed.

Lemma filter_nil_Forall {A} (P : A -> bool) (l : list A) :
  filter (fun x => P x) l = [] <-> Forall (fun x => P x = false) l.
Proof.
  induction l as [|x l IH]; [done|]. rewrite filter_cons, Forall_cons.
  destruct (P x); cbn; [split; [done|by intros []]|]. rewrite IH. naive_solver.
Qed.

(** X4: every name of [REPORT_NAMES] is non-empty, has no white space at
    either end and holds no comma; and there is no name at all, so that
    every report is exported, exactly when the variable holds nothing but
    commas and white space. *)
Theorem report_names_trimmed (variable : option string) :
  Forall (fun n => n <> EmptyString /\ trim n = n /\ ","%char ∉ chars_of n)
    (ReportsExport.REPORT_NAMES variable)
  /\ (ReportsExport.REPORT_NAMES variable = []
      <-> Forall (fun piece => blank piece = true)
            (split "," (default EmptyString variable))).
Proof.
  unfold ReportsExport.REPORT_NAMES. split.
  - apply Forall_forall.
    intros n [Hn (piece & -> & Hp)%list_elem_of_fmap]%list_elem_of_filter.
    split; [|split].
    + intros He. rewrite He in Hn. done.
    + apply trim_idempotent.
    + pose proof (split_Forall "," (default EmptyString variable)) as Hs.
      rewrite Forall_forall in Hs. specialize (Hs piece Hp).
      intros Hin.
      assert (Forall (fun c => c <> ","%char) (chars_of (trim piece))) as Hf.
      { apply trimEnd_Forall, trimStart_Forall, Forall_forall. intros c Hc ->. done. }
      rewrite Forall_forall in Hf. by apply (Hf _ Hin).
  - rewrite filter_nil_Forall, Forall_fmap. apply Forall_iff. intros piece. cbn.
    rewrite negb_false_iff, String.eqb_eq. apply trim_empty.
Qed.

(** ** Settings: the [.env] file and the command line *)

Section settings_facts.
Import Settings.

Lemma is_set_lookup (e e' : env) (k : string) :
  e' !! k = e !! k -> is_set e' k = is_set e k.
Proof. unfold is_set. by intros ->. Qed.

Lemma lookup_assign_ne (name v k : string) (e : env) :
  name <> k -> assign name v e !! k = e !! k.
Proof.
  intros Hne. unfold assign. destruct (String.eqb name EmptyString); [done|].
  by rewrite lookup_insert_ne.
Qed.

Lemma lookup_assign_eq (name v : string) (e : env) :
  name <> EmptyString -> assign name v e !! name = Some v.
Proof.
  intros Hne. unfold assign. destruct (String.eqb_spec name EmptyString); [done|].
  by rewrite lookup_insert_eq.
Qed.

Lemma loadEnv_line_keeps (e : env) (line k : string) :
  is_set e k = true -> loadEnv_line e line !! k = e !! k.
Proof.
  intros Hk. unfold loadEnv_line.
  destruct (match_line line) as [[name v]|]; [|done].
  destruct (is_set e (trim name)) eqn:Hn; [done|].
  apply lookup_assign_ne. intros Heq. rewrite Heq in Hn. congruence.
Qed.

Lemma loadEnv_lines_keep (lines : list string) (e : env) (k : string) :
  is_set e k = true -> foldl loadEnv_line e lines !! k = e !! k.
Proof.
  revert e. induction lines as [|line lines IH]; intros e Hk; [done|].
  cbn [foldl]. rewrite IH.
  - by apply loadEnv_line_keeps.
  - by rewrite (is_set_lookup e) by by apply loadEnv_line_keeps.
Qed.

(** X5: a variable that the environment already gives a value is never
    changed by the file [.env]. *)
Theorem loadEnv_keeps_environment (dotenv : option string) (e : env) (k : string) :
  is_set e k = true -> loadEnv dotenv e !! k = e !! k.
Proof.
  intros Hk. destruct dotenv as [content|]; [|done]. by apply loadEnv_lines_keep.
Qed.

Lemma is_set_assign_empty (name k : string) (e : env) :
  is_set e k = false -> is_set (assign name EmptyString e) k = false.
Proof.
  intros Hk. unfold assign. destruct (String.eqb name EmptyString); [done|].
  unfold is_set. destruct (decide (name = k)) as [->|Hne].
  - by rewrite lookup_insert_eq.
  - by rewrite lookup_insert_ne.
Qed.

Lemma loadEnv_lines_unset (lines : list string) (e : env) (k : string) :
  Forall (fun l => forall n v, match_line l = Some (n, v) -> trim n = k ->
                               trim v = EmptyString) lines ->
  is_set e k = false ->
  is_set (foldl loadEnv_line e lines) k = false.
Proof.
  revert e. induction lines as [|line lines IH]; intros e Hs Hk; [done|].
  apply Forall_cons in Hs as [Hl Hs]. cbn [foldl]. apply IH; [done|].
  unfold loadEnv_line. destruct (match_line line) as [[name v]|]; [|done].
  destruct (is_set e (trim name)); [done|].
  destruct (decide (trim name = k)) as [Heq|Hne].
  - rewrite (Hl name v eq_refl Heq). by apply is_set_assign_empty.
  - rewrite <-Hk. by apply is_set_lookup, lookup_assign_ne.
Qed.

(** X6: of the lines of [.env] for a variable that the environment does
    not set, the first one with a value wins: the variable gets the
    trimmed value of that line, whatever the lines after it say, and
    whatever lines without a value for it come before. *)
Theorem loadEnv_first_line_wins (content : string) (e : env)
    (before after : list string) (line name v : string) :
  split NL content = before ++ line :: after ->
  match_line line = Some (name, v) ->
  trim name <> EmptyString ->
  trim v <> EmptyString ->
  is_set e (trim name) = false ->
  Forall (fun l => forall n' v', match_line l = Some (n', v') -> trim n' = trim name ->
                                 trim v' = EmptyString)
    before ->
  loadEnv (Some content) e !! trim name = Some (trim v).
Proof.
  intros Hsplit Hline Hname Hv Hunset Hbefore. unfold loadEnv.
  change (ascii_of_N 10) with NL. rewrite Hsplit, foldl_app. cbn [foldl].
  set (e1 := foldl loadEnv_line e before).
  assert (is_set e1 (trim name) = false) as H1 by by apply loadEnv_lines_unset.
  assert (loadEnv_line e1 line !! trim name = Some (trim v)) as H2.
  { unfold loadEnv_line. rewrite Hline, H1. by apply lookup_assign_eq. }
  rewrite loadEnv_lines_keep; [done|].
  unfold is_set. rewrite H2. by destruct (String.eqb_spec (trim v) EmptyString).
Qed.

Lemma endsWith_cons (suf : string) (c : ascii) (s : string) :
  endsWith suf (String c s) = true ->
  String c s = suf \/ endsWith suf s = true.
Proof.
  cbn [endsWith]. intros [H%String.eqb_eq|H]%orb_true_iff; [by left|by right].
Qed.

Lemma ends_CR_terminator (s : string) :
  endsWith (String CR EmptyString) s = true -> has_line_terminator s = true.
Proof.
  induction s as [|c s IH]; [done|].
  intros [[= -> ->]|H]%endsWith_cons; [done|].
  cbn [has_line_terminator]. rewrite (IH H). by rewrite orb_true_r.
Qed.

Lemma span_ends (C : ascii -> bool) (x : ascii) (s : string) :
  endsWith (String x EmptyString) s = true ->
  (span C s).2 = EmptyString \/ endsWith (String x EmptyString) (span C s).2 = true.
Proof.
  intros Hs. induction s as [|c s IH]; [by left|].
  cbn [span]. destruct (C c); [|by right].
  destruct (span C s) as [p r] eqn:Hspan. cbn [snd] in *.
  apply endsWith_cons in Hs as [[= -> ->]|Hs]; [|by apply IH].
  cbn in Hspan. injection Hspan as _ <-. by left.
Qed.

Lemma match_line_CR (line : string) :
  endsWith (String CR EmptyString) line = true -> match_line line = None.
Proof.
  intros H. unfold match_line.
  pose proof (span_ends (fun c => negb (bool_decide (c = "#"%char))
                                  && negb (bool_decide (c = "="%char)))
                _ line H) as Hr.
  destruct (span _ line) as [name rest]. cbn [snd] in Hr.
  destruct name as [|n name]; [done|].
  destruct rest as [|r v]; [done|].
  destruct Hr as [|Hr]; [done|].
  apply endsWith_cons in Hr as [[= -> ->]|Hr].
  { by vm_compute. }
  rewrite (ends_CR_terminator v Hr).
  destruct r as [[] [] [] [] [] [] [] []]; done.
Qed.

(** X7: a line that ends in a carriage return does not match the pattern
    of [loadEnv], since [.] stops at a line terminator: a file [.env]
    with the line endings of Windows sets nothing. *)
Theorem loadEnv_ignores_CRLF (content : string) (e : env) :
  Forall (fun line => line = EmptyString \/ endsWith (String CR EmptyString) line = true)
    (split NL content) ->
  loadEnv (Some content) e = e.
Proof.
  unfold loadEnv. change (ascii_of_N 10) with NL.
  generalize (split NL content). intros lines.
  revert e. induction lines as [|line lines IH]; intros e Hl; [done|].
  apply Forall_cons in Hl as [Hline Hl]. cbn [foldl].
  rewrite IH by done. unfold loadEnv_line.
  destruct Hline as [->|Hline]; [done|]. by rewrite match_line_CR.
Qed.

(** *** The command line *)

Lemma present_Some (s : string) :
  s <> EmptyString -> Settings.present (Some s) = true.
Proof. intros H. cbn. by destruct (String.eqb_spec s EmptyString). Qed.

Lemma present_nonempty (a : option string) :
  Settings.present a = true -> exists s, a = Some s /\ s <> EmptyString.
Proof.
  destruct a as [s|]; [|done]. cbn.
  destruct (String.eqb_spec s EmptyString); [done|]. by exists s.
Qed.

Lemma or_else_Some (s : string) (b : option string) :
  s <> EmptyString -> or_else (Some s) b = Some s.
Proof. intros H. unfold or_else. by rewrite present_Some. Qed.

(** X8: the URL that [parseArgs] returns is never empty, whatever the
    command line, the environment and the file [.env]. *)
Theorem parseArgs_url_is_set (dotenv : option string) (argv : list string) (e : env) :
  Settings.present (Some (Settings.url (parseArgs dotenv argv e))) = true.
Proof.
  unfold parseArgs.
  destruct (if bool_decide _ then _ else _) as [[url user] password]. cbn -[or_else].
  unfold or_else at 1.
  destruct (Settings.present (or_else url _)) eqn:Hp; [|done].
  apply present_nonempty in Hp as (s & -> & Hs). by apply present_Some.
Qed.

Lemma parseArgs_args (dotenv : option string) (argv : list string) (e : env)
    (url user password : option string) :
  let args := foldl parseArg ∅ (drop 2 argv) in
  (args !! "url" = url -> Settings.present url = true ->
   Some (Settings.url (parseArgs dotenv argv e)) = url)
  /\ (args !! "user" = user -> Settings.present user = true ->
      Settings.user (parseArgs dotenv argv e) = user)
  /\ (args !! "password" = password -> Settings.present password = true ->
      Settings.password (parseArgs dotenv argv e) = password).
Proof.
  intros args. unfold parseArgs. fold args.
  repeat split; intros Ha (s & -> & Hs)%present_nonempty; rewrite Ha;
    repeat case_bool_decide; cbn; by rewrite !or_else_Some.
Qed.

Lemma match_arg_option (key : string) (v : string) :
  key ∈ ["url"; "user"; "password"; "env"] ->
  v <> EmptyString -> has_line_terminator v = false ->
  match_arg ("--" +:+ key +:+ "=" +:+ v) = Some (key, v).
Proof.
  intros Hkey Hv Ht. destruct v as [|c v]; [done|].
  repeat (apply elem_of_cons in Hkey as [->|Hkey]);
    [| | | |by apply elem_of_nil in Hkey];
    cbv -[has_line_terminator]; by rewrite Ht.
Qed.

Lemma foldl_parseArg_last (argv : list string) (arg : string) :
  (2 <= length argv)%nat ->
  foldl parseArg ∅ (drop 2 (argv ++ [arg]))
  = parseArg (foldl parseArg ∅ (drop 2 argv)) arg.
Proof. intros H. by rewrite drop_app_le, foldl_app by done. Qed.

(** X9: a [--url], [--user] or [--password] given last on the command
    line decides the setting, whatever the preset, the environment and
    the file [.env] say. *)
Theorem parseArgs_explicit_wins (dotenv : option string) (argv : list string)
    (e : env) (v : string) :
  (2 <= length argv)%nat ->
  v <> EmptyString ->
  has_line_terminator v = false ->
  Settings.url (parseArgs dotenv (argv ++ ["--url=" +:+ v]) e) = v
  /\ Settings.user (parseArgs dotenv (argv ++ ["--user=" +:+ v]) e) = Some v
  /\ Settings.password (parseArgs dotenv (argv ++ ["--password=" +:+ v]) e)
     = Some v.
Proof.
  intros Hargv Hv Ht. repeat split.
  - assert (Some (Settings.url (parseArgs dotenv (argv ++ ["--url=" +:+ v]) e))
            = Some v) as [= ->]; [|done].
    apply (proj1 (parseArgs_args _ _ _ (Some v) None None)); [|by apply present_Some].
    rewrite foldl_parseArg_last by done. unfold parseArg.
    change ("--url=" +:+ v) with ("--" +:+ "url" +:+ "=" +:+ v).
    rewrite (match_arg_option "url") by (done || set_solver).
    by rewrite lookup_insert_eq.
  - apply (proj1 (proj2 (parseArgs_args _ _ _ None (Some v) None)));
      [|by apply present_Some].
    rewrite foldl_parseArg_last by done. unfold parseArg.
    change ("--user=" +:+ v) with ("--" +:+ "user" +:+ "=" +:+ v).
    rewrite (match_arg_option "user") by (done || set_solver).
    by rewrite lookup_insert_eq.
  - apply (proj2 (proj2 (parseArgs_args _ _ _ None None (Some v))));
      [|by apply present_Some].
    rewrite foldl_parseArg_last by done. unfold parseArg.
    change ("--password=" +:+ v) with ("--" +:+ "password" +:+ "=" +:+ v).
    rewrite (match_arg_option "password") by (done || set_solver).
    by rewrite lookup_insert_eq.
Qed.

Lemma parseArgs_same_args (dotenv : option string) (argv argv' : list string) (e : env) :
  (forall k, k ∈ ["url"; "user"; "password"; "env"] ->
             foldl parseArg ∅ (drop 2 argv') !! k = foldl parseArg ∅ (drop 2 argv) !! k) ->
  parseArgs dotenv argv' e = parseArgs dotenv argv e.
Proof.
  intros H. unfold parseArgs.
  rewrite !(H "url"), !(H "user"), !(H "password"), !(H "env") by set_solver.
  done.
Qed.

(** X10: an argument that does not have the form [--key=value], or whose
    key is none of [url], [user], [password] and [env] once in camel
    case, changes nothing of what [parseArgs] returns. *)
Theorem parseArgs_ignores_others (dotenv : option string) (argv : list string)
    (e : env) (arg : string) :
  (forall key v, match_arg arg = Some (key, v) ->
                 camelCase key ∉ ["url"; "user"; "password"; "env"]) ->
  parseArgs dotenv (argv ++ [arg]) e = parseArgs dotenv argv e.
Proof.
  intros Harg. apply parseArgs_same_args. intros k Hk.
  destruct (decide (2 <= length argv)%nat) as [Hlen|Hlen].
  - rewrite foldl_parseArg_last by done. unfold parseArg.
    destruct (match_arg arg) as [[key v]|] eqn:Hm; [|done].
    apply lookup_insert_ne. intros Heq. eapply Harg; [done|]. by rewrite Heq.
  - rewrite !drop_ge; [done|lia|]. rewrite length_app. cbn. lia.
Qed.

(** X11: when the environment gives a value to each of the nine variables
    that [parseArgs] reads, the file [.env] does not change what it
    returns. *)
Theorem parseArgs_environment_first (dotenv : option string) (argv : list string) (e : env) :
  Forall (fun k => is_set e k = true) settings_names ->
  parseArgs dotenv argv e = parseArgs None argv e.
Proof.
  intros H. unfold parseArgs.
  assert (forall k, k ∈ settings_names -> loadEnv dotenv e !! k = loadEnv None e !! k) as Hk.
  { intros k Hk. rewrite Forall_forall in H. destruct dotenv as [content|]; [|done].
    by apply loadEnv_lines_keep, H. }
  rewrite !(Hk "ESPO_PROD_URL"), !(Hk "ESPO_PROD_USER"), !(Hk "ESPO_PROD_PASSWORD"),
    !(Hk "ESPO_DEV_URL"), !(Hk "ESPO_DEV_USER"), !(Hk "ESPO_DEV_PASSWORD"),
    !(Hk "ESPO_URL"), !(Hk "ESPO_USER"), !(Hk "ESPO_PASSWORD")
    by (unfold settings_names; set_solver).
  done.
Qed.

End settings_facts.

Lemma loadEnv_keeps_environment_witness :
  Settings.loadEnv (Some example_dotenv) {[ "ESPO_USER" := "root" ]} !! "ESPO_USER"
  = Some "root".
Proof.
  rewrite (loadEnv_keeps_environment (Some example_dotenv) {[ "ESPO_USER" := "root" ]}
             "ESPO_USER"); reflexivity.
Defined.

Lemma loadEnv_first_line_wins_witness :
  Settings.loadEnv (Some blank_first_dotenv) ∅ !! "ESPO_USER" = Some "admin".
Proof.
  apply (loadEnv_first_line_wins blank_first_dotenv ∅ ["# settings"; "ESPO_USER="]
           ["ESPO_USER=other"] "ESPO_USER = admin " "ESPO_USER " " admin ").
  - reflexivity.
  - reflexivity.
  - by vm_compute.
  - by vm_compute.
  - reflexivity.
  - constructor; [|constructor; [|constructor]].
    + intros n' v' H. by vm_compute in H.
    + intros n' v' H _. vm_compute in H. by injection H as <- <-.
Defined.

Lemma loadEnv_ignores_CRLF_witness :
  Settings.loadEnv (Some windows_dotenv) ∅ = ∅.
Proof.
  apply (loadEnv_ignores_CRLF windows_dotenv ∅).
  vm_compute. repeat (constructor; [first [by left | by right]|]). constructor.
Defined.

Lemma parseArgs_explicit_wins_witness :
  Settings.url
    (Settings.parseArgs None (node_argv ++ ["--url=http://crm.test"]) complete_environment)
  = "http://crm.test"
  /\ Settings.user
       (Settings.parseArgs None (node_argv ++ ["--user=http://crm.test"])
          complete_environment)
     = Some "http://crm.test"
  /\ Settings.password
       (Settings.parseArgs None (node_argv ++ ["--password=http://crm.test"])
          complete_environment)
     = Some "http://crm.test".
Proof.
  apply (parseArgs_explicit_wins None node_argv complete_environment "http://crm.test").
  - vm_compute. lia.
  - done.
  - reflexivity.
Defined.

Lemma parseArgs_ignores_others_witness :
  Settings.parseArgs (Some example_dotenv) (node_argv ++ ["--dry-run=1"]) ∅
  = Settings.parseArgs (Some example_dotenv) node_argv ∅.
Proof.
  apply (parseArgs_ignores_others (Some example_dotenv) node_argv ∅ "--dry-run=1").
  intros key v H. vm_compute in H. injection H as <- <-.
  apply (bool_decide_unpack _). by vm_compute.
Defined.

Lemma parseArgs_environment_first_witness :
  Settings.parseArgs (Some example_dotenv) node_argv complete_environment
  = Settings.parseArgs None node_argv complete_environment.
Proof.
  apply (parseArgs_environment_first (Some example_dotenv) node_argv complete_environment).
  repeat (constructor; [by vm_compute|]). constructor.
Defined.

(** ** The importers as a whole *)

Lemma outcomes_app (a b : list log_line) : outcomes (a ++ b) = (outcomes a + outcomes b)%nat.
Proof. unfold outcomes. by rewrite filter_app, length_app. Qed.

Section report_import.
Context {Σ : Type} (serve : Σ -> request -> Σ * reply).
Variable key : string.

(** One report: nothing is read; a line is logged exactly when the call
    returns. *)
Lemma upsert_effects (report : json) (w w' : world Σ) (c : completion unit) :
  ReportsImport.upsert serve key report w = (w', c) ->
  reads w' = reads w
  /\ outcomes (console w')
     = (outcomes (console w) + match c with Returned _ => 1 | Thrown _ => 0 end)%nat.
Proof.
  destruct (ToBoolean (get "name" report)) eqn:Hname; cycle 1.
  { rewrite upsert_invalid by done. intros [= <- <-]. split; [done|lia]. }
  destruct report as [| | | | |r]; try done.
  rewrite upsert_run by done. unfold upsert_steps. cbv zeta.
  destruct (negb (encodable (r !! "name")));
    [intros [= <- <-]; split; [done|cbn -[outcomes]; lia]|].
  destruct (report_reply "GET" _ _); [|intros [= <- <-]; split; [done|cbn -[outcomes]; lia]].
  destruct (report_reply _ _ _); intros [= <- <-]; (split; [done|]);
    [|cbn -[outcomes]; lia].
  cbn [console logged after_request]. rewrite outcomes_app. unfold report_line.
  destruct (ToBoolean (get "id" _)); reflexivity.
Qed.

Lemma report_step_effects (dir : directory) (file : string) (w w' : world Σ)
    (c : completion unit) :
  report_step serve key dir file w = (w', c) ->
  reads w' = reads w ++ [file]
  /\ outcomes (console w')
     = (outcomes (console w) + match c with Returned _ => 1 | Thrown _ => 0 end)%nat.
Proof.
  unfold report_step. rewrite bind_run. unfold readFileSync at 1.
  destruct (list_find _ dir) as [[i [f t]]|];
    [|intros [= <- <-]; split; [done|cbn -[outcomes]; lia]].
  rewrite bind_run. destruct t as [j|];
    [|intros [= <- <-]; split; [done|cbn -[outcomes]; lia]].
  unfold parse at 1. change (ret j ?w0) with (w0, Returned j). cbv beta iota.
  intros H. by apply upsert_effects in H.
Qed.

Lemma report_loop_effects (dir : directory) (files : list string) (w w' : world Σ)
    (c : completion unit) :
  for_of files (report_step serve key dir) w = (w', c) ->
  exists imported rest,
    files = imported ++ rest
    /\ outcomes (console w') = (outcomes (console w) + length imported)%nat
    /\ match c with
       | Returned _ => rest = [] /\ reads w' = reads w ++ files
       | Thrown _ => exists file rest', rest = file :: rest'
                                        /\ reads w' = reads w ++ imported ++ [file]
       end.
Proof.
  revert w. induction files as [|file files IH]; intros w.
  - intros [= <- <-]. exists [], []. cbn -[outcomes]. rewrite app_nil_r.
    repeat split; lia.
  - cbn [for_of]. rewrite bind_run.
    destruct (report_step serve key dir file w) as [w1 [[]|e]] eqn:Hstep;
      apply report_step_effects in Hstep as [Hr Hc].
    + intros (imported & rest & -> & Hc' & Hrest)%IH.
      exists (file :: imported), rest. split; [done|]. split; [cbn -[outcomes]; lia|].
      destruct c as [[]|e].
      * destruct Hrest as [-> ->]. by rewrite Hr, app_nil_r, <-app_assoc.
      * destruct Hrest as (f & rest' & -> & ->).
        exists f, rest'. by rewrite Hr, <-!app_assoc.
    + intros [= <- <-]. exists [], (file :: files).
      split; [done|]. split; [cbn -[outcomes]; lia|].
      exists file, files. done.
Qed.

(** X12: the report importer goes through the [.json] files in the order
    of the directory and stops at the first one that fails: the files
    read are those imported, each with its [Created] or [Updated] line,
    and, when [main] throws, the one file after them; no file after the
    failing one is read. *)
Theorem report_import_stops_at_first_failure (dir : directory) (w : world Σ) :
  let files := ReportsImport.files_of dir in
  let r := ReportsImport.main serve key (Some dir) w in
  exists imported rest,
    files = imported ++ rest
    /\ outcomes (console r.1) = (outcomes (console w) + length imported)%nat
    /\ match r.2 with
       | Returned _ => rest = [] /\ reads r.1 = reads w ++ files
       | Thrown _ => exists file rest', rest = file :: rest'
                                        /\ reads r.1 = reads w ++ imported ++ [file]
       end.
Proof.
  intros files r. subst r. unfold ReportsImport.main. fold files.
  rewrite bind_run. change (log ?l w) with (logged w l, Returned tt). cbv beta iota.
  rewrite bind_run. fold (report_step serve key dir).
  destruct (for_of files _ _) as [w1 [[]|e]] eqn:Hloop;
    apply report_loop_effects in Hloop as (imported & rest & Hf & Hc & Hrest);
    exists imported, rest; (split; [done|]).
  - cbn -[outcomes] in *. rewrite outcomes_app in *. cbn -[outcomes] in *.
    split; [|done]. change (outcomes [Info _]) with 0%nat in *. lia.
  - cbn -[outcomes] in *. rewrite outcomes_app in *.
    split; [|done]. change (outcomes [Info _]) with 0%nat in *. lia.
Qed.

End report_import.

Section workflow_import.
Context {Σ : Type} (serve : Σ -> request -> Σ * reply).
Variable new_URL : string -> string -> option URL.
Variable base64 : string -> string.

Lemma authenticate_run (baseUrl u p : string) (w : world Σ) :
  let call :=
    called serve workflow_reply
      (request_for new_URL baseUrl "/api/v1/App/user"
         [("Espo-Authorization", base64 (u +:+ ":" +:+ p))] "GET" (Some JNull))
      (logged w (Info "Authenticating...")) in
  WorkflowsImport.authenticate serve new_URL base64 baseUrl u p w
  = match call.2 with
    | Returned response =>
        if has_token response
        then (logged call.1 (Info "Authentication successful!"),
              Returned (template (get "token" response)))
        else (call.1, Returned (base64 (u +:+ ":" +:+ p)))
    | Thrown e => (call.1, Thrown (Error ("Authentication failed: " +:+ message e)))
    end.
Proof.
  intros call. unfold WorkflowsImport.authenticate.
  rewrite bind_run. change (log ?l w) with (logged w l, Returned tt). cbv beta iota.
  rewrite try_catch_run, bind_run, apiRequest_run. fold call.
  destruct call as [w1 [response|e]]; [|done]. cbn [fst snd].
  unfold has_token. by destruct (truthy response && _).
Qed.

Lemma processFile_sent url dir hs file t (w : world Σ) :
  exists new,
    sent (WorkflowsImport.processFile serve new_URL url dir hs file t w).1 = sent w ++ new.
Proof.
  destruct (document dir file) as [e|d] eqn:Hdoc.
  - exists []. rewrite processFile_run. unfold processFile_steps. rewrite Hdoc.
    cbn. by rewrite app_nil_r.
  - destruct (processFile_requests serve new_URL url dir hs file t w d Hdoc) as [ex ->].
    by eexists.
Qed.

Lemma importFiles_sent url dir hs files t (w : world Σ) :
  exists new,
    sent (WorkflowsImport.importFiles serve new_URL url dir hs files t w).1 = sent w ++ new.
Proof.
  revert t w. induction files as [|file files IH]; intros t w.
  - exists []. cbn. by rewrite app_nil_r.
  - cbn [WorkflowsImport.importFiles]. rewrite bind_run.
    destruct (processFile_sent url dir hs file t w) as (new1 & H1).
    destruct (processFile_outcome serve new_URL url dir hs file t w) as (w1 & l & Hrun & _).
    rewrite Hrun in *. cbn [fst] in H1.
    destruct (IH (tally_line t l) w1) as (new2 & H2).
    exists (new1 ++ new2). by rewrite H2, H1, app_assoc.
Qed.

(** What [import] does when there is nothing to import or nobody to
    import it as. *)
Lemma import_idle (args : Settings.arguments) (inputDir : option (completion directory))
    (w : world Σ) :
  ready args inputDir = false ->
  let r := WorkflowsImport.import serve new_URL base64 args inputDir w in
  sent r.1 = sent w /\ reads r.1 = reads w /\ remote r.1 = remote w
  /\ r.2 = match inputDir with
           | Some (Returned dir) =>
               Returned (if bool_decide (WorkflowsImport.files_of dir = [])
                         then WorkflowsImport.Skipped
                         else WorkflowsImport.Exit 1)
           | Some (Thrown e) => Thrown e
           | None => Returned WorkflowsImport.Skipped
           end.
Proof.
  intros Hready r. subst r. revert Hready.
  unfold WorkflowsImport.import, ready. rewrite bind_run.
  change (log ?l w) with (logged w l, Returned tt). cbv beta iota.
  destruct inputDir as [[dir|e]|]; [|done|done]. cbv zeta.
  destruct (WorkflowsImport.files_of dir) as [|file files] eqn:Hfiles; [done|].
  rewrite (bool_decide_false (length (file :: files) = 0%nat)) by done.
  rewrite (bool_decide_false (file :: files = [])) by done. cbn [negb andb].
  rewrite bind_run. change (log ?l ?w0) with (logged w0 l, Returned tt). cbv beta iota.
  destruct (WorkflowsImport.present (Settings.user args)); [|done].
  destruct (WorkflowsImport.present (Settings.password args)); done.
Qed.

(** What [import] does when it has both. *)
Lemma import_ready (args : Settings.arguments) (inputDir : option (completion directory))
    (w : world Σ) :
  ready args inputDir = true ->
  let r := WorkflowsImport.import serve new_URL base64 args inputDir w in
  match new_URL "/api/v1/App/user" (Settings.url args) with
  | Some url =>
      exists more,
        sent r.1 = sent w ++ login base64 url (default EmptyString (Settings.user args))
                               (default EmptyString (Settings.password args))
                             :: more
  | None =>
      sent r.1 = sent w /\ reads r.1 = reads w /\ remote r.1 = remote w
      /\ r.2 = Returned (WorkflowsImport.Exit 1)
  end.
Proof.
  intros Hready r. subst r. revert Hready.
  unfold WorkflowsImport.import, ready. rewrite bind_run.
  change (log ?l w) with (logged w l, Returned tt). cbv beta iota.
  destruct inputDir as [[dir|e]|]; [|done|done]. cbv zeta.
  destruct (WorkflowsImport.files_of dir) as [|file files] eqn:Hfiles; [done|].
  rewrite (bool_decide_false (length (file :: files) = 0%nat)) by done.
  rewrite (bool_decide_false (file :: files = [])) by done. cbn [negb andb].
  rewrite bind_run. change (log ?l ?w0) with (logged w0 l, Returned tt). cbv beta iota.
  destruct (WorkflowsImport.present (Settings.user args)); [|done].
  destruct (WorkflowsImport.present (Settings.password args)); [|done].
  intros _. cbn [negb orb andb]. rewrite bind_run, try_catch_run, bind_run.
  rewrite authenticate_run. cbv zeta. unfold request_for.
  destruct (new_URL "/api/v1/App/user" (Settings.url args)) as [url|];
    cbn [fmap option_fmap option_map called]; [|done].
  fold (login base64 url (default EmptyString (Settings.user args))
          (default EmptyString (Settings.password args))).
  set (req := login _ _ _ _).
  set (w1 := after_request _ req _).
  assert (sent w1 = sent w ++ [req]) as Hw1 by done. clearbody w1.
  cbn [fst snd].
  destruct (workflow_reply _) as [response|e]; [|by exists []].
  assert (forall token (w2 : world Σ), sent w2 = sent w ++ [req] ->
    exists more,
      sent ((let authHeaders := [("Espo-Authorization", token)] in
             WorkflowsImport.importFiles serve new_URL (Settings.url args) dir authHeaders
               (file :: files) (WorkflowsImport.Tally 0 0 0) ≫= fun t =>
             log (Info "Import Summary:") ≫= fun _ =>
             mret (WorkflowsImport.Summary t)) w2).1
      = sent w ++ req :: more) as Hrest.
  { intros token w2 Hw2. cbv zeta. rewrite bind_run.
    destruct (importFiles_sent (Settings.url args) dir [("Espo-Authorization", token)]
                (file :: files) (WorkflowsImport.Tally 0 0 0) w2) as (new & Hnew).
    destruct (importFiles_outcome serve new_URL (Settings.url args) dir
                [("Espo-Authorization", token)]
                (file :: files) (WorkflowsImport.Tally 0 0 0) w2)
      as (w3 & lines & Hrun & _).
    rewrite Hrun in *. cbn [fst] in Hnew. exists new. cbv beta iota.
    rewrite bind_run. change (log ?l ?w0) with (logged w0 l, Returned tt).
    cbv beta iota. change (sent w3 = sent w ++ req :: new).
    by rewrite Hnew, Hw2, <-app_assoc. }
  destruct (has_token response); apply Hrest; done.
Qed.

(** X13: the workflow importer contacts the remote only when there are
    workflow files and both a user and a password: then its first request
    is the login, for the URL that [new URL] makes of the login endpoint
    and the base URL, and where it makes none the importer sends nothing
    and ends with exit code 1. Otherwise it sends nothing and reads no
    file but [.env]: it ends with exit code 1 when only the credentials
    are missing, with a plain return when there is no directory or no
    workflow file in it (credentials or not), and it throws what the
    listing of the directory or the read of [.env] throws. *)
Theorem workflow_import_contacts_remote (dotenv : option (completion string))
    (argv : list string) (env : Settings.env)
    (inputDir : option (completion directory)) (w : world Σ) :
  let r := WorkflowsImport.main serve new_URL base64 dotenv argv env inputDir w in
  match settings dotenv argv env with
  | Some args =>
      if ready args inputDir then
        match new_URL "/api/v1/App/user" (Settings.url args) with
        | Some url =>
            exists more,
              sent r.1
              = sent w ++ login base64 url (default EmptyString (Settings.user args))
                            (default EmptyString (Settings.password args))
                          :: more
        | None =>
            sent r.1 = sent w /\ reads r.1 = reads w ++ settings_reads dotenv
            /\ remote r.1 = remote w
            /\ r.2 = Returned (WorkflowsImport.Exit 1)
        end
      else
        sent r.1 = sent w /\ reads r.1 = reads w ++ settings_reads dotenv
        /\ remote r.1 = remote w
        /\ r.2 = match inputDir with
                 | Some (Returned dir) =>
                     Returned (if bool_decide (WorkflowsImport.files_of dir = [])
                               then WorkflowsImport.Skipped
                               else WorkflowsImport.Exit 1)
                 | Some (Thrown e) => Thrown e
                 | None => Returned WorkflowsImport.Skipped
                 end
  | None =>
      sent r.1 = sent w /\ reads r.1 = reads w ++ [".env"] /\ remote r.1 = remote w
      /\ exists e, dotenv = Some (Thrown e) /\ r.2 = Thrown e
  end.
Proof.
  intros r. subst r.
  destruct (settings dotenv argv env) as [args|] eqn:Hargs; cycle 1.
  { destruct dotenv as [[content|e]|]; try done. rewrite main_unreadable.
    repeat split; try done. by exists e. }
  rewrite (main_run _ _ _ _ _ _ _ _ _ Hargs).
  destruct (ready args inputDir) eqn:Hready.
  - pose proof (import_ready args inputDir (settings_read dotenv w) Hready) as H.
    cbv zeta in H. by destruct (new_URL "/api/v1/App/user" (Settings.url args)).
  - by apply (import_idle args inputDir (settings_read dotenv w)).
Qed.


End workflow_import.

Section authentication.
Context {Σ : Type} (serve : Σ -> request -> Σ * reply).
Variable new_URL : string -> string -> option URL.
Variable base64 : string -> string.

Lemma beside_files_step (σ : Σ * written) (req : request) :
  beside_files serve σ req = (((serve σ.1 req).1, σ.2), (serve σ.1 req).2).
Proof. unfold beside_files. by destruct (serve σ.1 req). Qed.

Lemma export_authenticate_run (baseUrl u p : string) (w : world (Σ * written)) :
  let call :=
    called (beside_files serve) workflow_export_reply
      (request_for new_URL baseUrl "/api/v1/App/user"
         [("Espo-Authorization", base64 (u +:+ ":" +:+ p))] "GET" (Some JNull))
      (logged w (Info "Authenticating...")) in
  WorkflowsExport.authenticate serve new_URL base64 baseUrl u p w
  = match call.2 with
    | Returned response =>
        if has_token response
        then (logged call.1 (Info "Authentication successful!"),
              Returned (template (get "token" response)))
        else (call.1, Returned (base64 (u +:+ ":" +:+ p)))
    | Thrown e => (call.1, Thrown (Error ("Authentication failed: " +:+ message e)))
    end.
Proof.
  intros call. unfold WorkflowsExport.authenticate.
  rewrite bind_run. change (log ?l w) with (logged w l, Returned tt). cbv beta iota.
  rewrite try_catch_run, bind_run, workflow_export_apiRequest_run. fold call.
  destruct call as [w1 [response|e]]; [|done]. cbn [fst snd].
  unfold has_token. by destruct (truthy response && _).
Qed.

(** X15: [authenticate], in both workflow scripts, sends at most one
    request, a [GET] without a body to the path and the query that
    [new URL] makes of [/api/v1/App/user] and the base URL, and none where
    this makes no URL; every failure, that one included, leaves it as
    an [Error] whose message starts with [Authentication failed: ]. *)
Theorem authenticate_sends_one_login (baseUrl u p : string) (w : world Σ)
    (wx : world (Σ * written)) :
  let imported := WorkflowsImport.authenticate serve new_URL base64 baseUrl u p w in
  let exported := WorkflowsExport.authenticate serve new_URL base64 baseUrl u p wx in
  let request := (fun url => login base64 url u p) <$> new_URL "/api/v1/App/user" baseUrl in
  sent imported.1 = sent w ++ option_list request
  /\ sent exported.1 = sent wx ++ option_list request
  /\ (forall url, target (login base64 url u p) = ("GET", pathname url +:+ search url)
                  /\ body (login base64 url u p) = None)
  /\ (request = None ->
      imported.2 = Thrown (Error "Authentication failed: Invalid URL")
      /\ exported.2 = Thrown (Error "Authentication failed: Invalid URL"))
  /\ (forall e, imported.2 = Thrown e \/ exported.2 = Thrown e ->
        exists cause, e = Error ("Authentication failed: " +:+ cause)).
Proof.
  intros imported exported request. subst imported exported request.
  rewrite authenticate_run, export_authenticate_run. cbv zeta. unfold request_for.
  fold (login base64).
  destruct (new_URL "/api/v1/App/user" baseUrl) as [url|];
    cbn [fmap option_fmap option_map called option_list].
  - fold (login base64 url u p). split; [|split; [|split; [|split]]].
    + cbn [fst snd]. destruct (workflow_reply _) as [j|e]; [by destruct (has_token j)|done].
    + cbn [fst snd].
      destruct (workflow_export_reply _) as [j|e]; [by destruct (has_token j)|done].
    + done.
    + done.
    + intros e [H|H]; cbn [fst snd] in H.
      * destruct (workflow_reply _) as [j|e']; [by destruct (has_token j)|].
        injection H as <-. by eexists.
      * destruct (workflow_export_reply _) as [j|e']; [by destruct (has_token j)|].
        injection H as <-. by eexists.
  - cbn [fst snd]. rewrite !app_nil_r. repeat split; try done.
    intros e [[= <-]|[= <-]]; by eexists.
Qed.

(** X16: when the login is answered with 404 the two scripts part: the
    importer, whose [apiRequest] maps 404 to [null], goes on with the
    base64 credential as its token, while the exporter fails. *)
Theorem authenticate_not_found (baseUrl u p : string) (w : world Σ)
    (wx : world (Σ * written)) (url : URL) (res : response) :
  new_URL "/api/v1/App/user" baseUrl = Some url ->
  (serve (remote w) (login base64 url u p)).2 = Reply res ->
  (serve (remote wx).1 (login base64 url u p)).2 = Reply res ->
  status res = 404 ->
  (WorkflowsImport.authenticate serve new_URL base64 baseUrl u p w).2
  = Returned (base64 (u +:+ ":" +:+ p))
  /\ (WorkflowsExport.authenticate serve new_URL base64 baseUrl u p wx).2
     = Thrown (Error ("Authentication failed: API Error 404: " +:+ chars (data res))).
Proof.
  intros Hurl Hw Hwx Hstatus.
  rewrite authenticate_run, export_authenticate_run. cbv zeta.
  rewrite !(request_for_Some _ _ _ _ _ _ _ Hurl), !called_request.
  fold (login base64 url u p). cbn [fst snd].
  change (remote (logged ?w0 _)) with (remote w0). rewrite beside_files_step.
  cbn [fst snd]. rewrite Hw, Hwx. cbn [workflow_reply workflow_export_reply].
  unfold workflow_import_result, workflow_export_result. rewrite Hstatus. done.
Qed.

End authentication.

Section existence.
Context {Σ : Type} (serve : Σ -> request -> Σ * reply).
Variable new_URL : string -> string -> option URL.


End existence.


Lemma authenticate_not_found_witness :
  (WorkflowsImport.authenticate (always not_found) localhost (fun s => s)
     "http://localhost:8080" "admin" "secret" (start tt)).2
  = Returned "admin:secret"
  /\ (WorkflowsExport.authenticate (always not_found) localhost (fun s => s)
        "http://localhost:8080" "admin" "secret" fresh).2
     = Thrown (Error "Authentication failed: API Error 404: Not Found").
Proof.
  apply (authenticate_not_found (always not_found) localhost (fun s => s)
           "http://localhost:8080" "admin" "secret"
           (start tt) fresh
           {| protocol := "http:"; hostname := "localhost"; port := "8080";
              pathname := "/api/v1/App/user"; search := EmptyString |}
           (Response 404 (Text "Not Found" None)));
    reflexivity.
Defined.

(** ** The sanitizers, one after the other *)

Lemma sanitizer_twice (d d' : direction) (r : obj) :
  code_excluded d' ⊆ code_excluded d ->
  sanitizer d (sanitizer d' r) = sanitizer d r
  /\ sanitizer d' (sanitizer d r) = sanitizer d r.
Proof.
  intros Hsub. split; apply map_eq; intros k;
    rewrite !sanitizer_delete_all, !lookup_delete_all;
    repeat case_decide; try done;
    match goal with H : _ ∈ code_excluded d' |- _ => by apply Hsub in H end.
Qed.

(** X17: the sanitizers compose: what the importer sends for a report
    that went through [sanitize] on export is what it sends for the
    report itself, and each of the three sanitizers is idempotent. *)
Theorem sanitizers_compose (r : obj) :
  ReportsImport.sanitizeForImport (ReportsExport.sanitize r)
  = ReportsImport.sanitizeForImport r
  /\ ReportsExport.sanitize (ReportsImport.sanitizeForImport r)
     = ReportsImport.sanitizeForImport r
  /\ (forall d, sanitizer d (sanitizer d r) = sanitizer d r).
Proof.
  split; [|split].
  - apply (sanitizer_twice ImportReport ExportReport), (bool_decide_unpack _).
    by vm_compute.
  - apply (sanitizer_twice ImportReport ExportReport), (bool_decide_unpack _).
    by vm_compute.
  - intros d. by apply (sanitizer_twice d d).
Qed.

(** ** The query of the lookup by name *)

(** X18: the name of a report cannot break the query of the lookup: what
    [encodeURIComponent] makes of it, and what follows [filters[name]=],
    holds only unreserved characters and [%], so none of [& = # ? / +]
    nor a space, and a name of unreserved characters is passed as it
    is. *)
Theorem lookup_query_is_safe (name : value) :
  exists q,
    lookup_path name = "/api/v1/Report?maxSize=1&filters[name]=" +:+ q
    /\ encodeURIComponent (template name) = (if encodable name then Some q else None)
    /\ Forall (fun x => unreserved x = true \/ x = "%"%char) (chars_of q)
    /\ Forall (fun x => x ∉ chars_of "&=#?/+ ") (chars_of q)
    /\ (Forall (fun x => unreserved x = true) (chars_of (template name)) ->
        q = template name).
Proof.
  exists (percent_encode (template name)). split; [done|].
  split; [unfold encodeURIComponent, encodable; by destruct (lone_surrogate _)|].
  split; [apply percent_encode_safe|]. split; [|apply percent_encode_unreserved].
  eapply Forall_impl; [apply percent_encode_safe|].
  intros x [Hx| ->] Hin; [|by apply (bool_decide_pack _) in Hin; vm_compute in Hin].
  cbn in Hin. repeat (apply elem_of_cons in Hin as [->|Hin]; [by vm_compute in Hx|]).
  by apply elem_of_nil in Hin.
Qed.

(** ** The report exporter *)

Lemma endsWith_app (a suf : string) : endsWith suf (a +:+ suf) = true.
Proof.
  induction a as [|c a IH].
  - change (EmptyString +:+ suf) with suf. destruct suf; cbn [endsWith];
      by rewrite String.eqb_refl.
  - rewrite string_app_cons. cbn [endsWith]. by rewrite IH, orb_true_r.
Qed.

Lemma mret_run {Σ A} (a : A) (w : world Σ) : (mret a : M Σ A) w = (w, Returned a).
Proof. reflexivity. Qed.

Lemma log_run {Σ} (l : log_line) (w : world Σ) : log l w = (logged w l, Returned tt).
Proof. reflexivity. Qed.

Lemma member_run {Σ} (k : string) (x : json) (w : world Σ) :
  member k x w
  = (w, if is_null x
        then Thrown (TypeError ("Cannot read properties of null (reading '" +:+ k +:+ "')"))
        else Returned (get k x)).
Proof. by destruct x. Qed.

Lemma lift_run {Σ A} (c : completion A) (w : world (Σ * written)) :
  ReportsExport.lift c w = (w, c).
Proof. by destruct c. Qed.

Section report_export.
Context {Σ : Type} (serve : Σ -> request -> Σ * reply).
Variable DEV_KEY : string.
Variable refused : string -> bool.
Variable mkdir_error : option exn.

Lemma export_api_run method urlPath (w : world (Σ * written)) :
  let q := report_query DEV_KEY method urlPath in
  ReportsExport.api serve DEV_KEY method urlPath w
  = (after_request w q ((serve (remote w).1 q).1, (remote w).2),
     report_export_reply method urlPath (serve (remote w).1 q).2).
Proof.
  intros q. unfold ReportsExport.api. fold (report_query DEV_KEY method urlPath). fold q.
  rewrite bind_run, send_run, beside_files_step. cbn [fst snd].
  destruct (serve (remote w).1 q) as [σ [res|m]]; cbn [fst snd report_export_reply]; [|done].
  destruct (ReportsExport.ok res); cbn [negb]; [|done].
  by destruct (JSON_parse (data res)).
Qed.

Lemma sanitize_value_object (full out : json) :
  ReportsExport.sanitize_value full = Returned out ->
  forall m, out = JObj m -> Forall (fun k => m !! k = None) (code_excluded ExportReport).
Proof.
  destruct full; cbn; intros [= <-] m' [= <-].
  apply Forall_forall. intros k Hk.
  by apply (sanitizer_removes_exactly ExportReport).
Qed.

Lemma fileNameFor_returned (out : json) (name : string) :
  ReportsExport.fileNameFor out = Returned name ->
  exists m n, out = JObj m /\ m !! "name" = Some (JStr n)
              /\ name = ReportsExport.safe_name n.
Proof.
  unfold ReportsExport.fileNameFor. destruct out as [| | | | |m]; try done.
  cbn [get]. destruct (m !! "name") as [[| | |n| |]|] eqn:Hn; try done.
  intros [= <-]. by exists m, n.
Qed.

Lemma export_effects (r : json) (w w' : world (Σ * written)) (c : completion unit) :
  ReportsExport.export serve DEV_KEY refused r w = (w', c) ->
  exists new,
    files w' = files w ++ new
    /\ Forall (fun f => exported_report f /\ refused f.1 = false) new
    /\ sent w' = sent w ++ (if is_null r then [] else [report_detail DEV_KEY r])
    /\ reads w' = reads w
    /\ (c = Returned tt -> length new = 1%nat).
Proof.
  unfold ReportsExport.export. rewrite bind_run, member_run.
  destruct (is_null r) eqn:Hnull.
  { intros [= <- <-]. exists []. by rewrite !app_nil_r. }
  rewrite bind_run, export_api_run. cbv zeta.
  fold (report_detail DEV_KEY r).
  set (w1 := after_request _ _ _).
  assert (files w1 = files w /\ sent w1 = sent w ++ [report_detail DEV_KEY r]
          /\ reads w1 = reads w) as (Hf1 & Hs1 & Hr1) by done.
  clearbody w1.
  destruct (report_export_reply _ _ _) as [full|e];
    [|intros [= <- <-]; exists []; by rewrite app_nil_r].
  rewrite bind_run, lift_run.
  destruct (ReportsExport.sanitize_value full) as [out|e] eqn:Hout;
    [|intros [= <- <-]; exists []; by rewrite app_nil_r].
  rewrite bind_run, lift_run.
  destruct (ReportsExport.fileNameFor out) as [name|e] eqn:Hname;
    [|intros [= <- <-]; exists []; by rewrite app_nil_r].
  rewrite bind_run. unfold writeFileSync at 1.
  destruct (refused (name +:+ ".json")) eqn:Hrefused;
    [intros [= <- <-]; exists []; by rewrite app_nil_r|].
  rewrite log_run.
  intros [= <- <-]. exists [(name +:+ ".json", out)].
  split; [by rewrite <-Hf1|]. split; [|done].
  repeat constructor; [|done].
  apply fileNameFor_returned in Hname as (m & n & -> & Hn & ->).
  exists m, n. repeat split; try done. by eapply sanitize_value_object.
Qed.

Lemma export_loop_effects (rs : list json) (w w' : world (Σ * written))
    (c : completion unit) :
  for_of rs (ReportsExport.export serve DEV_KEY refused) w = (w', c) ->
  exists new k,
    files w' = files w ++ new
    /\ Forall (fun f => exported_report f /\ refused f.1 = false) new
    /\ sent w' = sent w ++ (report_detail DEV_KEY
                            <$> filter (fun r => negb (is_null r)) (take k rs))
    /\ reads w' = reads w
    /\ (c = Returned tt -> k = length rs /\ length new = length rs).
Proof.
  revert w. induction rs as [|r rs IH]; intros w.
  - intros [= <- <-]. exists [], 0%nat. by rewrite !app_nil_r.
  - cbn [for_of]. rewrite bind_run.
    destruct (ReportsExport.export serve DEV_KEY refused r w) as [w1 [[]|e]] eqn:Hstep;
      apply export_effects in Hstep as (new1 & Hf1 & Hn1 & Hs1 & Hr1 & Hl1).
    + intros (new2 & k & Hf2 & Hn2 & Hs2 & Hr2 & Hl2)%IH.
      exists (new1 ++ new2), (S k).
      split; [by rewrite Hf2, Hf1, app_assoc|].
      split; [by apply Forall_app|].
      split.
      { rewrite Hs2, Hs1, <-app_assoc. f_equal. cbn [take].
        rewrite filter_cons. by destruct (is_null r). }
      split; [congruence|].
      intros Hc. destruct (Hl2 Hc) as [-> Hlen]. rewrite length_app, Hl1 by done.
      cbn. by rewrite Hlen.
    + intros [= <- <-]. exists new1, 1%nat.
      split; [done|]. split; [done|]. split; [|done].
      rewrite Hs1. f_equal. cbn [take]. rewrite take_0, filter_cons, filter_nil.
      by destruct (is_null r).
Qed.

Lemma report_main_effects (names : list string) (w w' : world (Σ * written))
    (c : completion unit) :
  ReportsExport.main serve DEV_KEY refused mkdir_error names w = (w', c) ->
  exists qs new,
    sent w' = sent w ++ qs
    /\ Forall (fun q => exists urlPath, q = report_query DEV_KEY "GET" urlPath) qs
    /\ files w' = files w ++ new
    /\ Forall (fun f => exported_report f /\ refused f.1 = false) new
    /\ reads w' = reads w.
Proof.
  unfold ReportsExport.main. rewrite bind_run. unfold mkdirSync at 1.
  destruct mkdir_error as [e|].
  { intros [= <- <-]. exists [], []. by rewrite !app_nil_r. }
  rewrite mret_run, bind_run, export_api_run. cbv zeta.
  fold (report_listing DEV_KEY).
  set (w1 := after_request _ _ _).
  assert (files w1 = files w /\ sent w1 = sent w ++ [report_listing DEV_KEY]
          /\ reads w1 = reads w) as (Hf1 & Hs1 & Hr1) by done.
  clearbody w1.
  assert (Forall (fun q => exists urlPath, q = report_query DEV_KEY "GET" urlPath)
            [report_listing DEV_KEY]) as Hlisting by (repeat constructor; by eexists).
  destruct (report_export_reply _ _ _) as [listing|e];
    [|intros [= <- <-]; exists [report_listing DEV_KEY], []; by rewrite app_nil_r].
  rewrite bind_run, member_run.
  destruct (is_null listing);
    [intros [= <- <-]; exists [report_listing DEV_KEY], []; by rewrite app_nil_r|].
  rewrite bind_run, lift_run.
  destruct (ReportsExport.filtered _ _) as [sel|e];
    [|intros [= <- <-]; exists [report_listing DEV_KEY], []; by rewrite app_nil_r].
  rewrite bind_run, log_run, bind_run, lift_run.
  destruct (iterate "filtered" sel) as [rs|e];
    [|intros [= <- <-]; exists [report_listing DEV_KEY], []; by rewrite app_nil_r].
  intros (new & k & Hf & Hn & Hs & Hr & _)%export_loop_effects.
  exists (report_listing DEV_KEY
          :: (report_detail DEV_KEY <$> filter (fun r => negb (is_null r)) (take k rs))),
    new.
  split; [by rewrite Hs; cbn [sent logged]; rewrite Hs1, <-app_assoc|].
  split.
  { constructor; [by eexists|]. apply Forall_fmap, Forall_forall. intros r _.
    by eexists. }
  split; [rewrite Hf; f_equal; exact Hf1|].
  split; [done|]. by rewrite Hr.
Qed.

(** X19: export-reports.js only reads: every request that [main] sends is
    a [GET] without a body whose only header is the API key, and no file
    is read. *)
Theorem report_export_only_reads (names : list string) (w : world (Σ * written)) :
  let r := ReportsExport.main serve DEV_KEY refused mkdir_error names w in
  exists qs,
    sent r.1 = sent w ++ qs
    /\ Forall (fun q => read_only q /\ headers q = [("X-Api-Key", DEV_KEY)]) qs
    /\ reads r.1 = reads w.
Proof.
  intros r. subst r.
  destruct (ReportsExport.main _ _ _ _ _ _) as [w' c] eqn:Hrun.
  apply report_main_effects in Hrun as (qs & new & Hs & Hq & _ & _ & Hr).
  exists qs. split; [done|]. split; [|done].
  eapply Forall_impl; [exact Hq|]. by intros q [urlPath ->].
Qed.

Lemma safe_name_file (n : string) :
  endsWith ".json" (ReportsExport.safe_name n +:+ ".json") = true
  /\ startsWith "_" (ReportsExport.safe_name n +:+ ".json") = false.
Proof.
  split; [apply endsWith_app|].
  destruct (safe_name_tidy_aux n) as (_ & Hl & _).
  destruct (ReportsExport.safe_name n) as [|c s]; [done|].
  by rewrite string_app_cons.
Qed.

(** X20: every file that export-reports.js writes holds an object with a
    string [name] and without the fields that [sanitize] removes, under
    the file name made of that name; the file name ends in [.json] and
    does not start with an underscore, so that the importer takes it. *)
Theorem report_export_files (names : list string) (w : world (Σ * written)) :
  let r := ReportsExport.main serve DEV_KEY refused mkdir_error names w in
  exists new,
    files r.1 = files w ++ new
    /\ Forall (fun f => exported_report f
                        /\ endsWith ".json" f.1 = true
                        /\ startsWith "_" f.1 = false) new.
Proof.
  intros r. subst r.
  destruct (ReportsExport.main _ _ _ _ _ _) as [w' c] eqn:Hrun.
  apply report_main_effects in Hrun as (qs & new & _ & _ & Hf & Hn & _).
  exists new. split; [done|].
  eapply Forall_impl; [exact Hn|]. intros [f j] [Hx _]. split; [done|].
  destruct Hx as (m & n & _ & _ & Hfile & _). cbn [fst] in *. rewrite Hfile.
  apply safe_name_file.
Qed.

Lemma filter_all (l : list json) :
  Forall (fun r => is_null r = false) l -> filter (fun r => negb (is_null r)) l = l.
Proof.
  induction 1 as [|r l Hr _ IH]; [done|]. rewrite filter_cons, IH, Hr. done.
Qed.

Lemma filter_selected_entries (names : list string) (l : list json) :
  Forall (fun r => is_null r = false) l ->
  ReportsExport.filter_selected names l = Returned (filter (fun r => chosen names r) l).
Proof.
  induction 1 as [|r l Hr _ IH]; [done|].
  cbn [ReportsExport.filter_selected]. rewrite IH, filter_cons.
  unfold ReportsExport.selected, chosen.
  destruct r; try done; cbn [get];
    repeat match goal with
    | |- context [match ?x with _ => _ end] => destruct x
    end; try done; case_bool_decide; by rewrite ?decide_True, ?decide_False.
Qed.

(** X21: when the remote lists reports, the records fetched are those of
    the entries whose [name] is one of [REPORT_NAMES], or of all entries
    when no name is given, in the order of the listing and up to the
    first failure; when [main] returns, one file was written for each. *)
Theorem report_export_selection (names : list string) (w : world (Σ * written))
    (res : response) (m : obj) (l : list json) :
  mkdir_error = None ->
  (serve (remote w).1 (report_listing DEV_KEY)).2 = Reply res ->
  ReportsExport.ok res = true ->
  JSON_parse (data res) = Some (JObj m) ->
  m !! "list" = Some (JArr l) ->
  Forall (fun r => is_null r = false) l ->
  let r := ReportsExport.main serve DEV_KEY refused mkdir_error names w in
  exists k,
    sent r.1 = sent w ++ report_listing DEV_KEY
                         :: (report_detail DEV_KEY <$> take k (selection names l))
    /\ (r.2 = Returned tt ->
        k = length (selection names l)
        /\ length (files r.1) = (length (files w) + length (selection names l))%nat).
Proof.
  intros Hmk Hreply Hok Hparse Hlist Hl r. subst r.
  destruct (ReportsExport.main _ _ _ _ _ _) as [w' c] eqn:Hrun. cbn [fst snd].
  revert Hrun. unfold ReportsExport.main. rewrite Hmk, bind_run. unfold mkdirSync at 1.
  rewrite mret_run, bind_run, export_api_run. cbv zeta.
  fold (report_listing DEV_KEY). rewrite Hreply.
  cbn [report_export_reply]. rewrite Hok, Hparse.
  set (w1 := after_request _ _ _).
  assert (files w1 = files w /\ sent w1 = sent w ++ [report_listing DEV_KEY])
    as (Hf1 & Hs1) by done.
  clearbody w1.
  rewrite bind_run, member_run. cbn [is_null]. rewrite bind_run, lift_run.
  assert (ReportsExport.filtered names (ReportsExport.reports_of (JObj m))
          = Returned (JArr (selection names l))) as ->.
  { unfold ReportsExport.reports_of, ReportsExport.filtered, selection.
    cbn [get]. rewrite Hlist. cbn [ToBoolean truthy default from_option id].
    destruct names as [|n names]; [done|].
    by rewrite filter_selected_entries. }
  assert (Forall (fun r => is_null r = false) (selection names l)) as Hsel.
  { unfold selection. destruct names; [done|]. apply Forall_forall.
    intros r [_ Hr]%list_elem_of_filter. rewrite Forall_forall in Hl. by apply Hl. }
  rewrite bind_run, log_run, bind_run, lift_run. cbn [iterate].
  intros (new & k & Hf & Hn & Hs & Hr & Hc)%export_loop_effects.
  exists k. split.
  - rewrite Hs. cbn [sent logged]. rewrite Hs1, <-app_assoc. do 3 f_equal.
    apply filter_all, Forall_take, Hsel.
  - intros Hret. destruct (Hc Hret) as [-> Hlen]. split; [done|].
    rewrite Hf, length_app, Hlen. f_equal. by rewrite <-Hf1.
Qed.

End report_export.

(** ** The workflow exporter *)

Lemma literal_cons (k : string) (v : value) (fields : list (string * value)) :
  literal ((k, v) :: fields)
  = match v with Some x => <[k := x]> (literal fields) | None => literal fields end.
Proof. done. Qed.

Lemma literal_lookup_None (fields : list (string * value)) (k : string) :
  k ∉ fields.*1 -> literal fields !! k = None.
Proof.
  induction fields as [|[k' v] fields IH]; [done|].
  rewrite literal_cons, fmap_cons. intros [Hne Hk]%not_elem_of_cons.
  destruct v; [rewrite lookup_insert_ne by done|]; by apply IH.
Qed.

Lemma literal_lookup (fields : list (string * value)) (k : string) (v : value) :
  NoDup fields.*1 -> (k, v) ∈ fields -> literal fields !! k = v.
Proof.
  induction fields as [|[k' v'] fields IH]; [by intros _ ?%elem_of_nil|].
  rewrite literal_cons, fmap_cons. intros [Hk' Hnd]%NoDup_cons [[= -> ->]|Hin]%elem_of_cons.
  - destruct v'; [by rewrite lookup_insert_eq|by apply literal_lookup_None].
  - assert (k' <> k) as Hne.
    { intros ->. apply Hk', list_elem_of_fmap. by exists (k, v). }
    destruct v'; [rewrite lookup_insert_ne by done|]; by apply IH.
Qed.

Lemma cleanForExport_excluded (m : obj) :
  Forall (fun k => WorkflowsExport.cleanForExport m !! k = None)
    WorkflowsExport.EXCLUDE_FIELDS.
Proof.
  apply Forall_forall. intros k Hk.
  by apply (sanitizer_removes_exactly ExportWorkflow).
Qed.

Section workflow_export.
Context {Σ : Type} (serve : Σ -> request -> Σ * reply).
Variable new_URL : string -> string -> option URL.
Variable base64 : string -> string.
Variable units : string -> list string.
Variable now : string.
Variable refused : string -> bool.
Variable mkdir_error : option exn.

Lemma export_apiRequest_run baseUrl endpoint hs method body (w : world (Σ * written)) :
  let q := request_for new_URL baseUrl endpoint hs method body in
  WorkflowsExport.apiRequest (beside_files serve) new_URL baseUrl endpoint hs method body w
  = match q with
    | Some req =>
        (after_request w req ((serve (remote w).1 req).1, (remote w).2),
         workflow_export_reply (serve (remote w).1 req).2)
    | None => (w, Thrown (TypeError "Invalid URL"))
    end.
Proof.
  intros q. rewrite workflow_export_apiRequest_run. fold q.
  destruct q as [req|]; [|done]. by rewrite called_request, beside_files_step.
Qed.

Lemma read_only_request baseUrl endpoint hs :
  Forall read_only
    (option_list (request_for new_URL baseUrl endpoint hs "GET" (Some JNull))).
Proof.
  unfold request_for. destruct (new_URL endpoint baseUrl); by repeat constructor.
Qed.

Lemma exportWorkflow_effects url hs (workflow : json) (w w' : world (Σ * written))
    (c : completion json) :
  WorkflowsExport.exportWorkflow serve new_URL units refused url hs workflow w = (w', c) ->
  sent w' = sent w ++ (if is_null workflow then []
                       else option_list (workflow_detail new_URL url hs workflow))
  /\ reads w' = reads w
  /\ match c with
     | Returned entry =>
         exists cleaned,
           files w' = files w ++ [(workflow_file workflow, JObj cleaned)]
           /\ Forall (fun k => cleaned !! k = None) WorkflowsExport.EXCLUDE_FIELDS
           /\ refused (workflow_file workflow) = false
           /\ get "file" entry = Some (JStr (workflow_file workflow))
     | Thrown _ => files w' = files w
     end.
Proof.
  unfold WorkflowsExport.exportWorkflow. rewrite bind_run, member_run.
  destruct (is_null workflow) eqn:Hnull.
  { intros [= <- <-]. by rewrite app_nil_r. }
  rewrite bind_run, export_apiRequest_run. cbv zeta.
  fold (workflow_detail new_URL url hs workflow). fold (workflow_file workflow).
  destruct (workflow_detail new_URL url hs workflow) as [q|]; cycle 1.
  { intros [= <- <-]. by rewrite app_nil_r. }
  cbn [option_list].
  set (w1 := after_request _ _ _).
  assert (files w1 = files w /\ sent w1 = sent w ++ [q]
          /\ reads w1 = reads w) as (Hf1 & Hs1 & Hr1) by done.
  clearbody w1.
  destruct (workflow_export_reply _) as [full|e]; [|by intros [= <- <-]].
  rewrite bind_run. unfold writeFileSync at 1.
  destruct (refused (workflow_file workflow)) eqn:Hrefused; [by intros [= <- <-]|].
  rewrite bind_run, log_run, mret_run.
  intros [= <- <-]. split; [done|]. split; [done|].
  eexists. split; [by rewrite <-Hf1|]. split; [apply cleanForExport_excluded|].
  split; [done|].
  apply (literal_lookup [("id", get "id" workflow);
                         ("name", get "name" workflow);
                         ("entityType", get "entityType" workflow);
                         ("type", get "type" workflow);
                         ("isActive", get "isActive" workflow);
                         ("file", Some (JStr (workflow_file workflow)))] "file");
    [|by repeat constructor].
  apply (bool_decide_unpack _). by vm_compute.
Qed.

Lemma exportWorkflows_effects url hs (ws entries : list json) (w w' : world (Σ * written))
    (c : completion (list json)) :
  WorkflowsExport.exportWorkflows serve new_URL units refused url hs ws entries w
  = (w', c) ->
  exists new k,
    files w' = files w ++ new
    /\ Forall (fun f => exported_workflow f /\ refused f.1 = false) new
    /\ sent w' = sent w ++ omap (workflow_detail new_URL url hs)
                             (filter (fun r => negb (is_null r)) (take k ws))
    /\ reads w' = reads w
    /\ match c with
       | Returned entries' =>
           exists es, entries' = entries ++ es
                      /\ new.*1 = workflow_file <$> ws
                      /\ get "file" <$> es = (fun f => Some (JStr f.1)) <$> new
                      /\ k = length ws
       | Thrown _ => (length new < length ws)%nat
       end.
Proof.
  revert entries w. induction ws as [|workflow ws IH]; intros entries w.
  - intros [= <- <-]. exists [], 0%nat. rewrite !app_nil_r.
    repeat split; try done. exists []. by rewrite app_nil_r.
  - cbn [WorkflowsExport.exportWorkflows]. rewrite bind_run.
    destruct (WorkflowsExport.exportWorkflow _ _ _ _ _ _ _ _) as [w1 [entry|e]] eqn:Hstep;
      apply exportWorkflow_effects in Hstep as (Hs1 & Hr1 & Hstep).
    + destruct Hstep as (cleaned & Hf1 & Hx & Href & Hfile).
      intros (new & k & Hf2 & Hn2 & Hs2 & Hr2 & Hc2)%IH.
      exists ((workflow_file workflow, JObj cleaned) :: new), (S k).
      split; [by rewrite Hf2, Hf1, <-app_assoc|].
      split; [constructor; [split; [by exists workflow, cleaned|done]|done]|].
      split.
      { rewrite Hs2, Hs1, <-app_assoc. f_equal. cbn [take].
        rewrite filter_cons. destruct (is_null workflow); cbn [negb]; [done|].
        csimpl. by destruct (workflow_detail new_URL url hs workflow). }
      split; [congruence|].
      destruct c as [entries'|e]; [|cbn; lia].
      destruct Hc2 as (es & -> & Hnames & Hfiles & ->).
      exists (entry :: es). split; [by rewrite <-app_assoc|].
      split; [by rewrite !fmap_cons, Hnames|].
      split; [|done].
      by rewrite !fmap_cons, Hfiles, Hfile.
    + intros [= <- <-]. exists [], 1%nat. rewrite app_nil_r.
      split; [done|]. split; [done|]. split.
      { rewrite Hs1. f_equal. cbn [take]. rewrite take_0, filter_cons, filter_nil.
        destruct (is_null workflow); cbn [negb]; [done|].
        csimpl. by destruct (workflow_detail new_URL url hs workflow). }
      split; [done|]. cbn. lia.
Qed.

Lemma read_only_details url hs (ws : list json) :
  Forall read_only (omap (workflow_detail new_URL url hs) ws).
Proof.
  apply Forall_forall. intros q (workflow & _ & Hq)%list_elem_of_omap.
  unfold workflow_detail, request_for in Hq.
  destruct (new_URL _ url) as [u|]; cbn in Hq; [|done]. by injection Hq as <-.
Qed.

Lemma exportAll_effects (url : string) hs (outputDir : bool)
    (w w' : world (Σ * written)) (c : completion WorkflowsExport.ending) :
  WorkflowsExport.exportAll serve new_URL units now refused mkdir_error url hs outputDir w
  = (w', c) ->
  exists ending qs new,
    c = Returned ending
    /\ sent w' = sent w ++ qs /\ Forall read_only qs
    /\ reads w' = reads w
    /\ files w' = files w ++ new
    /\ match ending with
       | WorkflowsExport.Complete =>
           exists entities manifest entries,
             new = entities ++ [("_manifest.json", JObj manifest)]
             /\ Forall (fun f => exported_workflow f /\ refused f.1 = false) entities
             /\ manifest !! "workflows" = Some (JArr entries)
             /\ get "file" <$> entries = (fun f => Some (JStr f.1)) <$> entities
             /\ manifest !! "source" = Some (JStr url)
             /\ manifest !! "exportedAt" = Some (JStr now)
       | WorkflowsExport.Nothing => new = []
       | WorkflowsExport.Exit code =>
           code = 1 /\ Forall (fun f => exported_workflow f /\ refused f.1 = false) new
       end.
Proof.
  unfold WorkflowsExport.exportAll. rewrite try_catch_run, bind_run, log_run.
  rewrite bind_run, export_apiRequest_run. cbv zeta.
  assert (forall e (w2 : world (Σ * written)) qs new,
    sent w2 = sent w ++ qs -> Forall read_only qs -> reads w2 = reads w ->
    files w2 = files w ++ new ->
    Forall (fun f => exported_workflow f /\ refused f.1 = false) new ->
    (log (Info ("Error: " +:+ message e)) ≫= fun _ => mret (WorkflowsExport.Exit 1)) w2
    = (w', c) ->
    exists ending qs new,
      c = Returned ending
      /\ sent w' = sent w ++ qs /\ Forall read_only qs
      /\ reads w' = reads w
      /\ files w' = files w ++ new
      /\ match ending with
         | WorkflowsExport.Complete =>
             exists entities manifest entries,
               new = entities ++ [("_manifest.json", JObj manifest)]
               /\ Forall (fun f => exported_workflow f /\ refused f.1 = false) entities
               /\ manifest !! "workflows" = Some (JArr entries)
               /\ get "file" <$> entries = (fun f => Some (JStr f.1)) <$> entities
               /\ manifest !! "source" = Some (JStr url)
               /\ manifest !! "exportedAt" = Some (JStr now)
         | WorkflowsExport.Nothing => new = []
         | WorkflowsExport.Exit code =>
             code = 1
             /\ Forall (fun f => exported_workflow f /\ refused f.1 = false) new
         end) as Hcatch.
  { intros e w2 qs new Hs Hq Hr Hf Hn. rewrite bind_run, log_run, mret_run.
    intros [= <- <-]. by exists (WorkflowsExport.Exit 1), qs, new. }
  pose proof (read_only_request url "/api/v1/Workflow?maxSize=500&orderBy=name" hs) as Hq1.
  destruct (request_for new_URL url "/api/v1/Workflow?maxSize=500&orderBy=name" hs "GET"
              (Some JNull)) as [q1|]; cycle 1.
  { apply (Hcatch _ _ [] []); by rewrite ?app_nil_r. }
  cbn [option_list] in Hq1.
  set (w1 := after_request _ _ _).
  assert (files w1 = files w /\ sent w1 = sent w ++ [q1] /\ reads w1 = reads w)
    as (Hf1 & Hs1 & Hr1) by done.
  clearbody w1.
  destruct (workflow_export_reply _) as [response|e];
    [|by apply (Hcatch e w1 [q1] []); rewrite ?app_nil_r].
  rewrite bind_run, member_run.
  destruct (is_null response);
    [by apply (Hcatch _ w1 [q1] []); rewrite ?app_nil_r|].
  set (list_ := get "list" response). clearbody list_.
  destruct (negb (ToBoolean list_) || WorkflowsExport.is_empty units (default JNull list_)).
  { rewrite bind_run, log_run, mret_run. intros [= <- <-].
    exists WorkflowsExport.Nothing, [q1], []. by rewrite app_nil_r. }
  rewrite bind_run, log_run, bind_run.
  set (w2 := logged w1 _).
  assert (files w2 = files w /\ sent w2 = sent w ++ [q1] /\ reads w2 = reads w)
    as (Hf2 & Hs2 & Hr2) by done.
  clearbody w2.
  assert ((if outputDir then mret tt else mkdirSync mkdir_error) w2
          = (w2, if outputDir then Returned tt
                 else match mkdir_error with Some e => Thrown e | None => Returned tt end))
    as -> by (destruct outputDir; [done|by destruct mkdir_error]).
  destruct (if outputDir then _ else _) as [[]|e];
    [|by apply (Hcatch e w2 [q1] []); rewrite ?app_nil_r].
  rewrite bind_run.
  destruct (iterate "response.list" (default JNull list_)) as [ws|e];
    [|by apply (Hcatch e w2 [q1] []); rewrite ?app_nil_r].
  rewrite mret_run, bind_run.
  destruct (WorkflowsExport.exportWorkflows _ _ _ _ _ _ _ _ _) as [w3 [entries|e]] eqn:Hloop;
    apply exportWorkflows_effects in Hloop as (new & k & Hf3 & Hn3 & Hs3 & Hr3 & Hc3).
  2:{ apply (Hcatch e w3 (q1 :: omap (workflow_detail new_URL url hs)
                                  (filter (fun r => negb (is_null r)) (take k ws))) new).
      - by rewrite Hs3, Hs2, <-app_assoc.
      - apply Forall_app with (l1 := [q1]). split; [done|]. apply read_only_details.
      - congruence.
      - by rewrite Hf3, Hf2.
      - done. }
  destruct Hc3 as (es & Hes & Hnames & Hfiles & _). cbn [app] in Hes. subst es.
  rewrite bind_run. unfold writeFileSync at 1.
  assert (sent w3 = sent w ++ q1 :: omap (workflow_detail new_URL url hs)
                       (filter (fun r => negb (is_null r)) (take k ws))) as Hs3'
    by by rewrite Hs3, Hs2, <-app_assoc.
  assert (Forall read_only (q1 :: omap (workflow_detail new_URL url hs)
                       (filter (fun r => negb (is_null r)) (take k ws)))) as Hq3.
  { apply Forall_app with (l1 := [q1]). split; [done|]. apply read_only_details. }
  destruct (refused "_manifest.json").
  { apply (Hcatch _ w3 _ new Hs3' Hq3); [congruence|by rewrite Hf3, Hf2|done]. }
  rewrite bind_run, log_run, mret_run. intros [= <- <-].
  eexists WorkflowsExport.Complete, _, (new ++ [("_manifest.json", _)]).
  split; [done|]. split; [exact Hs3'|]. split; [done|].
  split; [cbn; congruence|].
  split; [cbn [files remote logged snd]; fold (files w3); by rewrite Hf3, Hf2, <-app_assoc|].
  eexists new, _, entries. split; [done|]. split; [done|].
  split; [|split; [done|split]].
  - rewrite !lookup_insert_ne by done.
    destruct (WorkflowsExport.length_of _ _);
      [rewrite lookup_insert_ne by done|]; by rewrite lookup_insert_eq.
  - by rewrite lookup_insert_ne, lookup_insert_eq by done.
  - by rewrite lookup_insert_eq.
Qed.

Lemma workflow_export_effects (args : Settings.arguments)
    (outputDir : bool) (w w' : world (Σ * written))
    (c : completion WorkflowsExport.ending) :
  WorkflowsExport.export serve new_URL base64 units now refused mkdir_error args
    outputDir w = (w', c) ->
  exists ending qs new,
    c = Returned ending
    /\ sent w' = sent w ++ qs /\ Forall read_only qs
    /\ reads w' = reads w
    /\ files w' = files w ++ new
    /\ match ending with
       | WorkflowsExport.Complete =>
           exists entities manifest entries,
             new = entities ++ [("_manifest.json", JObj manifest)]
             /\ Forall (fun f => exported_workflow f /\ refused f.1 = false) entities
             /\ manifest !! "workflows" = Some (JArr entries)
             /\ get "file" <$> entries = (fun f => Some (JStr f.1)) <$> entities
             /\ manifest !! "source" = Some (JStr (Settings.url args))
             /\ manifest !! "exportedAt" = Some (JStr now)
       | WorkflowsExport.Nothing => new = []
       | WorkflowsExport.Exit code =>
           code = 1 /\ Forall (fun f => exported_workflow f /\ refused f.1 = false) new
       end.
Proof.
  unfold WorkflowsExport.export. rewrite bind_run, log_run.
  destruct (negb (WorkflowsExport.present (Settings.user args))
            || negb (WorkflowsExport.present (Settings.password args))).
  { rewrite bind_run, log_run, mret_run. intros [= <- <-].
    exists (WorkflowsExport.Exit 1), [], []. by rewrite !app_nil_r. }
  rewrite bind_run, try_catch_run, bind_run, export_authenticate_run. cbv zeta.
  pose proof (read_only_request (Settings.url args) "/api/v1/App/user"
                [("Espo-Authorization",
                  base64 (default EmptyString (Settings.user args) +:+ ":"
                          +:+ default EmptyString (Settings.password args)))]) as Hq0.
  destruct (request_for new_URL (Settings.url args) "/api/v1/App/user" _ "GET" (Some JNull))
    as [q0|]; cycle 1.
  { cbn [called fst snd]. rewrite bind_run, log_run, mret_run. intros [= <- <-].
    exists (WorkflowsExport.Exit 1), [], []. by rewrite !app_nil_r. }
  cbn [option_list] in Hq0. rewrite called_request, beside_files_step. cbn [fst snd].
  set (w1 := after_request _ _ _).
  assert (files w1 = files w /\ sent w1 = sent w ++ [q0] /\ reads w1 = reads w)
    as (Hf1 & Hs1 & Hr1) by done.
  clearbody w1.
  destruct (workflow_export_reply _) as [response|e]; cycle 1.
  { rewrite bind_run, log_run, mret_run. intros [= <- <-].
    exists (WorkflowsExport.Exit 1), [q0], []. rewrite app_nil_r.
    repeat split; done. }
  assert (forall (w2 : world (Σ * written)) hs,
    files w2 = files w -> sent w2 = sent w ++ [q0] -> reads w2 = reads w ->
    WorkflowsExport.exportAll serve new_URL units now refused mkdir_error
      (Settings.url args) hs outputDir w2
    = (w', c) ->
    exists ending qs new,
      c = Returned ending
      /\ sent w' = sent w ++ qs /\ Forall read_only qs
      /\ reads w' = reads w
      /\ files w' = files w ++ new
      /\ match ending with
         | WorkflowsExport.Complete =>
             exists entities manifest entries,
               new = entities ++ [("_manifest.json", JObj manifest)]
               /\ Forall (fun f => exported_workflow f /\ refused f.1 = false) entities
               /\ manifest !! "workflows" = Some (JArr entries)
               /\ get "file" <$> entries = (fun f => Some (JStr f.1)) <$> entities
               /\ manifest !! "source" = Some (JStr (Settings.url args))
               /\ manifest !! "exportedAt" = Some (JStr now)
         | WorkflowsExport.Nothing => new = []
         | WorkflowsExport.Exit code =>
             code = 1
             /\ Forall (fun f => exported_workflow f /\ refused f.1 = false) new
         end) as Hrest.
  { intros w2 hs Hf2 Hs2 Hr2
      (ending & qs & new & Hc & Hs & Hq & Hr & Hf & He)%exportAll_effects.
    exists ending, (q0 :: qs), new. split; [done|].
    split; [by rewrite Hs, Hs2, <-app_assoc|].
    split; [by apply Forall_app with (l1 := [q0])|].
    split; [congruence|]. split; [congruence|done]. }
  destruct (has_token response); rewrite mret_run; by apply Hrest.
Qed.

(** [main] is [export] on the settings, after the read of [.env]. *)
Lemma export_main_run dotenv argv env args outputDir (w : world (Σ * written)) :
  settings dotenv argv env = Some args ->
  WorkflowsExport.main serve new_URL base64 units now refused mkdir_error dotenv argv env
    outputDir w
  = WorkflowsExport.export serve new_URL base64 units now refused mkdir_error args
      outputDir (settings_read dotenv w).
Proof.
  intros H. unfold WorkflowsExport.main. by rewrite bind_run, (read_settings _ _ _ _ _ H).
Qed.

Lemma export_main_unreadable e argv env outputDir (w : world (Σ * written)) :
  WorkflowsExport.main serve new_URL base64 units now refused mkdir_error (Some (Thrown e))
    argv env outputDir w
  = (settings_read (Some (Thrown e)) w, Thrown e).
Proof. done. Qed.

(** X22: export-workflows.js only reads from the remote: every request
    that [main] sends, the login included, is a [GET] without a body; and
    the one file that it reads is [.env], when there is one. *)
Theorem workflow_export_only_reads (dotenv : option (completion string))
    (argv : list string) (env : Settings.env)
    (outputDir : bool) (w : world (Σ * written)) :
  let r := WorkflowsExport.main serve new_URL base64 units now refused mkdir_error dotenv
             argv env outputDir w in
  exists qs,
    sent r.1 = sent w ++ qs /\ Forall read_only qs
    /\ reads r.1 = reads w ++ settings_reads dotenv.
Proof.
  intros r. subst r.
  destruct (settings_cases dotenv argv env) as [[args Hargs]|[e ->]].
  - rewrite (export_main_run _ _ _ _ _ _ Hargs).
    destruct (WorkflowsExport.export _ _ _ _ _ _ _ _ _ _) as [w' c] eqn:Hrun.
    apply workflow_export_effects in Hrun as (ending & qs & new & _ & Hs & Hq & Hr & _).
    by exists qs.
  - rewrite export_main_unreadable. exists []. cbn. by rewrite app_nil_r.
Qed.

(** X23: [main] of export-workflows.js throws only when the file [.env]
    is there and cannot be read, and then nothing is sent or written.
    Otherwise the manifest is written only when every workflow was: a
    complete run writes the workflow files and then [_manifest.json],
    whose [workflows] name the files written, in order; a run that finds
    nothing writes nothing; a run that fails ends with exit code 1 and
    leaves only workflow files behind, each without the fields of
    [EXCLUDE_FIELDS]. *)
Theorem workflow_export_manifest (dotenv : option (completion string))
    (argv : list string) (env : Settings.env)
    (outputDir : bool) (w : world (Σ * written)) :
  let r := WorkflowsExport.main serve new_URL base64 units now refused mkdir_error dotenv
             argv env outputDir w in
  match settings dotenv argv env with
  | None =>
      exists e, dotenv = Some (Thrown e) /\ r.2 = Thrown e
                /\ sent r.1 = sent w /\ files r.1 = files w
  | Some args =>
      exists ending new,
        r.2 = Returned ending
        /\ files r.1 = files w ++ new
        /\ match ending with
           | WorkflowsExport.Complete =>
               exists entities manifest entries,
                 new = entities ++ [("_manifest.json", JObj manifest)]
                 /\ Forall exported_workflow entities
                 /\ manifest !! "workflows" = Some (JArr entries)
                 /\ get "file" <$> entries = (fun f => Some (JStr f.1)) <$> entities
                 /\ manifest !! "source" = Some (JStr (Settings.url args))
                 /\ manifest !! "exportedAt" = Some (JStr now)
           | WorkflowsExport.Nothing => new = []
           | WorkflowsExport.Exit code => code = 1 /\ Forall exported_workflow new
           end
  end.
Proof.
  intros r. subst r.
  destruct (settings dotenv argv env) as [args|] eqn:Hargs; cycle 1.
  { destruct dotenv as [[content|e]|]; try done. rewrite export_main_unreadable.
    by exists e. }
  rewrite (export_main_run _ _ _ _ _ _ Hargs).
  destruct (WorkflowsExport.export _ _ _ _ _ _ _ _ _ _) as [w' c] eqn:Hrun.
  apply workflow_export_effects in Hrun as (ending & qs & new & -> & _ & _ & _ & Hf & He).
  exists ending, new. split; [done|]. split; [done|].
  destruct ending as [code| |].
  - destruct He as [-> He]. split; [done|].
    eapply Forall_impl; [exact He|]. by intros f [].
  - done.
  - destruct He as (entities & manifest & entries & -> & He & Hm).
    exists entities, manifest, entries. split; [done|]. split; [|done].
    eapply Forall_impl; [exact He|]. by intros f [].
Qed.

Lemma workflow_file_name (workflow : json) :
  endsWith ".json" (workflow_file workflow) = true.
Proof. apply endsWith_app. Qed.

(** X24: after a complete export into an empty directory, the workflow
    importer takes every exported workflow file whose name does not start
    with an underscore, and never the manifest. *)
Theorem exported_workflows_are_imported (dotenv : option (completion string))
    (argv : list string) (env : Settings.env)
    (outputDir : bool) (w : world (Σ * written)) (dir : directory) :
  let r := WorkflowsExport.main serve new_URL base64 units now refused mkdir_error dotenv
             argv env outputDir w in
  r.2 = Returned WorkflowsExport.Complete ->
  files w = [] ->
  (forall f, f ∈ dir.*1 <-> f ∈ (files r.1).*1) ->
  exists entities manifest,
    files r.1 = entities ++ [("_manifest.json", manifest)]
    /\ ("_manifest.json" ∉ WorkflowsImport.files_of dir)
    /\ (forall f, f ∈ WorkflowsImport.files_of dir
                  <-> (f ∈ entities.*1 /\ startsWith "_" f = false)).
Proof.
  intros r. subst r.
  destruct (settings_cases dotenv argv env) as [[args Hargs]|[e ->]];
    [|by rewrite export_main_unreadable].
  rewrite (export_main_run _ _ _ _ _ _ Hargs).
  destruct (WorkflowsExport.export _ _ _ _ _ _ _ _ _ _) as [w' c] eqn:Hrun.
  apply workflow_export_effects in Hrun as (ending & qs & new & -> & _ & _ & _ & Hf & He).
  cbn [fst snd]. intros [= ->] Hw Hdir.
  change (files (settings_read dotenv w)) with (files w) in Hf.
  rewrite Hw in Hf. cbn [app] in Hf.
  destruct He as (entities & manifest & entries & -> & He & _).
  exists entities, (JObj manifest). split; [done|].
  assert (forall f, f ∈ WorkflowsImport.files_of dir
                    <-> (f ∈ entities.*1 /\ startsWith "_" f = false)) as Hfiles.
  { intros f. unfold WorkflowsImport.files_of.
    rewrite list_elem_of_filter, Hdir, Hf, fmap_app, elem_of_app, andb_True.
    cbn [fmap list_fmap fst]. rewrite list_elem_of_singleton.
    split.
    - intros [[_ Hu] [Hin| ->]]; [|by vm_compute in Hu].
      split; [done|]. by destruct (startsWith "_" f).
    - intros [Hin Hu]. rewrite Hu. split; [|by left]. split; [|done].
      apply list_elem_of_fmap in Hin as ([f' j] & -> & Hin).
      rewrite Forall_forall in He. destruct (He _ Hin) as [(wf & cl & Hname & _) _].
      cbn [fst] in *. rewrite Hname. apply Is_true_true, workflow_file_name. }
  split; [|done]. rewrite Hfiles. by intros [_ Hu].
Qed.


End workflow_export.

Lemma report_export_selection_witness :
  let r := ReportsExport.main two_reports_remote "key" nothing_refused None ["Leads"]
             fresh in
  exists k,
    sent r.1 = sent fresh ++ report_listing "key"
                 :: (report_detail "key"
                     <$> take k (selection ["Leads"]
                                   [JObj {[ "id" := JStr "r1"; "name" := JStr "Sales Q1" ]};
                                    JObj {[ "id" := JStr "r2"; "name" := JStr "Leads" ]}]))
    /\ (r.2 = Returned tt ->
        k = length (selection ["Leads"]
                      [JObj {[ "id" := JStr "r1"; "name" := JStr "Sales Q1" ]};
                       JObj {[ "id" := JStr "r2"; "name" := JStr "Leads" ]}])
        /\ length (files r.1)
           = (length (files fresh)
              + length (selection ["Leads"]
                          [JObj {[ "id" := JStr "r1"; "name" := JStr "Sales Q1" ]};
                           JObj {[ "id" := JStr "r2"; "name" := JStr "Leads" ]}]))%nat).
Proof.
  apply (report_export_selection two_reports_remote "key" nothing_refused None ["Leads"]
           fresh
           (Response 200
              (Text "{list:[{id:r1,name:Sales Q1},{id:r2,name:Leads}]}"
                 (Some (JObj {[ "list" :=
                    JArr [JObj {[ "id" := JStr "r1"; "name" := JStr "Sales Q1" ]};
                          JObj {[ "id" := JStr "r2"; "name" := JStr "Leads" ]}] ]}))))
           {[ "list" :=
                JArr [JObj {[ "id" := JStr "r1"; "name" := JStr "Sales Q1" ]};
                      JObj {[ "id" := JStr "r2"; "name" := JStr "Leads" ]}] ]}
           [JObj {[ "id" := JStr "r1"; "name" := JStr "Sales Q1" ]};
            JObj {[ "id" := JStr "r2"; "name" := JStr "Leads" ]}]).
  - reflexivity.
  - reflexivity.
  - reflexivity.
  - reflexivity.
  - reflexivity.
  - repeat constructor.
Defined.

Lemma exported_workflows_are_imported_witness :
  let r := WorkflowsExport.main one_workflow_remote localhost (fun s => s) no_units
             "2024-01-01T00:00:00.000Z" nothing_refused None None
             ["node"; "export-workflows.js"; "--user=admin"; "--password=secret"] ∅
             true fresh in
  exists entities manifest,
    files r.1 = entities ++ [("_manifest.json", manifest)]
    /\ ("_manifest.json" ∉ WorkflowsImport.files_of
          [("w1.json", None); ("_manifest.json", None)])
    /\ (forall f, f ∈ WorkflowsImport.files_of [("w1.json", None); ("_manifest.json", None)]
                  <-> (f ∈ entities.*1 /\ startsWith "_" f = false)).
Proof.
  apply (exported_workflows_are_imported one_workflow_remote localhost (fun s => s)
           no_units "2024-01-01T00:00:00.000Z" nothing_refused None None
           ["node"; "export-workflows.js"; "--user=admin"; "--password=secret"] ∅
           true fresh
           [("w1.json", None); ("_manifest.json", None)]).
  - by vm_compute.
  - reflexivity.
  - intros f. vm_compute. tauto.
Defined.

